(** * rfc5424: validation and wire encoding of syslog messages, and the
    tag-driven reflection of record types

    Shallow embedding of [marshal.go] and [reflect.go].

    Conventions of the embedding:
    - a Go [string] is a [String.string]: a sequence of 8-bit [ascii] bytes,
      indexed by byte as in Go ([len s] is [String.length s]);
    - a Go [[]byte] is a [list Byte.byte];
    - a Go [int] is a [Z] (the only arithmetic on it, the PRI computation,
      has its 64-bit wrap-around written out);
    - a Go panic is the [Panic] outcome of the small [outcome] monad;
    - the process-wide reflection cache is a [gmap] threaded through
      [Reflect] by explicit state passing. *)

From Stdlib Require Import ZArith Ascii String List Bool Lia.
From Stdlib Require Import DecimalString.
From stdpp Require Import base list gmap strings.

Local Open Scope Z_scope.

(** ** Outcomes: a value, or a Go panic *)

Inductive outcome (A : Type) : Type :=
  | Done (a : A)
  | Panic (msg : string).
Arguments Done {A} a.
Arguments Panic {A} msg.

Definition obind {A B : Type} (o : outcome A) (k : A -> outcome B) : outcome B :=
  match o with
  | Done a => k a
  | Panic msg => Panic msg
  end.

Definition outcome_map {A B : Type} (f : A -> B) (o : outcome A) : outcome B :=
  match o with
  | Done a => Done (f a)
  | Panic msg => Panic msg
  end.

Notation "'let!' x ':=' c1 'in' c2" := (obind c1 (fun x => c2))
  (at level 10, x name, c1 at level 100, c2 at level 200).

Notation "'let!' ' pat ':=' c1 'in' c2" :=
  (obind c1 (fun x => match x with pat => c2 end))
  (at level 10, pat pattern, c1 at level 100, c2 at level 200).

(** ** Bytes and characters *)

(** The numeric value of a byte, as Go sees [s[i]]. *)
Definition byteZ (c : ascii) : Z := Z.of_N (N_of_ascii c).

Definition backslash : ascii := "092"%char.
Definition dquote : ascii := "034"%char.
Definition rbracket : ascii := "093"%char.
Definition equals : ascii := "061"%char.

(** The one-character string holding a double quote. *)
Definition dq : string := String dquote EmptyString.

(** ** marshal.go: [nilify] *)

Definition nilify (x : string) : string :=
  if String.eqb x "" then "-" else x.

(** ** marshal.go: [escapeSDParam] *)

(** The case list of the two switches: backslash, double quote, closing
    bracket. *)
Definition isReserved (c : ascii) : bool :=
  Ascii.eqb c backslash || Ascii.eqb c dquote || Ascii.eqb c rbracket.

(** First loop: [for i := 0; i < len(s); i++ { switch s[i] {...escapeCount++} }]. *)
Fixpoint countEscapes (s : string) (escapeCount : nat) : nat :=
  match s with
  | EmptyString => escapeCount
  | String c s' =>
      countEscapes s' (if isReserved c then S escapeCount else escapeCount)
  end.

(** [t[j] = c] on a byte slice: Go panics when [j] is out of range. *)
Definition store (t : list ascii) (j : nat) (c : ascii) : outcome (list ascii) :=
  if (j <? length t)%nat then Done (<[j := c]> t)
  else Panic "runtime error: index out of range".

(** Second loop: copies [s] into [t] from index [j] on, two bytes for a
    reserved byte, one for any other. *)
Fixpoint fillEscaped (s : string) (t : list ascii) (j : nat) : outcome (list ascii) :=
  match s with
  | EmptyString => Done t
  | String c s' =>
      if isReserved c then
        let! t1 := store t j backslash in
        let! t2 := store t1 (j + 1) c in
        fillEscaped s' t2 (j + 2)
      else
        let! t1 := store t j c in
        fillEscaped s' t1 (j + 1)
  end.

Definition escapeSDParam (s : string) : outcome string :=
  let escapeCount := countEscapes s 0 in
  if (escapeCount =? 0)%nat then Done s
  else
    let t := replicate (String.length s + escapeCount) zero in
    let! t' := fillEscaped s t 0 in
    Done (string_of_list_ascii t').

(** *** What the escaper is specified to compute

    Each backslash, double quote and closing bracket is preceded by a
    backslash; every other byte is passed through. *)
Fixpoint escaped (s : string) : string :=
  match s with
  | EmptyString => EmptyString
  | String c s' =>
      if isReserved c then String backslash (String c (escaped s'))
      else String c (escaped s')
  end.

(** Removing each escaping backslash that precedes a backslash, a double
    quote or a closing bracket. *)
Fixpoint unescape (s : string) : string :=
  match s with
  | EmptyString => EmptyString
  | String c s' =>
      if Ascii.eqb c backslash then
        match s' with
        | String d s'' =>
            if isReserved d then String d (unescape s'')
            else String c (unescape s')
        | EmptyString => String c EmptyString
        end
      else String c (unescape s')
  end.

(** No byte of [s] is one of the three reserved bytes. *)
Definition noReserved (s : string) : bool :=
  forallb (fun c => negb (isReserved c)) (list_ascii_of_string s).

(** ** Go's [unicode/utf8]: decoding and validity

    The standard library functions the validator relies on: the rune a
    [range] loop over a string yields at each position, and
    [utf8.ValidString]. *)

Module utf8.

Definition RuneError : Z := 0xFFFD.
Definition RuneSelf : Z := 0x80.

Definition maskx : Z := 0x3F.
Definition mask2 : Z := 0x1F.
Definition mask3 : Z := 0x0F.
Definition mask4 : Z := 0x07.

Definition locb : Z := 0x80.
Definition hicb : Z := 0xBF.

(** Entries of the [first] table: the low three bits hold the length of
    the sequence, the high four bits an index into [acceptRanges]. *)
Definition xx : Z := 0xF1.
Definition as_ : Z := 0xF0.
Definition s1 : Z := 0x02.
Definition s2 : Z := 0x13.
Definition s3 : Z := 0x03.
Definition s4 : Z := 0x23.
Definition s5 : Z := 0x34.
Definition s6 : Z := 0x04.
Definition s7 : Z := 0x44.

(** [first[b]], the information about the first byte of a sequence. *)
Definition first (b : Z) : Z :=
  if b <? 0x80 then as_
  else if b <? 0xC2 then xx
  else if b <? 0xE0 then s1
  else if b =? 0xE0 then s2
  else if b <? 0xED then s3
  else if b =? 0xED then s4
  else if b <? 0xF0 then s3
  else if b =? 0xF0 then s5
  else if b <? 0xF4 then s6
  else if b =? 0xF4 then s7
  else xx.

(** [acceptRanges[i]]: the range of valid second bytes; the array has
    16 entries, all zero past the fifth. *)
Definition acceptRanges (i : Z) : Z * Z :=
  if i =? 0 then (locb, hicb)
  else if i =? 1 then (0xA0, hicb)
  else if i =? 2 then (locb, 0x9F)
  else if i =? 3 then (0x90, hicb)
  else if i =? 4 then (locb, 0x8F)
  else (0, 0).

(** [s[i]] where the surrounding code has checked [i < len(s)]. *)
Definition byteAt (s : string) (i : nat) : Z :=
  match String.get i s with
  | Some c => byteZ c
  | None => 0
  end.

(** A 32-bit signed integer keeps the low 32 bits, read in two's complement. *)
Definition wrap32 (z : Z) : Z := (z + 2 ^ 31) mod 2 ^ 32 - 2 ^ 31.

(** [utf8.DecodeRuneInString]: the first rune of [s] and its width in bytes. *)
Definition DecodeRuneInString (s : string) : Z * nat :=
  let n := Z.of_nat (String.length s) in
  if n <? 1 then (RuneError, 0%nat)
  else
    let s0 := byteAt s 0 in
    let x := first s0 in
    if as_ <=? x then
      let mask := Z.shiftr (wrap32 (Z.shiftl x 31)) 31 in
      (Z.lor (Z.ldiff s0 mask) (Z.land RuneError mask), 1%nat)
    else
      let sz := Z.land x 7 in
      let accept := acceptRanges (Z.shiftr x 4) in
      if n <? sz then (RuneError, 1%nat)
      else
        let b1 := byteAt s 1 in
        if (b1 <? fst accept) || (snd accept <? b1) then (RuneError, 1%nat)
        else if sz <=? 2 then
          (Z.lor (Z.shiftl (Z.land s0 mask2) 6) (Z.land b1 maskx), 2%nat)
        else
          let b2 := byteAt s 2 in
          if (b2 <? locb) || (hicb <? b2) then (RuneError, 1%nat)
          else if sz <=? 3 then
            (Z.lor (Z.lor (Z.shiftl (Z.land s0 mask3) 12)
                          (Z.shiftl (Z.land b1 maskx) 6))
                   (Z.land b2 maskx), 3%nat)
          else
            let b3 := byteAt s 3 in
            if (b3 <? locb) || (hicb <? b3) then (RuneError, 1%nat)
            else
              (Z.lor (Z.lor (Z.lor (Z.shiftl (Z.land s0 mask4) 18)
                                   (Z.shiftl (Z.land b1 maskx) 12))
                            (Z.shiftl (Z.land b2 maskx) 6))
                     (Z.land b3 maskx), 4%nat).

(** The runes that [for _, ch := range s] yields: at each position the
    decoded rune, the index then advancing by its width ([skip] counts
    the bytes of the current rune still to be passed over). *)
Fixpoint rangeFrom (skip : nat) (s : string) : list Z :=
  match s with
  | EmptyString => []
  | String _ s' =>
      match skip with
      | S k => rangeFrom k s'
      | O =>
          let '(ch, width) := DecodeRuneInString s in
          ch :: rangeFrom (width - 1) s'
      end
  end.

Definition range (s : string) : list Z := rangeFrom 0 s.

(** [utf8.ValidString]: the loop [for i := 0; i < n; { ... i += size }]
    ([skip] again counts the bytes that [i += size] passes over). *)
Fixpoint validFrom (skip : nat) (s : string) : bool :=
  match s with
  | EmptyString => true
  | String c s' =>
      match skip with
      | S k => validFrom k s'
      | O =>
          let si := byteZ c in
          if si <? RuneSelf then validFrom 0 s'
          else
            let x := first si in
            if x =? xx then false
            else
              let size := Z.land x 7 in
              if Z.of_nat (String.length s) <? size then false
              else
                let accept := acceptRanges (Z.shiftr x 4) in
                let c1 := byteAt s 1 in
                if (c1 <? fst accept) || (snd accept <? c1) then false
                else if size =? 2 then validFrom (Z.to_nat size - 1) s'
                else
                  let c2 := byteAt s 2 in
                  if (c2 <? locb) || (hicb <? c2) then false
                  else if size =? 3 then validFrom (Z.to_nat size - 1) s'
                  else
                    let c3 := byteAt s 3 in
                    if (c3 <? locb) || (hicb <? c3) then false
                    else validFrom (Z.to_nat size - 1) s'
      end
  end.

Definition ValidString (s : string) : bool := validFrom 0 s.

End utf8.

(** ** Go's [fmt] and [bytes.Buffer] *)

(** The verb [%d] on an integer: decimal digits, a minus sign when negative. *)
Definition formatInt (z : Z) : string := NilZero.string_of_int (Z.to_int z).

(** [fmt.Fprint(b, s)] on a buffer: the bytes of [s] are appended. *)
Definition Fprint (b : list Byte.byte) (s : string) : list Byte.byte :=
  b ++ list_byte_of_string s.

(** [b.Write(p)]. *)
Definition Write (b p : list Byte.byte) : list Byte.byte := b ++ p.

(** A Go [int] is 64 bits wide, two's complement. *)
Definition wrap64 (z : Z) : Z := (z + 2 ^ 63) mod 2 ^ 64 - 2 ^ 63.

(** ** Go's [time]: what [Format(time.RFC3339Nano)] prints

    A [time.Time] is kept as what the formatter reads from it: the civil
    date and clock in the value's own location, the nanosecond within the
    second, and the zone offset in seconds east of UTC. *)

Module time.

Record Time : Type := {
  Year : Z;
  Month : Z;
  Day : Z;
  Hour : Z;
  Minute : Z;
  Second : Z;
  Nanosecond : Z;
  ZoneOffset : Z
}.

Fixpoint zeros (n : nat) : string :=
  match n with
  | O => EmptyString
  | S k => String "0" (zeros k)
  end.

(** [appendInt(b, x, width)]: the decimal form of [x], zero-padded to
    [width] digits, after a minus sign when negative. *)
Definition appendInt (x : Z) (width : nat) : string :=
  let digits := formatInt (Z.abs x) in
  (if x <? 0 then "-" else "")
    +:+ zeros (width - String.length digits) +:+ digits.

(** Dropping the trailing zeros of a digit string given in reverse. *)
Fixpoint dropZeros (rev_digits : list ascii) : list ascii :=
  match rev_digits with
  | c :: rest => if Ascii.eqb c "0" then dropZeros rest else rev_digits
  | [] => []
  end.

(** [appendNano] for the layout [.999999999]: nothing for a whole
    second, else a dot and nine digits without their trailing zeros. *)
Definition appendNano (nanosec : Z) : string :=
  if nanosec =? 0 then ""
  else
    String "."
      (string_of_list_ascii
         (rev (dropZeros (rev (list_ascii_of_string (appendInt nanosec 9)))))).

(** The zone of RFC 3339: [Z] for UTC, else a signed [hh:mm]. *)
Definition appendZone (offset : Z) : string :=
  if offset =? 0 then "Z"
  else
    let zone := Z.quot offset 60 in
    (if zone <? 0 then "-" else "+")
      +:+ appendInt (Z.quot (Z.abs zone) 60) 2 +:+ ":"
      +:+ appendInt (Z.rem (Z.abs zone) 60) 2.

Definition FormatRFC3339Nano (t : Time) : string :=
  appendInt (Year t) 4 +:+ "-" +:+ appendInt (Month t) 2 +:+ "-"
    +:+ appendInt (Day t) 2 +:+ "T"
    +:+ appendInt (Hour t) 2 +:+ ":" +:+ appendInt (Minute t) 2 +:+ ":"
    +:+ appendInt (Second t) 2
    +:+ appendNano (Nanosecond t) +:+ appendZone (ZoneOffset t).

End time.

(** ** marshal.go: the invalid-value error *)

(** The [interface{}] values the validator stores in an error. *)
Inductive iface : Type :=
  | IInt (z : Z)
  | IString (s : string).

Inductive errorInvalidValue : Type :=
  | InvalidValue (property : string) (value : iface).

Definition Property (e : errorInvalidValue) : string :=
  match e with InvalidValue p _ => p end.

Definition OffendingValue (e : errorInvalidValue) : iface :=
  match e with InvalidValue _ v => v end.

(** ** The message being encoded *)

(** Modelled from the spec: the declaration of the parameter type is not
    part of the sources; a parameter has the two fields the validator and
    the encoder read, a name and a value. *)
Record StructuredDataParam : Type := {
  Name : string;
  Value : string
}.

(** Modelled from the spec: the declaration of the element type is not
    part of the sources; an element has an ID and an ordered sequence of
    parameters. *)
Record StructuredDataElement : Type := {
  ID : string;
  Parameters : list StructuredDataParam
}.

(** Modelled from the spec: the declaration of the type [Message] is not
    part of the sources; its fields are those [assertValid] and
    [MarshalBinary] read: severity and facility (integers), timestamp,
    the four header strings, the structured data in encoding order, and
    the body, an opaque byte payload (Go field [Message], [Body] here). *)
Record Message : Type := {
  Severity : Z;
  Facility : Z;
  Timestamp : time.Time;
  Hostname : string;
  AppName : string;
  ProcessID : string;
  MessageID : string;
  StructuredData : list StructuredDataElement;
  Body : list Byte.byte
}.

Definition withTimestamp (ts : time.Time) (m : Message) : Message :=
  {| Severity := Severity m; Facility := Facility m; Timestamp := ts;
     Hostname := Hostname m; AppName := AppName m; ProcessID := ProcessID m;
     MessageID := MessageID m; StructuredData := StructuredData m;
     Body := Body m |}.

Definition withStructuredData (sd : list StructuredDataElement) (m : Message)
  : Message :=
  {| Severity := Severity m; Facility := Facility m; Timestamp := Timestamp m;
     Hostname := Hostname m; AppName := AppName m; ProcessID := ProcessID m;
     MessageID := MessageID m; StructuredData := sd; Body := Body m |}.

(** ** marshal.go: the validator *)

(** The loop of [isPrintableUsASCII] over the runes of the string. *)
Fixpoint printableRunes (chs : list Z) : bool :=
  match chs with
  | [] => true
  | ch :: rest =>
      if (ch <? 33) || (ch >? 126) then false else printableRunes rest
  end.

Definition isPrintableUsASCII (s : string) : bool :=
  printableRunes (utf8.range s).

(** The loop of [isValidSdName] over the runes of the string. *)
Fixpoint sdNameRunes (chs : list Z) : bool :=
  match chs with
  | [] => true
  | ch :: rest =>
      if (ch <? 33) || (ch >? 126) then false
      else if (ch =? byteZ equals) || (ch =? byteZ rbracket) || (ch =? byteZ dquote)
      then false
      else sdNameRunes rest
  end.

Section Configuration.

(** The constant [allowLongSdNames], taken as the configuration toggle
    it stands for; the sources fix it below. *)
Variable allowLongSdNames : bool.

Definition isValidSdName (s : string) : bool :=
  if negb allowLongSdNames && (32 <? String.length s)%nat then false
  else sdNameRunes (utf8.range s).

(** The inner loop of [assertValid], over the parameters of an element. *)
Fixpoint assertValidParams (ps : list StructuredDataParam)
  : option errorInvalidValue :=
  match ps with
  | [] => None
  | sdParam :: rest =>
      if negb (isValidSdName (Name sdParam)) then
        Some (InvalidValue "StructuredData/Name" (IString (Name sdParam)))
      else if negb (utf8.ValidString (Value sdParam)) then
        Some (InvalidValue "StructuredData/Value" (IString (Value sdParam)))
      else assertValidParams rest
  end.

(** The outer loop of [assertValid], over the elements. *)
Fixpoint assertValidElements (es : list StructuredDataElement)
  : option errorInvalidValue :=
  match es with
  | [] => None
  | sdElement :: rest =>
      if negb (isValidSdName (ID sdElement)) then
        Some (InvalidValue "StructuredData/ID" (IString (ID sdElement)))
      else
        match assertValidParams (Parameters sdElement) with
        | Some err => Some err
        | None => assertValidElements rest
        end
  end.

(** [assertValid]: [None] is Go's [nil] error. *)
Definition assertValid (m : Message) : option errorInvalidValue :=
  if (Severity m <? 0) || (Severity m >? 8) then
    Some (InvalidValue "Severity" (IInt (Severity m)))
  else if (Facility m <? 0) || (Facility m >? 23) then
    Some (InvalidValue "Facility" (IInt (Facility m)))
  else if negb (isPrintableUsASCII (Hostname m)) then
    Some (InvalidValue "Hostname" (IString (Hostname m)))
  else if (255 <? String.length (Hostname m))%nat then
    Some (InvalidValue "Hostname" (IString (Hostname m)))
  else if negb (isPrintableUsASCII (AppName m)) then
    Some (InvalidValue "AppName" (IString (AppName m)))
  else if (48 <? String.length (AppName m))%nat then
    Some (InvalidValue "AppName" (IString (AppName m)))
  else if negb (isPrintableUsASCII (ProcessID m)) then
    Some (InvalidValue "ProcessID" (IString (ProcessID m)))
  else if (128 <? String.length (ProcessID m))%nat then
    Some (InvalidValue "ProcessID" (IString (ProcessID m)))
  else if negb (isPrintableUsASCII (MessageID m)) then
    Some (InvalidValue "MessageID" (IString (MessageID m)))
  else if (32 <? String.length (MessageID m))%nat then
    Some (InvalidValue "MessageID" (IString (MessageID m)))
  else assertValidElements (StructuredData m).

(** ** marshal.go: the encoder *)

(** The inner loop of [MarshalBinary]: one [Fprintf] per parameter. *)
Fixpoint writeParams (b : list Byte.byte) (ps : list StructuredDataParam)
  : outcome (list Byte.byte) :=
  match ps with
  | [] => Done b
  | sdParam :: rest =>
      let! v := escapeSDParam (Value sdParam) in
      writeParams
        (Fprint b (" " +:+ Name sdParam +:+ "=" +:+ dq +:+ v +:+ dq)) rest
  end.

(** The outer loop of [MarshalBinary], over the elements. *)
Fixpoint writeElements (b : list Byte.byte) (es : list StructuredDataElement)
  : outcome (list Byte.byte) :=
  match es with
  | [] => Done b
  | sdElement :: rest =>
      let b1 := Fprint b ("[" +:+ ID sdElement) in
      let! b2 := writeParams b1 (Parameters sdElement) in
      writeElements (Fprint b2 "]") rest
  end.

(** The value printed as PRI: [m.Severity|m.Facility<<3]. *)
Definition priority (m : Message) : Z :=
  Z.lor (Severity m) (wrap64 (Z.shiftl (Facility m) 3)).

(** [MarshalBinary]: the pair Go returns, the bytes ([nil] is the empty
    list) and the error ([nil] is [None]). *)
Definition MarshalBinary (m : Message)
  : outcome (list Byte.byte * option errorInvalidValue) :=
  match assertValid m with
  | Some err => Done ([], Some err)
  | None =>
      let b := [] in
      let b :=
        Fprint b
          ("<" +:+ formatInt (priority m) +:+ ">1 "
           +:+ time.FormatRFC3339Nano (Timestamp m) +:+ " "
           +:+ nilify (Hostname m) +:+ " "
           +:+ nilify (AppName m) +:+ " "
           +:+ nilify (ProcessID m) +:+ " "
           +:+ nilify (MessageID m) +:+ " ") in
      let b :=
        if (length (StructuredData m) =? 0)%nat then Fprint b "-" else b in
      let! b := writeElements b (StructuredData m) in
      let b :=
        if (0 <? length (Body m))%nat then Write (Fprint b " ") (Body m)
        else b in
      Done (b, None)
  end.

End Configuration.

(** marshal.go, line 12: [const allowLongSdNames = true]. *)
Definition allowLongSdNames : bool := true.

(** ** Go's [reflect], [strings] and [regexp] as reflect.go uses them *)

Module reflect.

(** A field of a struct type: its name, the package path (empty for an
    exported field) and the value [Tag.Get] returns for the key [log]. *)
Record StructField : Type := {
  Name : string;
  PkgPath : string;
  Tag : string
}.

(** A struct type: [Ident] stands for the identity of the type (two
    types of different packages may share a name and a field list),
    [TypeName] is what [t.Name()] returns, [Fields] what [t.Field(i)]
    returns for [i] below [t.NumField()]. Go's [==] on types is
    equality of these values. *)
Record Type_ : Type := {
  Ident : positive;
  TypeName : string;
  Fields : list StructField
}.

End reflect.

#[global] Instance StructField_eq_dec : EqDecision reflect.StructField.
Proof. solve_decision. Defined.

#[global] Instance Type_eq_dec : EqDecision reflect.Type_.
Proof. solve_decision. Defined.

Module strings.

(** [strings.Split(s, sep)] for a one-byte separator: always at least
    one part. *)
Fixpoint Split (s : string) (sep : ascii) : list string :=
  match s with
  | EmptyString => [EmptyString]
  | String c s' =>
      if Ascii.eqb c sep then EmptyString :: Split s' sep
      else
        match Split s' sep with
        | part :: parts => String c part :: parts
        | [] => [String c EmptyString]
        end
  end.

(** [strings.ToLower] on a string of one byte: an upper-case ASCII
    letter is lowered, any other ASCII byte is kept, and a byte from
    0x80 on, which is no UTF-8 on its own, comes out as the encoding
    of U+FFFD. *)
Definition ToLower1 (c : ascii) : string :=
  let b := byteZ c in
  if b <? utf8.RuneSelf then
    if (65 <=? b) && (b <=? 90) then
      String (ascii_of_N (Z.to_N (b + 32))) EmptyString
    else String c EmptyString
  else String "239" (String "191" (String "189" EmptyString)).

End strings.

Module regexp.

(** The class [\d]. *)
Definition isDigit (c : ascii) : bool :=
  (48 <=? byteZ c) && (byteZ c <=? 57).

(** The class [\S]: anything but tab, newline, form feed, carriage
    return and space. *)
Definition isNonSpace (c : ascii) : bool :=
  negb ((byteZ c =? 9) || (byteZ c =? 10) || (byteZ c =? 12)
        || (byteZ c =? 13) || (byteZ c =? 32)).

(** What [.] matches: anything but a newline. *)
Definition isDot (c : ascii) : bool := negb (byteZ c =? 10).

(** The longest prefix of [s] in the class [p], and what follows it. *)
Fixpoint span (p : ascii -> bool) (s : string) : string * string :=
  match s with
  | EmptyString => (EmptyString, EmptyString)
  | String c s' =>
      if p c then let '(a, b) := span p s' in (String c a, b)
      else (EmptyString, s)
  end.

End regexp.

(** [sdRegexp.FindAllStringSubmatch(s, -1)]. The pattern reads: start of
    text; group 1, one or more [\d], an at-sign, one or more [\S];
    optionally group 2, a space followed by group 3, any run of [.]; end
    of text. It is anchored at both ends, so there is at most one match;
    [Some] holds its submatches, the whole match first, an empty string
    for a group that took no part. The digits are the longest run (an
    at-sign must follow them), the token after the at-sign is the longest
    run without white space (the end or a space must follow it), and the
    rest after that space may hold no newline. *)
Definition sdRegexp (s : string) : option (list string) :=
  let '(digits, r1) := regexp.span regexp.isDigit s in
  if String.eqb digits "" then None
  else
    match r1 with
    | String c r2 =>
        if negb (Ascii.eqb c "@") then None
        else
          let '(token, r3) := regexp.span regexp.isNonSpace r2 in
          if String.eqb token "" then None
          else
            let g1 := digits +:+ "@" +:+ token in
            match r3 with
            | EmptyString => Some [s; g1; EmptyString; EmptyString]
            | String sp rest =>
                if Ascii.eqb sp " "
                   && forallb regexp.isDot (list_ascii_of_string rest)
                then Some [s; g1; String sp rest; rest]
                else None
            end
    | EmptyString => None
    end.

(** ** reflect.go *)

Definition defaultStructuredDataID : string := "0@local".

Record structuredDataFieldReflection : Type := {
  FieldIndex : Z;
  OmitEmpty : bool;
  FieldName : string;
  SdID : string
}.

Record reflection : Type := {
  Type_ : reflect.Type_;
  SeverityFieldIndex : Z;
  SeverityDefault : Z;
  FacilityFieldIndex : Z;
  FacilityDefault : Z;
  TimestampFieldIndex : Z;
  HostnameFieldIndex : Z;
  AppNameFieldIndex : Z;
  AppNameDefault : string;
  ProcessIDFieldIndex : Z;
  MessageIDFieldIndex : Z;
  MessageIDDefault : string;
  MessageFieldIndex : Z;
  SDIDDefault : string;
  StructuredDataFieldReflections : list structuredDataFieldReflection
}.

(** Assignments to one field of the reflection under construction. *)

Definition set_Type_ (v : reflect.Type_) (r : reflection) : reflection :=
  {| Type_ := v; SeverityFieldIndex := SeverityFieldIndex r;
     SeverityDefault := SeverityDefault r;
     FacilityFieldIndex := FacilityFieldIndex r;
     FacilityDefault := FacilityDefault r;
     TimestampFieldIndex := TimestampFieldIndex r;
     HostnameFieldIndex := HostnameFieldIndex r;
     AppNameFieldIndex := AppNameFieldIndex r;
     AppNameDefault := AppNameDefault r;
     ProcessIDFieldIndex := ProcessIDFieldIndex r;
     MessageIDFieldIndex := MessageIDFieldIndex r;
     MessageIDDefault := MessageIDDefault r;
     MessageFieldIndex := MessageFieldIndex r; SDIDDefault := SDIDDefault r;
     StructuredDataFieldReflections := StructuredDataFieldReflections r |}.

Definition set_SeverityFieldIndex (v : Z) (r : reflection) : reflection :=
  {| Type_ := Type_ r; SeverityFieldIndex := v;
     SeverityDefault := SeverityDefault r;
     FacilityFieldIndex := FacilityFieldIndex r;
     FacilityDefault := FacilityDefault r;
     TimestampFieldIndex := TimestampFieldIndex r;
     HostnameFieldIndex := HostnameFieldIndex r;
     AppNameFieldIndex := AppNameFieldIndex r;
     AppNameDefault := AppNameDefault r;
     ProcessIDFieldIndex := ProcessIDFieldIndex r;
     MessageIDFieldIndex := MessageIDFieldIndex r;
     MessageIDDefault := MessageIDDefault r;
     MessageFieldIndex := MessageFieldIndex r; SDIDDefault := SDIDDefault r;
     StructuredDataFieldReflections := StructuredDataFieldReflections r |}.

Definition set_SeverityDefault (v : Z) (r : reflection) : reflection :=
  {| Type_ := Type_ r; SeverityFieldIndex := SeverityFieldIndex r;
     SeverityDefault := v; FacilityFieldIndex := FacilityFieldIndex r;
     FacilityDefault := FacilityDefault r;
     TimestampFieldIndex := TimestampFieldIndex r;
     HostnameFieldIndex := HostnameFieldIndex r;
     AppNameFieldIndex := AppNameFieldIndex r;
     AppNameDefault := AppNameDefault r;
     ProcessIDFieldIndex := ProcessIDFieldIndex r;
     MessageIDFieldIndex := MessageIDFieldIndex r;
     MessageIDDefault := MessageIDDefault r;
     MessageFieldIndex := MessageFieldIndex r; SDIDDefault := SDIDDefault r;
     StructuredDataFieldReflections := StructuredDataFieldReflections r |}.

Definition set_FacilityFieldIndex (v : Z) (r : reflection) : reflection :=
  {| Type_ := Type_ r; SeverityFieldIndex := SeverityFieldIndex r;
     SeverityDefault := SeverityDefault r; FacilityFieldIndex := v;
     FacilityDefault := FacilityDefault r;
     TimestampFieldIndex := TimestampFieldIndex r;
     HostnameFieldIndex := HostnameFieldIndex r;
     AppNameFieldIndex := AppNameFieldIndex r;
     AppNameDefault := AppNameDefault r;
     ProcessIDFieldIndex := ProcessIDFieldIndex r;
     MessageIDFieldIndex := MessageIDFieldIndex r;
     MessageIDDefault := MessageIDDefault r;
     MessageFieldIndex := MessageFieldIndex r; SDIDDefault := SDIDDefault r;
     StructuredDataFieldReflections := StructuredDataFieldReflections r |}.

Definition set_FacilityDefault (v : Z) (r : reflection) : reflection :=
  {| Type_ := Type_ r; SeverityFieldIndex := SeverityFieldIndex r;
     SeverityDefault := SeverityDefault r;
     FacilityFieldIndex := FacilityFieldIndex r; FacilityDefault := v;
     TimestampFieldIndex := TimestampFieldIndex r;
     HostnameFieldIndex := HostnameFieldIndex r;
     AppNameFieldIndex := AppNameFieldIndex r;
     AppNameDefault := AppNameDefault r;
     ProcessIDFieldIndex := ProcessIDFieldIndex r;
     MessageIDFieldIndex := MessageIDFieldIndex r;
     MessageIDDefault := MessageIDDefault r;
     MessageFieldIndex := MessageFieldIndex r; SDIDDefault := SDIDDefault r;
     StructuredDataFieldReflections := StructuredDataFieldReflections r |}.

Definition set_TimestampFieldIndex (v : Z) (r : reflection) : reflection :=
  {| Type_ := Type_ r; SeverityFieldIndex := SeverityFieldIndex r;
     SeverityDefault := SeverityDefault r;
     FacilityFieldIndex := FacilityFieldIndex r;
     FacilityDefault := FacilityDefault r; TimestampFieldIndex := v;
     HostnameFieldIndex := HostnameFieldIndex r;
     AppNameFieldIndex := AppNameFieldIndex r;
     AppNameDefault := AppNameDefault r;
     ProcessIDFieldIndex := ProcessIDFieldIndex r;
     MessageIDFieldIndex := MessageIDFieldIndex r;
     MessageIDDefault := MessageIDDefault r;
     MessageFieldIndex := MessageFieldIndex r; SDIDDefault := SDIDDefault r;
     StructuredDataFieldReflections := StructuredDataFieldReflections r |}.

Definition set_HostnameFieldIndex (v : Z) (r : reflection) : reflection :=
  {| Type_ := Type_ r; SeverityFieldIndex := SeverityFieldIndex r;
     SeverityDefault := SeverityDefault r;
     FacilityFieldIndex := FacilityFieldIndex r;
     FacilityDefault := FacilityDefault r;
     TimestampFieldIndex := TimestampFieldIndex r; HostnameFieldIndex := v;
     AppNameFieldIndex := AppNameFieldIndex r;
     AppNameDefault := AppNameDefault r;
     ProcessIDFieldIndex := ProcessIDFieldIndex r;
     MessageIDFieldIndex := MessageIDFieldIndex r;
     MessageIDDefault := MessageIDDefault r;
     MessageFieldIndex := MessageFieldIndex r; SDIDDefault := SDIDDefault r;
     StructuredDataFieldReflections := StructuredDataFieldReflections r |}.

Definition set_AppNameFieldIndex (v : Z) (r : reflection) : reflection :=
  {| Type_ := Type_ r; SeverityFieldIndex := SeverityFieldIndex r;
     SeverityDefault := SeverityDefault r;
     FacilityFieldIndex := FacilityFieldIndex r;
     FacilityDefault := FacilityDefault r;
     TimestampFieldIndex := TimestampFieldIndex r;
     HostnameFieldIndex := HostnameFieldIndex r; AppNameFieldIndex := v;
     AppNameDefault := AppNameDefault r;
     ProcessIDFieldIndex := ProcessIDFieldIndex r;
     MessageIDFieldIndex := MessageIDFieldIndex r;
     MessageIDDefault := MessageIDDefault r;
     MessageFieldIndex := MessageFieldIndex r; SDIDDefault := SDIDDefault r;
     StructuredDataFieldReflections := StructuredDataFieldReflections r |}.

Definition set_AppNameDefault (v : string) (r : reflection) : reflection :=
  {| Type_ := Type_ r; SeverityFieldIndex := SeverityFieldIndex r;
     SeverityDefault := SeverityDefault r;
     FacilityFieldIndex := FacilityFieldIndex r;
     FacilityDefault := FacilityDefault r;
     TimestampFieldIndex := TimestampFieldIndex r;
     HostnameFieldIndex := HostnameFieldIndex r;
     AppNameFieldIndex := AppNameFieldIndex r; AppNameDefault := v;
     ProcessIDFieldIndex := ProcessIDFieldIndex r;
     MessageIDFieldIndex := MessageIDFieldIndex r;
     MessageIDDefault := MessageIDDefault r;
     MessageFieldIndex := MessageFieldIndex r; SDIDDefault := SDIDDefault r;
     StructuredDataFieldReflections := StructuredDataFieldReflections r |}.

Definition set_ProcessIDFieldIndex (v : Z) (r : reflection) : reflection :=
  {| Type_ := Type_ r; SeverityFieldIndex := SeverityFieldIndex r;
     SeverityDefault := SeverityDefault r;
     FacilityFieldIndex := FacilityFieldIndex r;
     FacilityDefault := FacilityDefault r;
     TimestampFieldIndex := TimestampFieldIndex r;
     HostnameFieldIndex := HostnameFieldIndex r;
     AppNameFieldIndex := AppNameFieldIndex r;
     AppNameDefault := AppNameDefault r; ProcessIDFieldIndex := v;
     MessageIDFieldIndex := MessageIDFieldIndex r;
     MessageIDDefault := MessageIDDefault r;
     MessageFieldIndex := MessageFieldIndex r; SDIDDefault := SDIDDefault r;
     StructuredDataFieldReflections := StructuredDataFieldReflections r |}.

Definition set_MessageIDFieldIndex (v : Z) (r : reflection) : reflection :=
  {| Type_ := Type_ r; SeverityFieldIndex := SeverityFieldIndex r;
     SeverityDefault := SeverityDefault r;
     FacilityFieldIndex := FacilityFieldIndex r;
     FacilityDefault := FacilityDefault r;
     TimestampFieldIndex := TimestampFieldIndex r;
     HostnameFieldIndex := HostnameFieldIndex r;
     AppNameFieldIndex := AppNameFieldIndex r;
     AppNameDefault := AppNameDefault r;
     ProcessIDFieldIndex := ProcessIDFieldIndex r; MessageIDFieldIndex := v;
     MessageIDDefault := MessageIDDefault r;
     MessageFieldIndex := MessageFieldIndex r; SDIDDefault := SDIDDefault r;
     StructuredDataFieldReflections := StructuredDataFieldReflections r |}.

Definition set_MessageIDDefault (v : string) (r : reflection) : reflection :=
  {| Type_ := Type_ r; SeverityFieldIndex := SeverityFieldIndex r;
     SeverityDefault := SeverityDefault r;
     FacilityFieldIndex := FacilityFieldIndex r;
     FacilityDefault := FacilityDefault r;
     TimestampFieldIndex := TimestampFieldIndex r;
     HostnameFieldIndex := HostnameFieldIndex r;
     AppNameFieldIndex := AppNameFieldIndex r;
     AppNameDefault := AppNameDefault r;
     ProcessIDFieldIndex := ProcessIDFieldIndex r;
     MessageIDFieldIndex := MessageIDFieldIndex r; MessageIDDefault := v;
     MessageFieldIndex := MessageFieldIndex r; SDIDDefault := SDIDDefault r;
     StructuredDataFieldReflections := StructuredDataFieldReflections r |}.

Definition set_MessageFieldIndex (v : Z) (r : reflection) : reflection :=
  {| Type_ := Type_ r; SeverityFieldIndex := SeverityFieldIndex r;
     SeverityDefault := SeverityDefault r;
     FacilityFieldIndex := FacilityFieldIndex r;
     FacilityDefault := FacilityDefault r;
     TimestampFieldIndex := TimestampFieldIndex r;
     HostnameFieldIndex := HostnameFieldIndex r;
     AppNameFieldIndex := AppNameFieldIndex r;
     AppNameDefault := AppNameDefault r;
     ProcessIDFieldIndex := ProcessIDFieldIndex r;
     MessageIDFieldIndex := MessageIDFieldIndex r;
     MessageIDDefault := MessageIDDefault r; MessageFieldIndex := v;
     SDIDDefault := SDIDDefault r;
     StructuredDataFieldReflections := StructuredDataFieldReflections r |}.

Definition set_SDIDDefault (v : string) (r : reflection) : reflection :=
  {| Type_ := Type_ r; SeverityFieldIndex := SeverityFieldIndex r;
     SeverityDefault := SeverityDefault r;
     FacilityFieldIndex := FacilityFieldIndex r;
     FacilityDefault := FacilityDefault r;
     TimestampFieldIndex := TimestampFieldIndex r;
     HostnameFieldIndex := HostnameFieldIndex r;
     AppNameFieldIndex := AppNameFieldIndex r;
     AppNameDefault := AppNameDefault r;
     ProcessIDFieldIndex := ProcessIDFieldIndex r;
     MessageIDFieldIndex := MessageIDFieldIndex r;
     MessageIDDefault := MessageIDDefault r;
     MessageFieldIndex := MessageFieldIndex r; SDIDDefault := v;
     StructuredDataFieldReflections := StructuredDataFieldReflections r |}.

Definition set_StructuredDataFieldReflections (v : list structuredDataFieldReflection) (r : reflection) : reflection :=
  {| Type_ := Type_ r; SeverityFieldIndex := SeverityFieldIndex r;
     SeverityDefault := SeverityDefault r;
     FacilityFieldIndex := FacilityFieldIndex r;
     FacilityDefault := FacilityDefault r;
     TimestampFieldIndex := TimestampFieldIndex r;
     HostnameFieldIndex := HostnameFieldIndex r;
     AppNameFieldIndex := AppNameFieldIndex r;
     AppNameDefault := AppNameDefault r;
     ProcessIDFieldIndex := ProcessIDFieldIndex r;
     MessageIDFieldIndex := MessageIDFieldIndex r;
     MessageIDDefault := MessageIDDefault r;
     MessageFieldIndex := MessageFieldIndex r; SDIDDefault := SDIDDefault r;
     StructuredDataFieldReflections := v |}.

(** [parts[i]] on a slice of strings: a Go panic when [i] is out of range. *)
Definition submatch (m : list string) (i : nat) : outcome string :=
  match m !! i with
  | Some g => Done g
  | None => Panic "runtime error: index out of range"
  end.

(** [strings.ToLower(field.Name[0:1]) + field.Name[1:]]: slicing an
    empty name is a Go panic. *)
Definition lowerFirst (name : string) : outcome string :=
  match name with
  | String c rest => Done (strings.ToLower1 c +:+ rest)
  | EmptyString => Panic "runtime error: slice bounds out of range"
  end.

Section Registration.

(** The tables and constants of the package that are declared outside
    the two source files, and the executable name the process was
    started under. *)
Variable severityNames : gmap string Z.
Variable facilityNames : gmap string Z.
Variable Info : Z.
Variable Local0 : Z.
Variable defaultAppName : string.

Definition defaultSeverity : Z := Info.
Definition defaultFacility : Z := Local0.

(** The loop over [tagParts[1:]]; the switch inside it is on
    [tagParts[1]], whatever the attribute the loop is at. *)
Fixpoint tagAttrs (t : reflect.Type_) (field : reflect.StructField)
    (tagParts : list string) (attrs : list string)
    (fieldReflection : structuredDataFieldReflection)
  : outcome structuredDataFieldReflection :=
  match attrs with
  | [] => Done fieldReflection
  | tagAttr :: rest =>
      match tagParts !! 1%nat with
      | Some selector =>
          if String.eqb selector "omitempty" then
            tagAttrs t field tagParts rest
              {| FieldIndex := FieldIndex fieldReflection;
                 OmitEmpty := true;
                 FieldName := FieldName fieldReflection;
                 SdID := SdID fieldReflection |}
          else
            Panic ("unknown tag " +:+ tagAttr +:+ " on field "
                   +:+ reflect.Name field +:+ " of " +:+ reflect.TypeName t)
      | None => Panic "runtime error: index out of range"
      end
  end.

(** The [default] case of the switch on the field name: a message or a
    structured-data field. *)
Definition reflectOther (t : reflect.Type_) (fieldIndex : Z)
    (field : reflect.StructField) (r : reflection) : outcome reflection :=
  let fieldTag := reflect.Tag field in
  if String.eqb fieldTag "" && negb (String.eqb (reflect.PkgPath field) "")
  then Done r
  else
    let tagParts := strings.Split fieldTag "," in
    if (1 <? length tagParts)%nat
       && String.eqb (default EmptyString (tagParts !! 0%nat)) ""
       && String.eqb (default EmptyString (tagParts !! 1%nat)) "message"
    then Done (set_MessageFieldIndex fieldIndex r)
    else
      let! fieldName := submatch tagParts 0 in
      let sdID :=
        if negb (String.eqb (SDIDDefault r) "") then SDIDDefault r
        else defaultStructuredDataID in
      let! '(sdID, fieldName) :=
        match sdRegexp fieldName with
        | Some m =>
            let! g1 := submatch m 1 in
            let! g3 := submatch m 3 in
            Done (g1, g3)
        | None => Done (sdID, fieldName)
        end in
      let! fieldName :=
        if String.eqb fieldName "" then lowerFirst (reflect.Name field)
        else Done fieldName in
      let fieldReflection :=
        {| FieldIndex := fieldIndex; OmitEmpty := false;
           FieldName := fieldName; SdID := sdID |} in
      let! fieldReflection :=
        if (1 <? length tagParts)%nat then
          tagAttrs t field tagParts (drop 1 tagParts) fieldReflection
        else Done fieldReflection in
      Done (set_StructuredDataFieldReflections
              (StructuredDataFieldReflections r ++ [fieldReflection]) r).

(** The body of the loop over the fields: the switch on the field name. *)
Definition reflectField (t : reflect.Type_) (fieldIndex : Z)
    (field : reflect.StructField) (r : reflection) : outcome reflection :=
  let fieldTag := reflect.Tag field in
  let name := reflect.Name field in
  if String.eqb name "Severity" then
    let r := set_SeverityFieldIndex fieldIndex r in
    if negb (String.eqb fieldTag "") then
      match severityNames !! fieldTag with
      | Some severity => Done (set_SeverityDefault severity r)
      | None => Panic "invalid tag on Severity field"
      end
    else Done r
  else if String.eqb name "Facility" then
    let r := set_FacilityFieldIndex fieldIndex r in
    if negb (String.eqb fieldTag "") then
      match facilityNames !! fieldTag with
      | Some facility => Done (set_FacilityDefault facility r)
      | None => Panic "invalid tag on Facility field"
      end
    else Done r
  else if String.eqb name "Timestamp" then
    Done (set_TimestampFieldIndex fieldIndex r)
  else if String.eqb name "Hostname" then
    Done (set_HostnameFieldIndex fieldIndex r)
  else if String.eqb name "AppName" then
    let r := set_AppNameFieldIndex fieldIndex r in
    if negb (String.eqb fieldTag "") then Done (set_AppNameDefault fieldTag r)
    else Done r
  else if String.eqb name "ProcessID" then
    Done (set_ProcessIDFieldIndex fieldIndex r)
  else if String.eqb name "MessageID" then
    let r := set_MessageIDFieldIndex fieldIndex r in
    if negb (String.eqb fieldTag "") then
      Done (set_MessageIDDefault fieldTag r)
    else Done r
  else if String.eqb name "SDID" then
    if negb (String.eqb fieldTag "") then Done (set_SDIDDefault fieldTag r)
    else Done r
  else if String.eqb name "Message" then
    Done (set_MessageFieldIndex fieldIndex r)
  else reflectOther t fieldIndex field r.

(** [for fieldIndex := 0; fieldIndex < t.NumField(); fieldIndex++],
    entered at [fieldIndex] with the fields from there on. *)
Fixpoint reflectFields (t : reflect.Type_) (fieldIndex : Z)
    (fields : list reflect.StructField) (r : reflection)
  : outcome reflection :=
  match fields with
  | [] => Done r
  | field :: rest =>
      let! r' := reflectField t fieldIndex field r in
      reflectFields t (fieldIndex + 1) rest r'
  end.

Definition reflectImpl (t : reflect.Type_) : outcome reflection :=
  let r :=
    {| Type_ := t;
       SeverityFieldIndex := -1;
       SeverityDefault := defaultSeverity;
       FacilityFieldIndex := -1;
       FacilityDefault := defaultFacility;
       TimestampFieldIndex := -1;
       HostnameFieldIndex := -1;
       AppNameFieldIndex := -1;
       AppNameDefault := defaultAppName;
       ProcessIDFieldIndex := -1;
       MessageIDFieldIndex := -1;
       MessageIDDefault := reflect.TypeName t;
       MessageFieldIndex := -1;
       SDIDDefault := EmptyString;
       StructuredDataFieldReflections := [] |} in
  reflectFields t 0 (reflect.Fields t) r.

(** The loop of [Reflect] over the cached list for the name of [t]. *)
Fixpoint findReflection (reflectionList : list reflection) (t : reflect.Type_)
  : option reflection :=
  match reflectionList with
  | [] => None
  | r :: rest =>
      if decide (Type_ r = t) then Some r else findReflection rest t
  end.

(** [Reflect], with the package variable [reflectionCache] passed in
    and out. A panic of [reflectImpl] leaves the cache as it was. *)
Definition Reflect (t : reflect.Type_)
    (reflectionCache : gmap string (list reflection))
  : outcome reflection * gmap string (list reflection) :=
  match reflectionCache !! reflect.TypeName t with
  | None =>
      match reflectImpl t with
      | Done r => (Done r, <[reflect.TypeName t := [r]]> reflectionCache)
      | Panic msg => (Panic msg, reflectionCache)
      end
  | Some reflectionList =>
      match findReflection reflectionList t with
      | Some r => (Done r, reflectionCache)
      | None =>
          match reflectImpl t with
          | Done r =>
              (Done r,
               <[reflect.TypeName t := reflectionList ++ [r]]> reflectionCache)
          | Panic msg => (Panic msg, reflectionCache)
          end
      end
  end.

(** The cache after [Reflect] has been called on each type of [ts] in
    turn, starting from the empty cache the package is initialised with. *)
Fixpoint cacheAfter (ts : list reflect.Type_)
    (reflectionCache : gmap string (list reflection))
  : gmap string (list reflection) :=
  match ts with
  | [] => reflectionCache
  | t :: rest => cacheAfter rest (snd (Reflect t reflectionCache))
  end.

(** Every cached reflection is the one [reflectImpl] computes for its
    type. *)
Definition cacheSound (reflectionCache : gmap string (list reflection))
  : Prop :=
  forall name l r,
    reflectionCache !! name = Some l -> In r l ->
    reflectImpl (Type_ r) = Done r.

End Registration.

(** ** The validation rules, in the words of the specification *)

(** Printable US-ASCII: the codes 33 to 126. *)
Definition printableByte (c : ascii) : bool :=
  (33 <=? byteZ c) && (byteZ c <=? 126).

(** A header field is empty or printable US-ASCII, within its ceiling. *)
Definition headerRule (ceiling : nat) (s : string) : bool :=
  forallb printableByte (list_ascii_of_string s)
  && (String.length s <=? ceiling)%nat.

Definition sdNameByte (c : ascii) : bool :=
  printableByte c
  && negb (Ascii.eqb c equals || Ascii.eqb c rbracket || Ascii.eqb c dquote).

(** The sd-name rule: printable US-ASCII without the equals sign, the
    closing bracket and the double quote, and no longer than 32 unless
    the toggle allows long names. *)
Definition sdNameRule (allowLong : bool) (s : string) : bool :=
  forallb sdNameByte (list_ascii_of_string s)
  && (allowLong || (String.length s <=? 32)%nat).

Definition paramRule (allowLong : bool) (p : StructuredDataParam) : bool :=
  sdNameRule allowLong (Name p) && utf8.ValidString (Value p).

Definition elementRule (allowLong : bool) (e : StructuredDataElement) : bool :=
  sdNameRule allowLong (ID e) && forallb (paramRule allowLong) (Parameters e).

Definition satisfiesRules (allowLong : bool) (m : Message) : bool :=
  (0 <=? Severity m) && (Severity m <=? 8)
  && (0 <=? Facility m) && (Facility m <=? 23)
  && headerRule 255 (Hostname m)
  && headerRule 48 (AppName m)
  && headerRule 128 (ProcessID m)
  && headerRule 32 (MessageID m)
  && forallb (elementRule allowLong) (StructuredData m).

(** The error [e] names a property of [m] that breaks its rule, and
    carries the value of that property. *)
Definition offends (allowLong : bool) (m : Message) (e : errorInvalidValue)
  : Prop :=
  (e = InvalidValue "Severity" (IInt (Severity m))
   /\ (Severity m < 0 \/ 8 < Severity m))
  \/ (e = InvalidValue "Facility" (IInt (Facility m))
      /\ (Facility m < 0 \/ 23 < Facility m))
  \/ (e = InvalidValue "Hostname" (IString (Hostname m))
      /\ headerRule 255 (Hostname m) = false)
  \/ (e = InvalidValue "AppName" (IString (AppName m))
      /\ headerRule 48 (AppName m) = false)
  \/ (e = InvalidValue "ProcessID" (IString (ProcessID m))
      /\ headerRule 128 (ProcessID m) = false)
  \/ (e = InvalidValue "MessageID" (IString (MessageID m))
      /\ headerRule 32 (MessageID m) = false)
  \/ (exists el, In el (StructuredData m)
      /\ e = InvalidValue "StructuredData/ID" (IString (ID el))
      /\ sdNameRule allowLong (ID el) = false)
  \/ (exists el p, In el (StructuredData m) /\ In p (Parameters el)
      /\ e = InvalidValue "StructuredData/Name" (IString (Name p))
      /\ sdNameRule allowLong (Name p) = false)
  \/ (exists el p, In el (StructuredData m) /\ In p (Parameters el)
      /\ e = InvalidValue "StructuredData/Value" (IString (Value p))
      /\ utf8.ValidString (Value p) = false).

(** The element IDs and parameter names of a message. *)
Definition sdNames (m : Message) : list string :=
  flat_map (fun el => ID el :: map Name (Parameters el)) (StructuredData m).

(** ** The wire format, in the words of the specification *)

(** A hyphen for an empty value, else the value. *)
Definition orNil (s : string) : string :=
  match s with
  | EmptyString => "-"
  | _ => s
  end.

Definition renderParam (p : StructuredDataParam) : string :=
  " " +:+ Name p +:+ "=" +:+ dq +:+ escaped (Value p) +:+ dq.

Definition renderElement (e : StructuredDataElement) : string :=
  "[" +:+ ID e +:+ String.concat "" (map renderParam (Parameters e)) +:+ "]".

Definition renderElements (sd : list StructuredDataElement) : string :=
  String.concat "" (map renderElement sd).

Definition renderStructuredData (sd : list StructuredDataElement) : string :=
  match sd with
  | [] => "-"
  | _ => renderElements sd
  end.

(** The header up to the space that follows MSGID. *)
Definition wirePrefix (m : Message) : string :=
  "<" +:+ formatInt (Z.lor (Severity m) (Z.shiftl (Facility m) 3)) +:+ ">1 "
  +:+ time.FormatRFC3339Nano (Timestamp m) +:+ " "
  +:+ orNil (Hostname m) +:+ " "
  +:+ orNil (AppName m) +:+ " "
  +:+ orNil (ProcessID m) +:+ " "
  +:+ orNil (MessageID m) +:+ " ".

(** The message body after one space, or nothing at all when it is empty. *)
Definition wireBody (m : Message) : list Byte.byte :=
  match Body m with
  | [] => []
  | _ => list_byte_of_string " " ++ Body m
  end.

Definition wireFormat (m : Message) : list Byte.byte :=
  list_byte_of_string (wirePrefix m +:+ renderStructuredData (StructuredData m))
  ++ wireBody m.

(** Reading a string of decimal digits. *)
Definition digitValue (c : ascii) : option Z :=
  if (48 <=? byteZ c) && (byteZ c <=? 57) then Some (byteZ c - 48) else None.

Fixpoint readDecimal (s : string) (acc : Z) : option Z :=
  match s with
  | EmptyString => Some acc
  | String c s' =>
      match digitValue c with
      | Some d => readDecimal s' (10 * acc + d)
      | None => None
      end
  end.

(** [s] is the decimal rendering of [z] with no leading zero. *)
Definition canonicalDecimal (s : string) (z : Z) : bool :=
  match s with
  | EmptyString => false
  | String c s' =>
      (negb (Ascii.eqb c "0") || String.eqb s' "")
      && match readDecimal s 0 with
         | Some v => v =? z
         | None => false
         end
  end.

(** ** The examples of the specification *)

Definition exampleTimestamp : time.Time :=
  {| time.Year := 2003; time.Month := 10; time.Day := 11;
     time.Hour := 22; time.Minute := 14; time.Second := 15;
     time.Nanosecond := 3000000; time.ZoneOffset := 0 |}.

Definition exampleWith (body : list Byte.byte) : Message :=
  {| Severity := 2; Facility := 4; Timestamp := exampleTimestamp;
     Hostname := "mymachine.example.com"; AppName := "su";
     ProcessID := ""; MessageID := "ID47"; StructuredData := [];
     Body := body |}.

Definition exampleMessage : Message :=
  exampleWith (list_byte_of_string "'su root' failed for lonvick on /dev/pts/8").

(** An element with an empty ID and no parameter, and one whose single
    parameter has an empty name. *)
Definition emptyIDElement : StructuredDataElement :=
  {| ID := ""; Parameters := [] |}.

Definition emptyNameElement (v : string) : StructuredDataElement :=
  {| ID := ""; Parameters := [ {| Name := ""; Value := v |} ] |}.

(** A message whose only element has an ID of 33 bytes. *)
Definition longName : string := "aaaaaaaaaaaaaaaaaaaaaaaaaaaaaaaaa".

Definition longIDMessage : Message :=
  withStructuredData [ {| ID := longName; Parameters := [] |} ] exampleMessage.

(** A record type with one field, tagged with [omitempty] followed by
    an attribute that does not exist. *)
Definition bogusField : reflect.StructField :=
  {| reflect.Name := "Foo"; reflect.PkgPath := "";
     reflect.Tag := "name,omitempty,bogus" |}.

Definition bogusType : reflect.Type_ :=
  {| reflect.Ident := 1; reflect.TypeName := "Rec";
     reflect.Fields := [bogusField] |}.

(** Another type with the name and the fields of [t]. *)
Definition sameDeclaration (t : reflect.Type_) : reflect.Type_ :=
  {| reflect.Ident := Pos.succ (reflect.Ident t);
     reflect.TypeName := reflect.TypeName t;
     reflect.Fields := reflect.Fields t |}.

(** The descriptors are in declaration order: their field indices
    increase strictly and lie between [lo] and [hi]. *)
Fixpoint inOrder (lo hi : Z) (indices : list Z) : bool :=
  match indices with
  | [] => true
  | i :: rest => (lo <=? i) && (i <? hi) && inOrder (i + 1) hi rest
  end.

Definition declarationOrder (t : reflect.Type_) (r : reflection) : bool :=
  inOrder 0 (Z.of_nat (length (reflect.Fields t)))
    (map FieldIndex (StructuredDataFieldReflections r)).

(** ** reflect.go: [GetStructuredDataFieldReflection] *)

(** The loop over the descriptors: the first one whose element ID and
    parameter name are the ones asked for. *)
Fixpoint findFieldReflection (l : list structuredDataFieldReflection)
    (sdID fieldName : string) : option structuredDataFieldReflection :=
  match l with
  | [] => None
  | fieldReflection :: rest =>
      if String.eqb (SdID fieldReflection) sdID
         && String.eqb (FieldName fieldReflection) fieldName
      then Some fieldReflection
      else findFieldReflection rest sdID fieldName
  end.

(** [GetStructuredDataFieldReflection]: [None] is Go's [nil]; the pointer
    Go returns is to a copy of the descriptor, so a value is returned. *)
Definition GetStructuredDataFieldReflection (r : reflection)
    (sdID fieldName : string) : option structuredDataFieldReflection :=
  findFieldReflection (StructuredDataFieldReflections r) sdID fieldName.

(** ** Vocabulary of the further properties *)

(** A string in which a backslash is always followed by a reserved byte,
    and a reserved byte is always after such a backslash. *)
Fixpoint wellEscaped (s : string) : bool :=
  match s with
  | EmptyString => true
  | String c s' =>
      if Ascii.eqb c backslash then
        match s' with
        | String d s'' => isReserved d && wellEscaped s''
        | EmptyString => false
        end
      else negb (isReserved c) && wellEscaped s'
  end.

Definition withHeaders (hostname appName processID messageID : string)
    (m : Message) : Message :=
  {| Severity := Severity m; Facility := Facility m;
     Timestamp := Timestamp m;
     Hostname := hostname; AppName := appName; ProcessID := processID;
     MessageID := messageID; StructuredData := StructuredData m;
     Body := Body m |}.

(** The field names the switch of [reflectImpl] has a case for. *)
Definition isRoleName (name : string) : bool :=
  String.eqb name "Severity" || String.eqb name "Facility"
  || String.eqb name "Timestamp" || String.eqb name "Hostname"
  || String.eqb name "AppName" || String.eqb name "ProcessID"
  || String.eqb name "MessageID" || String.eqb name "SDID"
  || String.eqb name "Message".

(** A tag of the form [,message...]: an empty name and [message] as the
    first attribute. *)
Definition isMessageTag (tag : string) : bool :=
  match strings.Split tag "," with
  | part0 :: part1 :: _ => String.eqb part0 "" && String.eqb part1 "message"
  | _ => false
  end.

(** The test of [reflectImpl] for a field it passes over: no tag and
    not exported. *)
Definition isSkipped (field : reflect.StructField) : bool :=
  String.eqb (reflect.Tag field) ""
  && negb (String.eqb (reflect.PkgPath field) "").

(** The fields that become structured-data parameters: not a role, not
    an untagged unexported field, not tagged as the message. *)
Definition isStructuredDataField (field : reflect.StructField) : bool :=
  negb (isRoleName (reflect.Name field))
  && negb (isSkipped field)
  && negb (isMessageTag (reflect.Tag field)).

(** The fields that can supply the message body: the one named
    [Message], and any other field tagged as the message. *)
Definition isMessageField (field : reflect.StructField) : bool :=
  String.eqb (reflect.Name field) "Message"
  || (negb (isRoleName (reflect.Name field))
      && negb (isSkipped field)
      && isMessageTag (reflect.Tag field)).

Definition hasName (name : string) (field : reflect.StructField) : bool :=
  String.eqb (reflect.Name field) name.

(** The indices, counted from [i], of the fields that satisfy [p]. *)
Fixpoint indicesWhere (p : reflect.StructField -> bool) (i : Z)
    (fields : list reflect.StructField) : list Z :=
  match fields with
  | [] => []
  | field :: rest =>
      if p field then i :: indicesWhere p (i + 1) rest
      else indicesWhere p (i + 1) rest
  end.

(** The index, counted from [i], of the last field that satisfies [p];
    [found] when there is none. *)
Fixpoint lastIndexWhere (p : reflect.StructField -> bool) (i : Z)
    (fields : list reflect.StructField) (found : Z) : Z :=
  match fields with
  | [] => found
  | field :: rest =>
      lastIndexWhere p (i + 1) rest (if p field then i else found)
  end.

(** The tag of the last field called [name] that has a tag; [current]
    when there is none. *)
Fixpoint lastTagOf (name : string) (fields : list reflect.StructField)
    (current : string) : string :=
  match fields with
  | [] => current
  | field :: rest =>
      lastTagOf name rest
        (if hasName name field && negb (String.eqb (reflect.Tag field) "")
         then reflect.Tag field else current)
  end.

(** The parts of the tag of a field, and what its first part gives. *)
Definition tagParts (field : reflect.StructField) : list string :=
  strings.Split (reflect.Tag field) ",".

Definition tagNamePart (field : reflect.StructField) : string :=
  default EmptyString (tagParts field !! 0%nat).

Definition tagSdID (field : reflect.StructField) : option string :=
  match sdRegexp (tagNamePart field) with
  | Some m => m !! 1%nat
  | None => None
  end.

Definition tagFieldName (field : reflect.StructField) : string :=
  match sdRegexp (tagNamePart field) with
  | Some m => default EmptyString (m !! 3%nat)
  | None => tagNamePart field
  end.

(** The name of a field with its first byte lowered. *)
Definition derivedName (name : string) : string :=
  match name with
  | String c rest => strings.ToLower1 c +:+ rest
  | EmptyString => EmptyString
  end.

(** The element ID a descriptor gets when its tag names none, given the
    tag of the [SDID] field in force. *)
Definition sdIDInForce (sdidDefault : string) : string :=
  if negb (String.eqb sdidDefault "") then sdidDefault
  else defaultStructuredDataID.

(** The descriptor of a structured-data field at index [i]. *)
Definition descriptorOf (sdidDefault : string) (i : Z)
    (field : reflect.StructField) : structuredDataFieldReflection :=
  {| FieldIndex := i;
     OmitEmpty := (1 <? length (tagParts field))%nat;
     FieldName :=
       if String.eqb (tagFieldName field) "" then
         derivedName (reflect.Name field)
       else tagFieldName field;
     SdID :=
       match tagSdID field with
       | Some id => id
       | None => sdIDInForce sdidDefault
       end |}.

(** The descriptors of the structured-data fields among [fields], the
    first of which has index [i], when the tag of the [SDID] field in
    force before them is [sdidDefault]. *)
Fixpoint descriptorsOf (sdidDefault : string) (i : Z)
    (fields : list reflect.StructField)
  : list structuredDataFieldReflection :=
  match fields with
  | [] => []
  | field :: rest =>
      (if isStructuredDataField field
       then [descriptorOf sdidDefault i field] else [])
      ++ descriptorsOf
           (if hasName "SDID" field
               && negb (String.eqb (reflect.Tag field) "")
            then reflect.Tag field else sdidDefault)
           (i + 1) rest
  end.

(** The attributes of a tag the switch of [reflectImpl] lets through:
    none, or [omitempty] as the first one. *)
Definition attributesAccepted (field : reflect.StructField) : bool :=
  negb (1 <? length (tagParts field))%nat
  || String.eqb (default EmptyString (tagParts field !! 1%nat)) "omitempty".

(** A parameter name can be had: from the tag, or from a field name
    that is not empty. *)
Definition nameAvailable (field : reflect.StructField) : bool :=
  negb (String.eqb (tagFieldName field) "")
  || negb (String.eqb (reflect.Name field) "").

Definition inTable (table : gmap string Z) (key : string) : bool :=
  match table !! key with
  | Some _ => true
  | None => false
  end.

(** The fields [reflectImpl] registers without a panic. *)
Definition registrable (severityNames facilityNames : gmap string Z)
    (field : reflect.StructField) : bool :=
  if String.eqb (reflect.Name field) "Severity" then
    String.eqb (reflect.Tag field) "" || inTable severityNames (reflect.Tag field)
  else if String.eqb (reflect.Name field) "Facility" then
    String.eqb (reflect.Tag field) "" || inTable facilityNames (reflect.Tag field)
  else if isRoleName (reflect.Name field) then true
  else if isSkipped field then true
  else if isMessageTag (reflect.Tag field) then true
  else nameAvailable field && attributesAccepted field.

Definition withBody (body : list Byte.byte) (m : Message) : Message :=
  {| Severity := Severity m; Facility := Facility m;
     Timestamp := Timestamp m; Hostname := Hostname m;
     AppName := AppName m; ProcessID := ProcessID m;
     MessageID := MessageID m; StructuredData := StructuredData m;
     Body := body |}.

(** [idx] is -1 when no field satisfies [p], else the index of the last
    field that does. *)
Definition isLastIndexOf (p : reflect.StructField -> bool)
    (fields : list reflect.StructField) (idx : Z) : Prop :=
  (idx = -1 /\ Forall (fun field => p field = false) fields)
  \/ (exists pre field post,
         fields = pre ++ field :: post
         /\ idx = Z.of_nat (length pre)
         /\ p field = true
         /\ Forall (fun other => p other = false) post).

(** Every byte of [s] is in the class [p]. *)
Definition allBytes (p : ascii -> bool) (s : string) : bool :=
  forallb p (list_ascii_of_string s).

(** A descriptor for the element [sdID] and the parameter [fieldName]. *)
Definition hasKey (sdID fieldName : string)
    (fieldReflection : structuredDataFieldReflection) : Prop :=
  SdID fieldReflection = sdID /\ FieldName fieldReflection = fieldName.

(** Every list of the cache is under the name of the types of its
    reflections, is not empty, and holds a type once. *)
Definition cacheKeyed (reflectionCache : gmap string (list reflection))
  : Prop :=
  forall name l,
    reflectionCache !! name = Some l ->
    l <> []
    /\ Forall (fun r => reflect.TypeName (Type_ r) = name) l
    /\ NoDup (map Type_ l).

(** ** A record type for the examples *)

(** A type with a tagged Severity field, an untagged exported field, an
    [SDID] field, two tagged fields after it, a field tagged as the
    message, and an unexported field. *)
Definition eventFields : list reflect.StructField :=
  [ {| reflect.Name := "Severity"; reflect.PkgPath := "";
       reflect.Tag := "crit" |};
    {| reflect.Name := "User"; reflect.PkgPath := ""; reflect.Tag := "" |};
    {| reflect.Name := "SDID"; reflect.PkgPath := "";
       reflect.Tag := "7@example" |};
    {| reflect.Name := "Path"; reflect.PkgPath := "";
       reflect.Tag := "path,omitempty" |};
    {| reflect.Name := "Code"; reflect.PkgPath := "";
       reflect.Tag := "9@other code" |};
    {| reflect.Name := "Text"; reflect.PkgPath := "";
       reflect.Tag := ",message" |};
    {| reflect.Name := "hidden"; reflect.PkgPath := "example";
       reflect.Tag := "" |} ].

Definition eventType : reflect.Type_ :=
  {| reflect.Ident := 2; reflect.TypeName := "Event";
     reflect.Fields := eventFields |}.

Definition eventSeverityNames : gmap string Z := {[ "crit" := 2 ]}.

Definition eventPath : structuredDataFieldReflection :=
  {| FieldIndex := 3; OmitEmpty := true; FieldName := "path";
     SdID := "7@example" |}.

(** What [reflectImpl] gives for [eventType] when [crit] is severity 2
    and the defaults are 6, 16 and [app]. *)
Definition eventReflection : reflection :=
  {| Type_ := eventType;
     SeverityFieldIndex := 0; SeverityDefault := 2;
     FacilityFieldIndex := -1; FacilityDefault := 16;
     TimestampFieldIndex := -1; HostnameFieldIndex := -1;
     AppNameFieldIndex := -1; AppNameDefault := "app";
     ProcessIDFieldIndex := -1;
     MessageIDFieldIndex := -1; MessageIDDefault := "Event";
     MessageFieldIndex := 5;
     SDIDDefault := "7@example";
     StructuredDataFieldReflections :=
       [ {| FieldIndex := 1; OmitEmpty := false; FieldName := "user";
            SdID := "0@local" |};
         eventPath;
         {| FieldIndex := 4; OmitEmpty := false; FieldName := "code";
            SdID := "9@other" |} ] |}.

(** * Proofs *)

(** ** Proofs about the escaper *)

Lemma countEscapes_acc (s : string) (n : nat) :
  countEscapes s n = (n + countEscapes s 0)%nat.
Proof.
  revert n. induction s as [|c s IH]; intros n; simpl.
  - lia.
  - destruct (isReserved c).
    + rewrite (IH (S n)), (IH 1%nat). lia.
    + apply IH.
Qed.

Lemma length_escaped (s : string) :
  String.length (escaped s) = (String.length s + countEscapes s 0)%nat.
Proof.
  induction s as [|c s IH]; simpl; [reflexivity|].
  destruct (isReserved c); simpl; rewrite IH.
  - rewrite (countEscapes_acc s 1). lia.
  - reflexivity.
Qed.

Lemma store_middle (pre post : list ascii) (old c : ascii) :
  store (pre ++ old :: post) (length pre) c = Done (pre ++ c :: post).
Proof.
  unfold store.
  assert (H : (length pre <? length (pre ++ old :: post))%nat = true).
  { apply Nat.ltb_lt. rewrite length_app. simpl. lia. }
  rewrite H. f_equal.
  replace (length pre) with (length pre + 0)%nat at 1 by lia.
  rewrite insert_app_r. reflexivity.
Qed.

(** The fill loop overwrites exactly the window it was sized for. *)
Lemma fillEscaped_window (s : string) :
  forall (pre mid post : list ascii),
    length mid = String.length (escaped s) ->
    fillEscaped s (pre ++ mid ++ post) (length pre)
    = Done (pre ++ list_ascii_of_string (escaped s) ++ post).
Proof.
  induction s as [|c s IH]; intros pre mid post Hlen; simpl in *.
  - destruct mid; [reflexivity | discriminate].
  - destruct (isReserved c); simpl in Hlen.
    + destruct mid as [|m1 [|m2 mid]]; try discriminate.
      simpl. rewrite store_middle. simpl.
      replace (pre ++ backslash :: m2 :: mid ++ post)
        with ((pre ++ [backslash]) ++ m2 :: mid ++ post)
        by (rewrite <- app_assoc; reflexivity).
      replace (length pre + 1)%nat with (length (pre ++ [backslash]))
        by (rewrite length_app; reflexivity).
      rewrite store_middle. simpl.
      replace ((pre ++ [backslash]) ++ c :: mid ++ post)
        with ((pre ++ [backslash; c]) ++ mid ++ post)
        by (rewrite <- !app_assoc; reflexivity).
      replace (length pre + 2)%nat with (length (pre ++ [backslash; c]))
        by (rewrite !length_app; simpl; lia).
      rewrite IH by (injection Hlen; auto).
      rewrite <- app_assoc. reflexivity.
    + destruct mid as [|m1 mid]; try discriminate.
      simpl. rewrite store_middle. simpl.
      replace (pre ++ c :: mid ++ post) with ((pre ++ [c]) ++ mid ++ post)
        by (rewrite <- app_assoc; reflexivity).
      replace (length pre + 1)%nat with (length (pre ++ [c]))
        by (rewrite length_app; reflexivity).
      rewrite IH by (injection Hlen; auto).
      rewrite <- app_assoc. reflexivity.
Qed.

Lemma escaped_noReserved (s : string) :
  countEscapes s 0 = 0%nat -> escaped s = s.
Proof.
  induction s as [|c s IH]; simpl; [reflexivity|].
  destruct (isReserved c).
  - rewrite countEscapes_acc. discriminate.
  - intros H. rewrite IH by assumption. reflexivity.
Qed.

Lemma countEscapes_noReserved (s : string) :
  noReserved s = true -> countEscapes s 0 = 0%nat.
Proof.
  unfold noReserved. induction s as [|c s IH]; simpl; [reflexivity|].
  destruct (isReserved c); simpl; [discriminate | exact IH].
Qed.

(** The escaper never panics and computes [escaped]. *)
Lemma escapeSDParam_escaped (s : string) :
  escapeSDParam s = Done (escaped s).
Proof.
  unfold escapeSDParam.
  destruct (countEscapes s 0 =? 0)%nat eqn:E.
  - apply Nat.eqb_eq in E. rewrite escaped_noReserved by assumption. reflexivity.
  - pose proof (fillEscaped_window s []
                  (replicate (String.length s + countEscapes s 0) zero) []) as W.
    simpl in W. rewrite app_nil_r in W.
    rewrite W by (rewrite length_replicate, length_escaped; reflexivity).
    simpl. rewrite app_nil_r, string_of_list_ascii_of_string. reflexivity.
Qed.

Lemma unescape_escaped (s : string) : unescape (escaped s) = s.
Proof.
  induction s as [|c s IH]; simpl; [reflexivity|].
  destruct (isReserved c) eqn:R.
  - simpl. rewrite R, IH. reflexivity.
  - assert (B : Ascii.eqb c backslash = false).
    { unfold isReserved in R. destruct (Ascii.eqb c backslash); [discriminate | reflexivity]. }
    simpl. rewrite B, IH. reflexivity.
Qed.

(** ** Proofs about decoding *)

Lemma byteZ_range (c : ascii) : 0 <= byteZ c < 256.
Proof.
  unfold byteZ. pose proof (N_ascii_bounded c) as H. lia.
Qed.

Lemma lor_lower (a b : Z) : 0 <= b -> a <= Z.lor a b.
Proof.
  intros Hb. pose proof (Z.sub_lor_l_same_l b a) as H.
  assert (0 <= Z.land b (Z.lnot a)) by (apply Z.land_nonneg; left; exact Hb).
  lia.
Qed.

Lemma byteAt_range (s : string) (i : nat) : 0 <= utf8.byteAt s i < 256.
Proof.
  unfold utf8.byteAt. destruct (String.get i s); [apply byteZ_range | lia].
Qed.

Lemma decode_ascii (c : ascii) (s : string) :
  byteZ c < 128 -> utf8.DecodeRuneInString (String c s) = (byteZ c, 1%nat).
Proof.
  intros H. pose proof (byteZ_range c) as R.
  unfold utf8.DecodeRuneInString.
  assert (L : (Z.of_nat (String.length (String c s)) <? 1) = false).
  { apply Z.ltb_ge. simpl String.length. lia. }
  rewrite L. unfold utf8.byteAt. simpl String.get.
  unfold utf8.first.
  assert (F : (byteZ c <? 128) = true) by (apply Z.ltb_lt; exact H).
  rewrite F. 
  change (utf8.as_ <=? utf8.as_) with true. cbv iota.
  change (Z.shiftr (utf8.wrap32 (Z.shiftl utf8.as_ 31)) 31) with 0.
  rewrite Z.ldiff_0_r, Z.land_0_r, Z.lor_0_r. reflexivity.
Qed.

Lemma lor_ge_l (k a b : Z) : 0 <= b -> k <= a -> k <= Z.lor a b.
Proof. intros Hb Hk. pose proof (lor_lower a b Hb). lia. Qed.

Lemma lor_ge_r (k a b : Z) : 0 <= a -> k <= b -> k <= Z.lor a b.
Proof. intros Ha Hk. rewrite Z.lor_comm. apply lor_ge_l; assumption. Qed.

Ltac bits_nonneg :=
  repeat first
    [ apply Z.lor_nonneg; split
    | apply Z.shiftl_nonneg
    | apply Z.land_nonneg; right; lia ].

Ltac shifted_bound :=
  rewrite Z.shiftl_mul_pow2 by lia;
  match goal with
  | |- context [Z.land ?b 31] => change 31 with (Z.ones 5)
  | |- context [Z.land ?b 15] => change 15 with (Z.ones 4)
  | |- context [Z.land ?b 7] => change 7 with (Z.ones 3)
  | |- context [Z.land ?b 63] => change 63 with (Z.ones 6)
  end;
  rewrite Z.land_ones by lia;
  Z.div_mod_to_equations; lia.

Ltac rune_bound :=
  first
    [ shifted_bound
    | apply lor_ge_l; [bits_nonneg | rune_bound]
    | apply lor_ge_r; [bits_nonneg | rune_bound] ].

Lemma decode_nonascii (c : ascii) (s : string) :
  128 <= byteZ c -> 128 <= fst (utf8.DecodeRuneInString (String c s)).
Proof.
  intros H. pose proof (byteZ_range c) as R.
  pose proof (byteAt_range (String c s) 1) as R1.
  pose proof (byteAt_range (String c s) 2) as R2.
  pose proof (byteAt_range (String c s) 3) as R3.
  unfold utf8.DecodeRuneInString.
  assert (L : (Z.of_nat (String.length (String c s)) <? 1) = false).
  { apply Z.ltb_ge. simpl String.length. lia. }
  rewrite L.
  replace (utf8.byteAt (String c s) 0) with (byteZ c) by reflexivity.
  generalize dependent (utf8.byteAt (String c s) 1). intros b1 R1.
  generalize dependent (utf8.byteAt (String c s) 2). intros b2 R2.
  generalize dependent (utf8.byteAt (String c s) 3). intros b3 R3.
  generalize (Z.of_nat (String.length (String c s))). intros n. clear L.
  generalize dependent (byteZ c). intros b0 H R.
  unfold utf8.first.
  repeat match goal with
  | |- context [Z.ltb b0 ?y] => destruct (Z.ltb_spec b0 y); try lia
  | |- context [Z.eqb b0 ?y] => destruct (Z.eqb_spec b0 y); try lia
  end.
  all: repeat match goal with
       | |- context [utf8.acceptRanges ?a] =>
           let v := eval vm_compute in (utf8.acceptRanges a) in
           change (utf8.acceptRanges a) with v
       | |- context [Z.leb utf8.as_ ?x] =>
           let v := eval vm_compute in (Z.leb utf8.as_ x) in
           change (Z.leb utf8.as_ x) with v
       | |- context [Z.shiftr (utf8.wrap32 ?a) 31] =>
           let v := eval vm_compute in (Z.shiftr (utf8.wrap32 a) 31) in
           change (Z.shiftr (utf8.wrap32 a) 31) with v
       | |- context [Z.land ?x 7] =>
           tryif is_var x then fail else
             let v := eval vm_compute in (Z.land x 7) in
             change (Z.land x 7) with v
       end.
  all: repeat match goal with
       | |- context [Z.leb ?a ?b] =>
           let v := eval vm_compute in (Z.leb a b) in
           change (Z.leb a b) with v
       end.
  all: cbv beta iota; cbn [fst snd].
  all: unfold utf8.RuneError, utf8.locb, utf8.hicb,
         utf8.mask2, utf8.mask3, utf8.mask4, utf8.maskx.
  all: try (rewrite Z.ldiff_m1_r, Z.land_m1_r, Z.lor_0_l; lia).
  all: repeat match goal with
       | |- context [Z.ltb ?x ?y] =>
           destruct (Z.ltb_spec x y); cbn [orb fst]
       end.
  all: try lia.
  all: rune_bound.
Qed.

Lemma byteZ_eqb (c d : ascii) : (byteZ c =? byteZ d) = Ascii.eqb c d.
Proof.
  destruct (Ascii.eqb_spec c d) as [->|Hne].
  - apply Z.eqb_refl.
  - apply Z.eqb_neq. intros E. apply Hne. unfold byteZ in E.
    apply N2Z.inj in E.
    rewrite <- (ascii_N_embedding c), <- (ascii_N_embedding d), E.
    reflexivity.
Qed.

Lemma range_cons_ascii (c : ascii) (s : string) :
  byteZ c < 128 -> utf8.range (String c s) = byteZ c :: utf8.range s.
Proof.
  intros H. unfold utf8.range. cbn [utf8.rangeFrom].
  rewrite decode_ascii by exact H. reflexivity.
Qed.

Lemma range_cons_nonascii (c : ascii) (s : string) :
  128 <= byteZ c ->
  exists ch rest, utf8.range (String c s) = ch :: rest /\ 128 <= ch.
Proof.
  intros H. unfold utf8.range. cbn [utf8.rangeFrom].
  pose proof (decode_nonascii c s H) as B.
  destruct (utf8.DecodeRuneInString (String c s)) as [ch width].
  exists ch, (utf8.rangeFrom (width - 1) s). split; [reflexivity | exact B].
Qed.

Lemma range_check (lo hi z : Z) :
  (z <? lo) || (z >? hi) = negb ((lo <=? z) && (z <=? hi)).
Proof.
  rewrite Z.gtb_ltb.
  destruct (Z.ltb_spec z lo), (Z.ltb_spec hi z),
    (Z.leb_spec lo z), (Z.leb_spec z hi); simpl; try reflexivity; lia.
Qed.

Lemma ceiling_check (n k : nat) : (k <? n)%nat = negb (n <=? k)%nat.
Proof.
  destruct (Nat.ltb_spec k n), (Nat.leb_spec n k); simpl; try reflexivity; lia.
Qed.

(** The rune loop of [isPrintableUsASCII] decides the rule on bytes. *)
Lemma isPrintableUsASCII_bytes (s : string) :
  isPrintableUsASCII s = forallb printableByte (list_ascii_of_string s).
Proof.
  unfold isPrintableUsASCII.
  induction s as [|c s IH]; [reflexivity|].
  cbn [list_ascii_of_string forallb]. unfold printableByte at 1.
  destruct (Z.lt_ge_cases (byteZ c) 128) as [A|A].
  - rewrite range_cons_ascii by exact A. cbn [printableRunes].
    rewrite range_check, IH.
    destruct ((33 <=? byteZ c) && (byteZ c <=? 126)); reflexivity.
  - destruct (range_cons_nonascii c s A) as (ch & rest & -> & B).
    cbn [printableRunes]. rewrite range_check.
    replace (byteZ c <=? 126) with false by (symmetry; apply Z.leb_gt; lia).
    replace (ch <=? 126) with false by (symmetry; apply Z.leb_gt; lia).
    rewrite !andb_false_r. reflexivity.
Qed.

(** The rune loop of [isValidSdName] decides the rule on bytes. *)
Lemma sdNameRunes_bytes (s : string) :
  sdNameRunes (utf8.range s) = forallb sdNameByte (list_ascii_of_string s).
Proof.
  induction s as [|c s IH]; [reflexivity|].
  cbn [list_ascii_of_string forallb]. unfold sdNameByte at 1, printableByte.
  destruct (Z.lt_ge_cases (byteZ c) 128) as [A|A].
  - rewrite range_cons_ascii by exact A. cbn [sdNameRunes].
    rewrite range_check, IH, !byteZ_eqb.
    destruct ((33 <=? byteZ c) && (byteZ c <=? 126)); cbn [negb andb];
      [|reflexivity].
    destruct (Ascii.eqb c equals || Ascii.eqb c rbracket || Ascii.eqb c dquote);
      reflexivity.
  - destruct (range_cons_nonascii c s A) as (ch & rest & -> & B).
    cbn [sdNameRunes]. rewrite range_check.
    replace (byteZ c <=? 126) with false by (symmetry; apply Z.leb_gt; lia).
    replace (ch <=? 126) with false by (symmetry; apply Z.leb_gt; lia).
    rewrite !andb_false_r. reflexivity.
Qed.

Lemma isValidSdName_rule (allowLong : bool) (s : string) :
  isValidSdName allowLong s = sdNameRule allowLong s.
Proof.
  unfold isValidSdName, sdNameRule.
  rewrite sdNameRunes_bytes, ceiling_check.
  destruct allowLong, (String.length s <=? 32)%nat,
    (forallb sdNameByte (list_ascii_of_string s)); reflexivity.
Qed.

Lemma header_checks (ceiling : nat) (s : string) :
  negb (isPrintableUsASCII s) || (ceiling <? String.length s)%nat
  = negb (headerRule ceiling s).
Proof.
  unfold headerRule. rewrite isPrintableUsASCII_bytes, ceiling_check.
  destruct (forallb printableByte (list_ascii_of_string s)),
    (String.length s <=? ceiling)%nat; reflexivity.
Qed.

(** *** The loops over the structured data *)

Lemma assertValidParams_None (allowLong : bool) (ps : list StructuredDataParam) :
  assertValidParams allowLong ps = None
  <-> forallb (paramRule allowLong) ps = true.
Proof.
  induction ps as [|p ps IH]; cbn [assertValidParams forallb]; [tauto|].
  unfold paramRule at 1. rewrite isValidSdName_rule.
  destruct (sdNameRule allowLong (Name p)); cbn [negb andb];
    [|split; discriminate].
  destruct (utf8.ValidString (Value p)); cbn [negb andb];
    [exact IH | split; discriminate].
Qed.

Lemma assertValidElements_None (allowLong : bool)
    (es : list StructuredDataElement) :
  assertValidElements allowLong es = None
  <-> forallb (elementRule allowLong) es = true.
Proof.
  induction es as [|el es IH]; cbn [assertValidElements forallb]; [tauto|].
  unfold elementRule at 1. rewrite isValidSdName_rule.
  destruct (sdNameRule allowLong (ID el)); cbn [negb andb];
    [|split; discriminate].
  pose proof (assertValidParams_None allowLong (Parameters el)) as P.
  destruct (assertValidParams allowLong (Parameters el)) as [err|].
  - destruct (forallb (paramRule allowLong) (Parameters el)); cbn [andb].
    + destruct P as [_ P]. specialize (P eq_refl). discriminate.
    + split; discriminate.
  - destruct P as [P _]. rewrite (P eq_refl). cbn [andb]. exact IH.
Qed.

Lemma assertValidParams_Some (allowLong : bool) (ps : list StructuredDataParam)
    (e : errorInvalidValue) :
  assertValidParams allowLong ps = Some e ->
  exists p, In p ps
    /\ ((e = InvalidValue "StructuredData/Name" (IString (Name p))
         /\ sdNameRule allowLong (Name p) = false)
        \/ (e = InvalidValue "StructuredData/Value" (IString (Value p))
            /\ utf8.ValidString (Value p) = false)).
Proof.
  induction ps as [|p ps IH]; cbn [assertValidParams]; [discriminate|].
  rewrite isValidSdName_rule.
  destruct (sdNameRule allowLong (Name p)) eqn:N; cbn [negb].
  - destruct (utf8.ValidString (Value p)) eqn:V; cbn [negb].
    + intros H. destruct (IH H) as (q & Hq & Hcase).
      exists q. split; [right; exact Hq | exact Hcase].
    + intros [= <-]. exists p. split; [left; reflexivity|].
      right. split; [reflexivity | exact V].
  - intros [= <-]. exists p. split; [left; reflexivity|].
    left. split; [reflexivity | exact N].
Qed.

Lemma assertValidElements_Some (allowLong : bool)
    (es : list StructuredDataElement) (e : errorInvalidValue) :
  assertValidElements allowLong es = Some e ->
  exists el, In el es
    /\ ((e = InvalidValue "StructuredData/ID" (IString (ID el))
         /\ sdNameRule allowLong (ID el) = false)
        \/ exists p, In p (Parameters el)
             /\ ((e = InvalidValue "StructuredData/Name" (IString (Name p))
                  /\ sdNameRule allowLong (Name p) = false)
                 \/ (e = InvalidValue "StructuredData/Value" (IString (Value p))
                     /\ utf8.ValidString (Value p) = false))).
Proof.
  induction es as [|el es IH]; cbn [assertValidElements]; [discriminate|].
  rewrite isValidSdName_rule.
  destruct (sdNameRule allowLong (ID el)) eqn:N; cbn [negb].
  - destruct (assertValidParams allowLong (Parameters el)) as [err|] eqn:P.
    + intros [= <-]. exists el. split; [left; reflexivity|].
      right. apply assertValidParams_Some. exact P.
    + intros H. destruct (IH H) as (el' & Hin & Hcase).
      exists el'. split; [right; exact Hin | exact Hcase].
  - intros [= <-]. exists el. split; [left; reflexivity|].
    left. split; [reflexivity | exact N].
Qed.

(** *** The validator as a whole *)

(** [assertValid] with the two checks of each header field taken together. *)
Lemma assertValid_unfold (allowLong : bool) (m : Message) :
  assertValid allowLong m =
  if negb ((0 <=? Severity m) && (Severity m <=? 8)) then
    Some (InvalidValue "Severity" (IInt (Severity m)))
  else if negb ((0 <=? Facility m) && (Facility m <=? 23)) then
    Some (InvalidValue "Facility" (IInt (Facility m)))
  else if negb (headerRule 255 (Hostname m)) then
    Some (InvalidValue "Hostname" (IString (Hostname m)))
  else if negb (headerRule 48 (AppName m)) then
    Some (InvalidValue "AppName" (IString (AppName m)))
  else if negb (headerRule 128 (ProcessID m)) then
    Some (InvalidValue "ProcessID" (IString (ProcessID m)))
  else if negb (headerRule 32 (MessageID m)) then
    Some (InvalidValue "MessageID" (IString (MessageID m)))
  else assertValidElements allowLong (StructuredData m).
Proof.
  unfold assertValid.
  rewrite <- !header_checks, !range_check.
  repeat match goal with
  | |- context [negb (isPrintableUsASCII ?s)] =>
      destruct (isPrintableUsASCII s); cbn [negb orb]
  | |- context [if negb ?b then _ else _] => destruct b; cbn [negb]
  | |- context [if ?b then _ else _] => destruct b
  end; reflexivity.
Qed.

Lemma assertValid_None (allowLong : bool) (m : Message) :
  assertValid allowLong m = None <-> satisfiesRules allowLong m = true.
Proof.
  rewrite assertValid_unfold. unfold satisfiesRules.
  destruct (0 <=? Severity m); cbn [andb negb]; [|split; discriminate].
  destruct (Severity m <=? 8); cbn [andb negb]; [|split; discriminate].
  destruct (0 <=? Facility m); cbn [andb negb]; [|split; discriminate].
  destruct (Facility m <=? 23); cbn [andb negb]; [|split; discriminate].
  destruct (headerRule 255 (Hostname m)); cbn [andb negb]; [|split; discriminate].
  destruct (headerRule 48 (AppName m)); cbn [andb negb]; [|split; discriminate].
  destruct (headerRule 128 (ProcessID m)); cbn [andb negb]; [|split; discriminate].
  destruct (headerRule 32 (MessageID m)); cbn [andb negb]; [|split; discriminate].
  apply assertValidElements_None.
Qed.

Lemma assertValid_Some_offends (allowLong : bool) (m : Message)
    (e : errorInvalidValue) :
  assertValid allowLong m = Some e -> offends allowLong m e.
Proof.
  rewrite assertValid_unfold. unfold offends.
  destruct ((0 <=? Severity m) && (Severity m <=? 8)) eqn:S; cbn [negb].
  2:{ intros [= <-]. left. split; [reflexivity|].
      apply andb_false_iff in S. destruct S as [S|S]; apply Z.leb_gt in S; lia. }
  destruct ((0 <=? Facility m) && (Facility m <=? 23)) eqn:F; cbn [negb].
  2:{ intros [= <-]. right; left. split; [reflexivity|].
      apply andb_false_iff in F. destruct F as [F|F]; apply Z.leb_gt in F; lia. }
  destruct (headerRule 255 (Hostname m)) eqn:H1; cbn [negb].
  2:{ intros [= <-]. do 2 right; left. split; reflexivity. }
  destruct (headerRule 48 (AppName m)) eqn:H2; cbn [negb].
  2:{ intros [= <-]. do 3 right; left. split; reflexivity. }
  destruct (headerRule 128 (ProcessID m)) eqn:H3; cbn [negb].
  2:{ intros [= <-]. do 4 right; left. split; reflexivity. }
  destruct (headerRule 32 (MessageID m)) eqn:H4; cbn [negb].
  2:{ intros [= <-]. do 5 right; left. split; reflexivity. }
  intros H. apply assertValidElements_Some in H.
  destruct H as (el & Hin & [Hid | (p & Hp & [Hname | Hvalue])]).
  - do 6 right; left. exists el. tauto.
  - do 7 right; left. exists el, p. tauto.
  - do 8 right. exists el, p. tauto.
Qed.

(** ** Proofs about the encoder *)

Lemma list_byte_of_string_app (a b : string) :
  list_byte_of_string (a +:+ b)
  = list_byte_of_string a ++ list_byte_of_string b.
Proof.
  unfold list_byte_of_string.
  induction a as [|c a IH]; [reflexivity|].
  simpl. f_equal. exact IH.
Qed.

Lemma string_append_empty_r (a : string) : a +:+ "" = a.
Proof.
  induction a as [|c a IH]; [reflexivity|].
  change (String c a +:+ "") with (String c (a +:+ "")).
  rewrite IH. reflexivity.
Qed.

Lemma string_concat_cons (x : string) (xs : list string) :
  String.concat "" (x :: xs) = x +:+ String.concat "" xs.
Proof.
  destruct xs as [|y ys]; cbn [String.concat].
  - rewrite string_append_empty_r. reflexivity.
  - reflexivity.
Qed.

Lemma nilify_orNil (x : string) : nilify x = orNil x.
Proof. destruct x; reflexivity. Qed.

Lemma writeParams_render (b : list Byte.byte) (ps : list StructuredDataParam) :
  writeParams b ps
  = Done (b ++ list_byte_of_string (String.concat "" (map renderParam ps))).
Proof.
  revert b. induction ps as [|p ps IH]; intros b.
  - cbn. rewrite app_nil_r. reflexivity.
  - cbn [writeParams map]. rewrite escapeSDParam_escaped. cbn [obind].
    rewrite IH, string_concat_cons, list_byte_of_string_app.
    unfold Fprint, renderParam. rewrite <- app_assoc. reflexivity.
Qed.

Lemma writeElements_render (b : list Byte.byte)
    (es : list StructuredDataElement) :
  writeElements b es = Done (b ++ list_byte_of_string (renderElements es)).
Proof.
  unfold renderElements. revert b. induction es as [|el es IH]; intros b.
  - cbn. rewrite app_nil_r. reflexivity.
  - cbn [writeElements map]. rewrite writeParams_render. cbn [obind].
    rewrite IH, string_concat_cons. unfold Fprint, renderElement.
    rewrite !list_byte_of_string_app, <- !app_assoc. reflexivity.
Qed.

Lemma priority_in_range (m : Message) :
  0 <= Facility m <= 23 ->
  priority m = Z.lor (Severity m) (Z.shiftl (Facility m) 3).
Proof.
  intros H. unfold priority, wrap64. rewrite Z.shiftl_mul_pow2 by lia.
  rewrite Z.mod_small by lia. f_equal. lia.
Qed.

Lemma satisfiesRules_ranges (allowLong : bool) (m : Message) :
  satisfiesRules allowLong m = true ->
  0 <= Severity m <= 8 /\ 0 <= Facility m <= 23.
Proof.
  unfold satisfiesRules. rewrite !andb_true_iff, !Z.leb_le. tauto.
Qed.

(** A valid message is encoded, without a panic, as the wire format. *)
Lemma MarshalBinary_valid (allowLong : bool) (m : Message) :
  assertValid allowLong m = None ->
  MarshalBinary allowLong m = Done (wireFormat m, None).
Proof.
  intros V. unfold MarshalBinary. rewrite V.
  apply assertValid_None, satisfiesRules_ranges in V. destruct V as [_ F].
  rewrite priority_in_range by exact F.
  rewrite !nilify_orNil, writeElements_render. cbn [obind].
  unfold wireFormat, wireBody, wirePrefix, Fprint, Write,
    renderStructuredData.
  rewrite !list_byte_of_string_app.
  destruct (StructuredData m) as [|el es]; destruct (Body m) as [|c body];
    cbn [length Nat.eqb Nat.ltb Nat.leb app];
    rewrite ?list_byte_of_string_app, ?app_nil_r, <- ?app_assoc;
    reflexivity.
Qed.

(** An invalid message yields the error of the validator and no bytes. *)
Lemma MarshalBinary_invalid (allowLong : bool) (m : Message)
    (e : errorInvalidValue) :
  assertValid allowLong m = Some e ->
  MarshalBinary allowLong m = Done ([], Some e).
Proof. intros V. unfold MarshalBinary. rewrite V. reflexivity. Qed.

Lemma priority_table :
  forallb
    (fun s =>
       forallb
         (fun f =>
            let p := Z.lor (Z.of_nat s) (Z.shiftl (Z.of_nat f) 3) in
            canonicalDecimal (formatInt p) p)
         (seq 0 24))
    (seq 0 9) = true.
Proof. vm_compute. reflexivity. Qed.

(** PRI is printed in decimal, without a leading zero. *)
Lemma priority_decimal (sev fac : Z) :
  0 <= sev <= 8 -> 0 <= fac <= 23 ->
  canonicalDecimal (formatInt (Z.lor sev (Z.shiftl fac 3)))
    (Z.lor sev (Z.shiftl fac 3)) = true.
Proof.
  intros Hs Hf. pose proof priority_table as T.
  rewrite forallb_forall in T.
  specialize (T (Z.to_nat sev)). rewrite forallb_forall in T.
  specialize (fun H => T H (Z.to_nat fac)).
  cbv zeta in T. rewrite !Z2Nat.id in T by lia.
  apply T; apply in_seq; lia.
Qed.

(** ** Properties of the escaper *)

(** C5: for every string the escaper returns, without a panic, the string
    in which each backslash, double quote and closing bracket is preceded
    by a backslash and every other byte is unchanged, in order; a string
    holding none of the three bytes is returned as it is. *)
Theorem escapeSDParam_spec (s : string) :
  escapeSDParam s = Done (escaped s)
  /\ (noReserved s = true -> escapeSDParam s = Done s).
Proof.
  split; [apply escapeSDParam_escaped|].
  intros H. rewrite escapeSDParam_escaped.
  rewrite escaped_noReserved by (apply countEscapes_noReserved; exact H).
  reflexivity.
Qed.

Lemma escapeSDParam_spec_witness :
  noReserved "Application" = true
  /\ escapeSDParam "Application" = Done "Application".
Proof.
  split; [reflexivity|].
  apply (proj2 (escapeSDParam_spec "Application")). reflexivity.
Defined.

(** C6: escaping round-trips: removing each escaping backslash from the
    output of the escaper gives back the input, for every input. *)
Theorem escapeSDParam_roundtrip (s : string) :
  exists t, escapeSDParam s = Done t /\ unescape t = s.
Proof.
  exists (escaped s). split; [apply escapeSDParam_escaped | apply unescape_escaped].
Qed.

(** ** Properties of validation and encoding *)

(** C3: a message that passes validation is encoded as the bytes of
    [<PRI>1 TIMESTAMP HOST APPNAME PROCID MSGID SD], then one space and
    the body when the body is not empty; PRI is the decimal rendering of
    Severity | (Facility << 3) with no leading zero; the example of the
    specification is encoded as the specification says. *)
Theorem MarshalBinary_wire_format :
  (forall (allowLong : bool) (m : Message),
      assertValid allowLong m = None ->
      MarshalBinary allowLong m = Done (wireFormat m, None)
      /\ canonicalDecimal
           (formatInt (Z.lor (Severity m) (Z.shiftl (Facility m) 3)))
           (Z.lor (Severity m) (Z.shiftl (Facility m) 3)) = true)
  /\ (forall body : list Byte.byte,
         body <> [] ->
         MarshalBinary allowLongSdNames (exampleWith body)
         = Done
             (list_byte_of_string
                "<34>1 2003-10-11T22:14:15.003Z mymachine.example.com su - ID47 - "
              ++ body, None)).
Proof.
  split.
  - intros allowLong m V. split; [apply MarshalBinary_valid; exact V|].
    apply assertValid_None, satisfiesRules_ranges in V.
    apply priority_decimal; tauto.
  - intros body Hbody.
    rewrite MarshalBinary_valid by reflexivity.
    destruct body as [|c body]; [congruence|]. reflexivity.
Qed.

Lemma MarshalBinary_wire_format_witness :
  assertValid allowLongSdNames exampleMessage = None
  /\ MarshalBinary allowLongSdNames exampleMessage
     = Done (wireFormat exampleMessage, None)
  /\ MarshalBinary allowLongSdNames exampleMessage
     = Done
         (list_byte_of_string
            "<34>1 2003-10-11T22:14:15.003Z mymachine.example.com su - ID47 - 'su root' failed for lonvick on /dev/pts/8",
          None).
Proof.
  split; [reflexivity|]. split.
  - apply (proj1 MarshalBinary_wire_format allowLongSdNames exampleMessage).
    reflexivity.
  - apply (proj2 MarshalBinary_wire_format
             (list_byte_of_string "'su root' failed for lonvick on /dev/pts/8")).
    discriminate.
Defined.

(** C4: the encoder returns an invalid-value error exactly when the
    message breaks a validation rule; the error then names a property
    that breaks its rule and carries its value, and no bytes are
    returned. The encoder never panics. *)
Theorem MarshalBinary_error_iff_invalid (allowLong : bool) (m : Message) :
  ((exists b e, MarshalBinary allowLong m = Done (b, Some e))
   <-> satisfiesRules allowLong m = false)
  /\ (forall b e,
         MarshalBinary allowLong m = Done (b, Some e) ->
         b = [] /\ offends allowLong m e)
  /\ (exists b e, MarshalBinary allowLong m = Done (b, e)).
Proof.
  pose proof (assertValid_None allowLong m) as N.
  destruct (assertValid allowLong m) as [err|] eqn:V.
  - rewrite (MarshalBinary_invalid _ _ _ V).
    split; [|split].
    + split; [|intros _; eauto].
      intros _. destruct (satisfiesRules allowLong m); [|reflexivity].
      destruct N as [_ N]. specialize (N eq_refl). discriminate.
    + intros b e [= <- <-]. split; [reflexivity|].
      apply assertValid_Some_offends. exact V.
    + eauto.
  - rewrite (MarshalBinary_valid _ _ V).
    destruct N as [N _]. rewrite (N eq_refl).
    split; [|split].
    + split; [intros (b & e & [=]) | discriminate].
    + intros b e [=].
    + eauto.
Qed.

Lemma MarshalBinary_error_iff_invalid_witness :
  MarshalBinary false longIDMessage
  = Done ([], Some (InvalidValue "StructuredData/ID" (IString longName)))
  /\ offends false longIDMessage
       (InvalidValue "StructuredData/ID" (IString longName)).
Proof.
  split; [reflexivity|].
  apply (proj1 (proj2 (MarshalBinary_error_iff_invalid false longIDMessage)) []).
  reflexivity.
Defined.

(** C10: validation does not look at the timestamp: replacing it changes
    neither the result of [assertValid] nor the error [MarshalBinary]
    returns. *)
Theorem Timestamp_not_validated (allowLong : bool) (m : Message)
    (ts : time.Time) :
  assertValid allowLong (withTimestamp ts m) = assertValid allowLong m
  /\ exists b1 b2,
       MarshalBinary allowLong (withTimestamp ts m)
       = Done (b1, assertValid allowLong m)
       /\ MarshalBinary allowLong m = Done (b2, assertValid allowLong m).
Proof.
  assert (E : assertValid allowLong (withTimestamp ts m)
              = assertValid allowLong m) by reflexivity.
  split; [exact E|].
  destruct (assertValid allowLong m) as [err|] eqn:V.
  - exists [], []. split; apply MarshalBinary_invalid; [exact E | exact V].
  - exists (wireFormat (withTimestamp ts m)), (wireFormat m).
    split; apply MarshalBinary_valid; [exact E | exact V].
Qed.

(** ** Names in the structured data *)

Lemma string_append_assoc (a b c : string) : (a +:+ b) +:+ c = a +:+ (b +:+ c).
Proof.
  induction a as [|x a IH]; [reflexivity|].
  change (String x ((a +:+ b) +:+ c) = String x (a +:+ (b +:+ c))).
  rewrite IH. reflexivity.
Qed.

Lemma renderElements_app (a b : list StructuredDataElement) :
  renderElements (a ++ b) = renderElements a +:+ renderElements b.
Proof.
  unfold renderElements. induction a as [|el a IH]; [reflexivity|].
  cbn [app map]. rewrite !string_concat_cons, IH, string_append_assoc. reflexivity.
Qed.

Lemma renderStructuredData_insert (pre post : list StructuredDataElement)
    (el : StructuredDataElement) :
  renderStructuredData (pre ++ el :: post)
  = renderElements pre +:+ renderElement el +:+ renderElements post.
Proof.
  replace (renderStructuredData (pre ++ el :: post))
    with (renderElements (pre ++ el :: post)) by (destruct pre; reflexivity).
  rewrite renderElements_app. unfold renderElements at 2.
  cbn [map]. rewrite string_concat_cons. reflexivity.
Qed.

Lemma satisfiesRules_insert (allowLong : bool) (m : Message)
    (pre post : list StructuredDataElement) (el : StructuredDataElement) :
  elementRule allowLong el = true ->
  satisfiesRules allowLong (withStructuredData (pre ++ post) m) = true ->
  satisfiesRules allowLong (withStructuredData (pre ++ el :: post) m) = true.
Proof.
  intros Hel. unfold satisfiesRules, withStructuredData.
  cbn [Severity Facility Hostname AppName ProcessID MessageID StructuredData].
  rewrite !forallb_app. cbn [forallb]. rewrite Hel.
  rewrite !andb_true_iff. tauto.
Qed.

(** A message stays valid when an element that obeys the rules is put
    among its elements, and the element is rendered in its place. *)
Lemma MarshalBinary_insert (allowLong : bool) (m : Message)
    (pre post : list StructuredDataElement) (el : StructuredDataElement) :
  elementRule allowLong el = true ->
  assertValid allowLong (withStructuredData (pre ++ post) m) = None ->
  assertValid allowLong (withStructuredData (pre ++ el :: post) m) = None
  /\ MarshalBinary allowLong (withStructuredData (pre ++ el :: post) m)
     = Done
         (list_byte_of_string
            (wirePrefix m +:+ renderElements pre +:+ renderElement el
             +:+ renderElements post)
          ++ wireBody m, None).
Proof.
  intros Hel V.
  assert (V' : assertValid allowLong (withStructuredData (pre ++ el :: post) m)
               = None).
  { apply assertValid_None, satisfiesRules_insert; [exact Hel|].
    apply assertValid_None. exact V. }
  split; [exact V'|].
  rewrite (MarshalBinary_valid _ _ V'). unfold wireFormat.
  change (StructuredData (withStructuredData (pre ++ el :: post) m))
    with (pre ++ el :: post).
  rewrite renderStructuredData_insert. reflexivity.
Qed.

Lemma emptyIDElement_rule (allowLong : bool) :
  elementRule allowLong emptyIDElement = true.
Proof. destruct allowLong; reflexivity. Qed.

Lemma emptyNameElement_rule (allowLong : bool) (v : string) :
  utf8.ValidString v = true -> elementRule allowLong (emptyNameElement v) = true.
Proof.
  intros H. unfold elementRule, emptyNameElement, paramRule.
  cbn [ID Parameters Name Value forallb]. rewrite H.
  destruct allowLong; reflexivity.
Qed.

Lemma renderElement_emptyName (v : string) :
  renderElement (emptyNameElement v)
  = "[ =" +:+ dq +:+ escaped v +:+ dq +:+ "]".
Proof.
  unfold renderElement, emptyNameElement, renderParam.
  cbn [ID Parameters map Name Value String.concat].
  rewrite !string_append_assoc. reflexivity.
Qed.

(** C9: the empty string passes as an element ID and as a parameter
    name: a valid message stays valid when an element with an empty ID,
    or one whose parameter has an empty name, is put among its elements,
    and the encoder renders the element as an empty pair of brackets, or
    the parameter as a space, an equals sign and the quoted value. *)
Theorem empty_sd_name_accepted (allowLong : bool) (m : Message)
    (pre post : list StructuredDataElement) (v : string) :
  utf8.ValidString v = true ->
  assertValid allowLong (withStructuredData (pre ++ post) m) = None ->
  isValidSdName allowLong "" = true
  /\ assertValid allowLong
       (withStructuredData (pre ++ emptyIDElement :: post) m) = None
  /\ MarshalBinary allowLong
       (withStructuredData (pre ++ emptyIDElement :: post) m)
     = Done
         (list_byte_of_string
            (wirePrefix m +:+ renderElements pre +:+ "[]"
             +:+ renderElements post)
          ++ wireBody m, None)
  /\ assertValid allowLong
       (withStructuredData (pre ++ emptyNameElement v :: post) m) = None
  /\ MarshalBinary allowLong
       (withStructuredData (pre ++ emptyNameElement v :: post) m)
     = Done
         (list_byte_of_string
            (wirePrefix m +:+ renderElements pre
             +:+ ("[ =" +:+ dq +:+ escaped v +:+ dq +:+ "]")
             +:+ renderElements post)
          ++ wireBody m, None).
Proof.
  intros Hv V.
  split; [destruct allowLong; reflexivity|].
  destruct (MarshalBinary_insert allowLong m pre post emptyIDElement
              (emptyIDElement_rule allowLong) V) as [V1 M1].
  destruct (MarshalBinary_insert allowLong m pre post (emptyNameElement v)
              (emptyNameElement_rule allowLong v Hv) V) as [V2 M2].
  rewrite renderElement_emptyName in M2.
  split; [exact V1|]. split; [exact M1|]. split; [exact V2 | exact M2].
Qed.

Lemma empty_sd_name_accepted_witness :
  MarshalBinary allowLongSdNames
    (withStructuredData [emptyIDElement] exampleMessage)
  = Done
      (list_byte_of_string
         "<34>1 2003-10-11T22:14:15.003Z mymachine.example.com su - ID47 [] 'su root' failed for lonvick on /dev/pts/8",
       None).
Proof.
  exact (proj1 (proj2 (proj2
           (empty_sd_name_accepted allowLongSdNames exampleMessage [] [] ""
              eq_refl eq_refl)))).
Defined.

(** *** Long names under the two settings of the toggle *)

Lemma sdNameRule_strict (s : string) :
  (32 < String.length s)%nat -> sdNameRule false s = false.
Proof.
  intros H. unfold sdNameRule. cbn [orb].
  replace (String.length s <=? 32)%nat with false
    by (symmetry; apply Nat.leb_gt; exact H).
  apply andb_false_r.
Qed.

Lemma sdNameRule_only_length (s : string) :
  sdNameRule true s = true -> sdNameRule false s = false ->
  (32 < String.length s)%nat.
Proof.
  unfold sdNameRule. cbn [orb]. rewrite andb_true_r. intros ->.
  cbn [andb]. intros H. apply Nat.leb_gt. exact H.
Qed.

Lemma elementRule_long_name (el : StructuredDataElement) (name : string) :
  In name (ID el :: map Name (Parameters el)) ->
  (32 < String.length name)%nat ->
  elementRule false el = false.
Proof.
  intros [<-|Hin] Hlen; unfold elementRule.
  - rewrite sdNameRule_strict by exact Hlen. reflexivity.
  - apply andb_false_iff. right.
    apply in_map_iff in Hin. destruct Hin as (p & <- & Hp).
    destruct (forallb (paramRule false) (Parameters el)) eqn:A; [|reflexivity].
    rewrite forallb_forall in A. specialize (A p Hp).
    unfold paramRule in A. rewrite sdNameRule_strict in A by exact Hlen.
    discriminate.
Qed.

Lemma satisfiesRules_long_name (m : Message) (name : string) :
  In name (sdNames m) -> (32 < String.length name)%nat ->
  satisfiesRules false m = false.
Proof.
  intros Hin Hlen. unfold sdNames in Hin. apply in_flat_map in Hin.
  destruct Hin as (el & Hel & Hname).
  unfold satisfiesRules. apply andb_false_iff. right.
  destruct (forallb (elementRule false) (StructuredData m)) eqn:A;
    [|reflexivity].
  rewrite forallb_forall in A. specialize (A el Hel).
  rewrite (elementRule_long_name el name Hname Hlen) in A. discriminate.
Qed.

Lemma strict_params_error (ps : list StructuredDataParam)
    (e : errorInvalidValue) :
  assertValidParams true ps = None ->
  assertValidParams false ps = Some e ->
  exists long, In long (map Name ps) /\ (32 < String.length long)%nat
    /\ e = InvalidValue "StructuredData/Name" (IString long).
Proof.
  induction ps as [|p ps IH]; cbn [assertValidParams map]; [discriminate|].
  rewrite !isValidSdName_rule.
  destruct (sdNameRule true (Name p)) eqn:T; cbn [negb]; [|discriminate].
  destruct (utf8.ValidString (Value p)); cbn [negb]; [|discriminate].
  destruct (sdNameRule false (Name p)) eqn:S; cbn [negb].
  - intros P1 P2. destruct (IH P1 P2) as (long & Hin & Hlen & He).
    exists long. split; [right; exact Hin | tauto].
  - intros _ [= <-]. exists (Name p).
    split; [left; reflexivity|]. split; [|reflexivity].
    apply sdNameRule_only_length; assumption.
Qed.

Lemma strict_elements_error (es : list StructuredDataElement)
    (e : errorInvalidValue) :
  assertValidElements true es = None ->
  assertValidElements false es = Some e ->
  exists long,
    In long (flat_map (fun el => ID el :: map Name (Parameters el)) es)
    /\ (32 < String.length long)%nat
    /\ (e = InvalidValue "StructuredData/ID" (IString long)
        \/ e = InvalidValue "StructuredData/Name" (IString long)).
Proof.
  induction es as [|el es IH]; cbn [assertValidElements flat_map];
    [discriminate|].
  rewrite !isValidSdName_rule.
  destruct (sdNameRule true (ID el)) eqn:T; cbn [negb]; [|discriminate].
  destruct (assertValidParams true (Parameters el)) eqn:PT; [discriminate|].
  destruct (sdNameRule false (ID el)) eqn:S; cbn [negb].
  - destruct (assertValidParams false (Parameters el)) as [err|] eqn:PS.
    + intros _ [= <-].
      destruct (strict_params_error _ _ PT PS) as (long & Hin & Hlen & He).
      exists long. split; [|tauto].
      apply in_or_app. left. right. exact Hin.
    + intros E1 E2. destruct (IH E1 E2) as (long & Hin & Hrest).
      exists long. split; [|exact Hrest].
      apply in_or_app. right. exact Hin.
  - intros _ [= <-]. exists (ID el).
    split; [apply in_or_app; left; left; reflexivity|].
    split; [|left; reflexivity].
    apply sdNameRule_only_length; assumption.
Qed.

Lemma assertValid_elements_only (m : Message) :
  assertValid true m = None ->
  assertValid false m = assertValidElements false (StructuredData m)
  /\ assertValidElements true (StructuredData m) = None.
Proof.
  rewrite !assertValid_unfold.
  repeat match goal with
  | |- context [if negb ?b then _ else _] =>
      destruct b; cbn [negb]; [|discriminate]
  end.
  intros H. split; [reflexivity | exact H].
Qed.

(** ** The ceiling on names *)

(** C1, as the code has it: with the toggle off ([allowLongSdNames] is
    false) validation rejects every message holding an element ID or a
    parameter name longer than 32 bytes, and the encoder returns that
    error and no bytes; when nothing else is wrong with the message the
    error names StructuredData/ID or StructuredData/Name and carries a
    name longer than 32. *)
Theorem strict_rejects_long_sd_names (m : Message) (name : string) :
  In name (sdNames m) -> (32 < String.length name)%nat ->
  (exists e, assertValid false m = Some e
             /\ MarshalBinary false m = Done ([], Some e))
  /\ (assertValid true m = None ->
      exists long, In long (sdNames m) /\ (32 < String.length long)%nat
        /\ (assertValid false m
            = Some (InvalidValue "StructuredData/ID" (IString long))
            \/ assertValid false m
               = Some (InvalidValue "StructuredData/Name" (IString long)))).
Proof.
  intros Hin Hlen.
  pose proof (satisfiesRules_long_name m name Hin Hlen) as R.
  destruct (assertValid false m) as [e|] eqn:V.
  2:{ apply assertValid_None in V. congruence. }
  split.
  - exists e. split; [reflexivity | apply MarshalBinary_invalid; exact V].
  - intros P. destruct (assertValid_elements_only m P) as [E T].
    rewrite V in E. symmetry in E.
    destruct (strict_elements_error _ _ T E) as (long & Hl & Hn & [-> | ->]);
      exists long; tauto.
Qed.

Lemma strict_rejects_long_sd_names_witness :
  (exists e, assertValid false longIDMessage = Some e
             /\ MarshalBinary false longIDMessage = Done ([], Some e))
  /\ exists long,
       In long (sdNames longIDMessage) /\ (32 < String.length long)%nat
       /\ (assertValid false longIDMessage
           = Some (InvalidValue "StructuredData/ID" (IString long))
           \/ assertValid false longIDMessage
              = Some (InvalidValue "StructuredData/Name" (IString long))).
Proof.
  assert (Hin : In longName (sdNames longIDMessage)) by (left; reflexivity).
  assert (Hlen : (32 < String.length longName)%nat) by (vm_compute; lia).
  split.
  - exact (proj1 (strict_rejects_long_sd_names longIDMessage longName Hin Hlen)).
  - apply (proj2 (strict_rejects_long_sd_names longIDMessage longName Hin Hlen)).
    reflexivity.
Defined.

(** C1, as stated, fails on the code: the constant of the sources allows
    long names, and a message whose element ID has 33 bytes passes
    validation and is encoded. *)
Lemma long_sd_name_accepted :
  In longName (sdNames longIDMessage)
  /\ (32 < String.length longName)%nat
  /\ assertValid allowLongSdNames longIDMessage = None
  /\ MarshalBinary allowLongSdNames longIDMessage
     = Done (wireFormat longIDMessage, None).
Proof.
  split; [left; reflexivity|].
  split; [vm_compute; lia|].
  split; [reflexivity|].
  apply MarshalBinary_valid. reflexivity.
Qed.

(** ** Proofs about reflection *)

Lemma inOrder_weaken (lo hi hi' : Z) (l : list Z) :
  hi <= hi' -> inOrder lo hi l = true -> inOrder lo hi' l = true.
Proof.
  intros Hle. revert lo. induction l as [|x l IH]; intros lo; cbn [inOrder];
    [reflexivity|].
  rewrite !andb_true_iff, !Z.leb_le, !Z.ltb_lt.
  intros [[A B] C]. repeat split; [lia | lia | apply IH; exact C].
Qed.

Lemma inOrder_snoc (lo hi i : Z) (l : list Z) :
  lo <= i -> i < hi -> inOrder lo i l = true ->
  inOrder lo hi (l ++ [i]) = true.
Proof.
  intros Hlo Hhi. revert lo Hlo.
  induction l as [|x l IH]; intros lo Hlo; cbn [inOrder app].
  - intros _. rewrite !andb_true_iff, Z.leb_le, Z.ltb_lt. tauto.
  - rewrite !andb_true_iff, !Z.leb_le, !Z.ltb_lt.
    intros [[A B] C]. repeat split; [lia | lia | apply IH; [lia | exact C]].
Qed.

Section ReflectionProofs.

Variable severityNames : gmap string Z.
Variable facilityNames : gmap string Z.
Variable Info : Z.
Variable Local0 : Z.
Variable defaultAppName : string.

Abbreviation reflectImplE :=
  (reflectImpl severityNames facilityNames Info Local0 defaultAppName).
Abbreviation reflectFieldE := (reflectField severityNames facilityNames).
Abbreviation reflectFieldsE := (reflectFields severityNames facilityNames).
Abbreviation ReflectE :=
  (Reflect severityNames facilityNames Info Local0 defaultAppName).
Abbreviation cacheAfterE :=
  (cacheAfter severityNames facilityNames Info Local0 defaultAppName).
Abbreviation cacheSoundE :=
  (cacheSound severityNames facilityNames Info Local0 defaultAppName).

Lemma tagAttrs_FieldIndex (t : reflect.Type_) (field : reflect.StructField)
    (tagParts attrs : list string)
    (fr fr' : structuredDataFieldReflection) :
  tagAttrs t field tagParts attrs fr = Done fr' ->
  FieldIndex fr' = FieldIndex fr.
Proof.
  revert fr. induction attrs as [|a attrs IH]; intros fr; cbn [tagAttrs].
  - intros [= <-]. reflexivity.
  - destruct (tagParts !! 1%nat) as [sel|]; [|discriminate].
    destruct (String.eqb sel "omitempty"); [|discriminate].
    intros H. apply IH in H. exact H.
Qed.

(** A step of the loop keeps the type and the descriptors already
    there, and adds at most one descriptor, for the field it is at. *)
Lemma reflectOther_extends (t : reflect.Type_) (i : Z)
    (field : reflect.StructField) (r r' : reflection) :
  reflectOther t i field r = Done r' ->
  Type_ r' = Type_ r
  /\ (StructuredDataFieldReflections r' = StructuredDataFieldReflections r
      \/ exists fr,
           StructuredDataFieldReflections r'
           = StructuredDataFieldReflections r ++ [fr]
           /\ FieldIndex fr = i).
Proof.
  unfold reflectOther.
  destruct (_ && _); [intros [= <-]; split; [reflexivity | left; reflexivity]|].
  destruct (_ && _); [intros [= <-]; split; [reflexivity | left; reflexivity]|].
  destruct (submatch _ 0) as [fieldName|]; cbn [obind]; [|discriminate].
  match goal with
  | |- obind ?o _ = _ -> _ => destruct o as [[sdID name1]|]; cbn [obind];
                             [|discriminate]
  end.
  match goal with
  | |- obind ?o _ = _ -> _ => destruct o as [name2|]; cbn [obind];
                             [|discriminate]
  end.
  match goal with
  | |- obind ?o _ = _ -> _ => destruct o as [fr|] eqn:E; cbn [obind];
                             [|discriminate]
  end.
  intros [= <-]. split; [reflexivity|]. right. exists fr.
  split; [reflexivity|].
  destruct (1 <? length (strings.Split (reflect.Tag field) ","))%nat.
  - apply tagAttrs_FieldIndex in E. exact E.
  - injection E as <-. reflexivity.
Qed.

Lemma reflectField_extends (t : reflect.Type_) (i : Z)
    (field : reflect.StructField) (r r' : reflection) :
  reflectFieldE t i field r = Done r' ->
  Type_ r' = Type_ r
  /\ (StructuredDataFieldReflections r' = StructuredDataFieldReflections r
      \/ exists fr,
           StructuredDataFieldReflections r'
           = StructuredDataFieldReflections r ++ [fr]
           /\ FieldIndex fr = i).
Proof.
  unfold reflectField.
  repeat match goal with
  | |- context [if String.eqb (reflect.Name field) ?s then _ else _] =>
      destruct (String.eqb (reflect.Name field) s)
  end;
  try apply reflectOther_extends;
  repeat match goal with
  | |- context [if negb ?b then _ else _] => destruct b; cbn [negb]
  | |- context [match ?o with Some _ => _ | None => _ end] => destruct o
  end;
  try discriminate;
  intros [= <-]; split; try reflexivity; left; reflexivity.
Qed.

Lemma reflectFields_invariant (t : reflect.Type_)
    (fields : list reflect.StructField) :
  forall (i : Z) (r r' : reflection),
    reflectFieldsE t i fields r = Done r' ->
    0 <= i ->
    inOrder 0 i (map FieldIndex (StructuredDataFieldReflections r)) = true ->
    Type_ r' = Type_ r
    /\ inOrder 0 (i + Z.of_nat (length fields))
         (map FieldIndex (StructuredDataFieldReflections r')) = true.
Proof.
  induction fields as [|field fields IH]; intros i r r'; cbn [reflectFields].
  - intros [= <-] _ H. split; [reflexivity|].
    cbn [length]. rewrite Z.add_0_r. exact H.
  - destruct (reflectFieldE t i field r) as [r1|] eqn:E; cbn [obind];
      [|discriminate].
    intros H Hi Hord. apply reflectField_extends in E.
    destruct E as [Ety Esd].
    assert (Hord1 : inOrder 0 (i + 1)
                      (map FieldIndex (StructuredDataFieldReflections r1))
                    = true).
    { destruct Esd as [-> | (fr & -> & Hfr)].
      - apply (inOrder_weaken 0 i); [lia | exact Hord].
      - rewrite map_app. cbn [map]. rewrite Hfr.
        apply inOrder_snoc; [lia | lia | exact Hord]. }
    destruct (IH (i + 1) r1 r' H ltac:(lia) Hord1) as [Ety' Hord'].
    split; [congruence|].
    replace (i + Z.of_nat (length (field :: fields)))
      with (i + 1 + Z.of_nat (length fields))
      by (cbn [length]; lia).
    exact Hord'.
Qed.

(** The reflection computed for a type is for that type, and lists the
    structured-data descriptors in declaration order. *)
Lemma reflectImpl_Done (t : reflect.Type_) (r : reflection) :
  reflectImplE t = Done r -> Type_ r = t /\ declarationOrder t r = true.
Proof.
  unfold reflectImpl, declarationOrder. intros H.
  apply reflectFields_invariant in H; [|lia|reflexivity].
  destruct H as [Ety Hord]. split; [exact Ety | exact Hord].
Qed.

(** *** What the reflection depends on *)

Lemma tagAttrs_name (t t' : reflect.Type_) (field : reflect.StructField)
    (tagParts attrs : list string) (fr : structuredDataFieldReflection) :
  reflect.TypeName t = reflect.TypeName t' ->
  tagAttrs t field tagParts attrs fr = tagAttrs t' field tagParts attrs fr.
Proof.
  intros Hn. revert fr.
  induction attrs as [|a attrs IH]; intros fr; cbn [tagAttrs]; [reflexivity|].
  destruct (tagParts !! 1%nat) as [sel|]; [|reflexivity].
  destruct (String.eqb sel "omitempty"); [apply IH|].
  rewrite Hn. reflexivity.
Qed.

Lemma reflectOther_name (t t' : reflect.Type_) (i : Z)
    (field : reflect.StructField) (r : reflection) :
  reflect.TypeName t = reflect.TypeName t' ->
  reflectOther t i field r = reflectOther t' i field r.
Proof.
  intros Hn. unfold reflectOther.
  destruct (_ && _); [reflexivity|].
  destruct (_ && _); [reflexivity|].
  destruct (submatch _ 0) as [fieldName|]; cbn [obind]; [|reflexivity].
  match goal with
  | |- obind ?o _ = _ => destruct o as [[sdID name1]|]; cbn [obind];
                         [|reflexivity]
  end.
  match goal with
  | |- obind ?o _ = _ => destruct o as [name2|]; cbn [obind]; [|reflexivity]
  end.
  rewrite (tagAttrs_name t t') by exact Hn. reflexivity.
Qed.

Lemma reflectOther_set_Type (ty t : reflect.Type_) (i : Z)
    (field : reflect.StructField) (r : reflection) :
  reflectOther t i field (set_Type_ ty r)
  = outcome_map (set_Type_ ty) (reflectOther t i field r).
Proof.
  unfold reflectOther.
  destruct (_ && _); [reflexivity|].
  destruct (_ && _); [reflexivity|].
  destruct (submatch _ 0) as [fieldName|]; cbn [obind outcome_map];
    [|reflexivity].
  cbn [SDIDDefault set_Type_].
  match goal with
  | |- obind ?o _ = _ => destruct o as [[sdID name1]|];
                         cbn [obind outcome_map]; [|reflexivity]
  end.
  match goal with
  | |- obind ?o _ = _ => destruct o as [name2|]; cbn [obind outcome_map];
                         [|reflexivity]
  end.
  match goal with
  | |- obind ?o _ = _ => destruct o as [fr|]; cbn [obind outcome_map];
                         reflexivity
  end.
Qed.

Lemma reflectField_name (t t' : reflect.Type_) (i : Z)
    (field : reflect.StructField) (r : reflection) :
  reflect.TypeName t = reflect.TypeName t' ->
  reflectFieldE t i field r = reflectFieldE t' i field r.
Proof.
  intros Hn. unfold reflectField.
  repeat match goal with
  | |- context [if String.eqb (reflect.Name field) ?s then _ else _] =>
      destruct (String.eqb (reflect.Name field) s)
  end;
  try reflexivity.
  apply reflectOther_name. exact Hn.
Qed.

Lemma reflectField_set_Type (ty t : reflect.Type_) (i : Z)
    (field : reflect.StructField) (r : reflection) :
  reflectFieldE t i field (set_Type_ ty r)
  = outcome_map (set_Type_ ty) (reflectFieldE t i field r).
Proof.
  unfold reflectField.
  repeat match goal with
  | |- context [if String.eqb (reflect.Name field) ?s then _ else _] =>
      destruct (String.eqb (reflect.Name field) s)
  end;
  try apply reflectOther_set_Type;
  repeat match goal with
  | |- context [if negb ?b then _ else _] => destruct b; cbn [negb]
  | |- context [match ?o with Some _ => _ | None => _ end] => destruct o
  end;
  reflexivity.
Qed.

Lemma reflectFields_name_type (ty t t' : reflect.Type_)
    (fields : list reflect.StructField) :
  reflect.TypeName t = reflect.TypeName t' ->
  forall (i : Z) (r : reflection),
    reflectFieldsE t' i fields (set_Type_ ty r)
    = outcome_map (set_Type_ ty) (reflectFieldsE t i fields r).
Proof.
  intros Hn. induction fields as [|field fields IH]; intros i r;
    cbn [reflectFields]; [reflexivity|].
  rewrite reflectField_set_Type, <- (reflectField_name t t') by exact Hn.
  destruct (reflectFieldE t i field r) as [r1|msg]; cbn [obind outcome_map];
    [apply IH | reflexivity].
Qed.

(** The reflection is a function of the name and the fields of the
    type; the type itself is only kept in [Type_]. *)
Lemma reflectImpl_name_fields (t t' : reflect.Type_) :
  reflect.TypeName t' = reflect.TypeName t ->
  reflect.Fields t' = reflect.Fields t ->
  reflectImplE t' = outcome_map (set_Type_ t') (reflectImplE t).
Proof.
  intros Hn Hf. unfold reflectImpl. rewrite Hf, Hn.
  symmetry in Hn.
  match goal with
  | |- _ = outcome_map _ (reflectFields _ _ _ _ _ ?r) =>
      exact (reflectFields_name_type t' t t' (reflect.Fields t) Hn 0 r)
  end.
Qed.

(** *** The cache *)

Lemma findReflection_Some (l : list reflection) (t : reflect.Type_)
    (r : reflection) :
  findReflection l t = Some r -> In r l /\ Type_ r = t.
Proof.
  induction l as [|x l IH]; cbn [findReflection]; [discriminate|].
  destruct (decide (Type_ x = t)) as [E|E].
  - intros [= <-]. split; [left; reflexivity | exact E].
  - intros H. destruct (IH H) as [A B]. split; [right; exact A | exact B].
Qed.

Lemma findReflection_snoc (l : list reflection) (t : reflect.Type_)
    (r : reflection) :
  findReflection l t = None -> Type_ r = t ->
  findReflection (l ++ [r]) t = Some r.
Proof.
  intros Hnone Hty. induction l as [|x l IH]; cbn [findReflection app] in *.
  - destruct (decide (Type_ r = t)); [reflexivity | contradiction].
  - destruct (decide (Type_ x = t)); [discriminate | apply IH; exact Hnone].
Qed.

Lemma Reflect_sound (t : reflect.Type_) (c : gmap string (list reflection)) :
  cacheSoundE c ->
  fst (ReflectE t c) = reflectImplE t /\ cacheSoundE (snd (ReflectE t c)).
Proof.
  intros S. unfold Reflect.
  destruct (c !! reflect.TypeName t) as [l|] eqn:L.
  - destruct (findReflection l t) as [r|] eqn:F.
    + apply findReflection_Some in F. destruct F as [Hin Hty].
      cbn [fst snd]. split; [|exact S].
      rewrite <- Hty. symmetry. apply (S _ _ _ L Hin).
    + destruct (reflectImplE t) as [r|msg] eqn:R; cbn [fst snd];
        (split; [reflexivity|]); [|exact S].
      intros name l' r' Hl Hin.
      destruct (decide (reflect.TypeName t = name)) as [<-|Hne].
      * rewrite lookup_insert_eq in Hl. injection Hl as <-.
        apply in_app_or in Hin. destruct Hin as [Hin | [<- | []]].
        -- apply (S _ _ _ L Hin).
        -- destruct (reflectImpl_Done t r R) as [-> _]. exact R.
      * rewrite lookup_insert_ne in Hl by exact Hne.
        apply (S _ _ _ Hl Hin).
  - destruct (reflectImplE t) as [r|msg] eqn:R; cbn [fst snd];
      (split; [reflexivity|]); [|exact S].
    intros name l' r' Hl Hin.
    destruct (decide (reflect.TypeName t = name)) as [<-|Hne].
    + rewrite lookup_insert_eq in Hl. injection Hl as <-.
      destruct Hin as [<- | []].
      destruct (reflectImpl_Done t r R) as [-> _]. exact R.
    + rewrite lookup_insert_ne in Hl by exact Hne.
      apply (S _ _ _ Hl Hin).
Qed.

Lemma cacheAfter_sound (ts : list reflect.Type_)
    (c : gmap string (list reflection)) :
  cacheSoundE c -> cacheSoundE (cacheAfterE ts c).
Proof.
  revert c. induction ts as [|t ts IH]; intros c S; cbn [cacheAfter].
  - exact S.
  - apply IH. apply Reflect_sound. exact S.
Qed.

Lemma cacheSound_empty : cacheSoundE ∅.
Proof. intros name l r H. rewrite lookup_empty in H. discriminate. Qed.

(** A second call on the same type finds what the first call left. *)
Lemma Reflect_again (t : reflect.Type_) (c : gmap string (list reflection)) :
  ReflectE t (snd (ReflectE t c)) = (fst (ReflectE t c), snd (ReflectE t c)).
Proof.
  unfold Reflect at 2 3 4.
  destruct (c !! reflect.TypeName t) as [l|] eqn:L.
  - destruct (findReflection l t) as [r|] eqn:F.
    + cbn [fst snd]. unfold Reflect. rewrite L, F. reflexivity.
    + destruct (reflectImplE t) as [r|msg] eqn:R; cbn [fst snd].
      * unfold Reflect. rewrite lookup_insert_eq.
        destruct (reflectImpl_Done t r R) as [Hty _].
        rewrite (findReflection_snoc l t r F Hty). reflexivity.
      * unfold Reflect. rewrite L, F, R. reflexivity.
  - destruct (reflectImplE t) as [r|msg] eqn:R; cbn [fst snd].
    + unfold Reflect. rewrite lookup_insert_eq.
      destruct (reflectImpl_Done t r R) as [Hty _].
      pose proof (findReflection_snoc [] t r eq_refl Hty) as F.
      cbn [app] in F. rewrite F. reflexivity.
    + unfold Reflect. rewrite L, R. reflexivity.
Qed.

End ReflectionProofs.

(** ** Properties of reflection *)

(** C7: whatever types were reflected before, two calls of [Reflect] on
    the same type return the same reflection, the one [reflectImpl]
    computes from the type, and the second call leaves the cache as the
    first left it; the reflection is for that type and lists the
    structured-data descriptors in field declaration order; it is a
    function of the name and the declared fields and tags of the type:
    another type with the same name and fields gets the same reflection,
    but for the type it refers to. *)
Theorem Reflect_same_type_twice
    (severityNames facilityNames : gmap string Z) (Info Local0 : Z)
    (defaultAppName : string) (ts : list reflect.Type_) (t : reflect.Type_) :
  let impl :=
    reflectImpl severityNames facilityNames Info Local0 defaultAppName in
  let cache :=
    cacheAfter severityNames facilityNames Info Local0 defaultAppName ts ∅ in
  let first :=
    Reflect severityNames facilityNames Info Local0 defaultAppName t cache in
  let second :=
    Reflect severityNames facilityNames Info Local0 defaultAppName t
      (snd first) in
  fst first = impl t
  /\ fst second = fst first
  /\ snd second = snd first
  /\ match impl t with
     | Done r => Type_ r = t /\ declarationOrder t r = true
     | Panic _ => True
     end
  /\ (forall t' : reflect.Type_,
         reflect.TypeName t' = reflect.TypeName t ->
         reflect.Fields t' = reflect.Fields t ->
         impl t' = outcome_map (set_Type_ t') (impl t)).
Proof.
  intros impl cache first second.
  assert (S : cacheSound severityNames facilityNames Info Local0
                defaultAppName cache).
  { apply cacheAfter_sound, cacheSound_empty. }
  destruct (Reflect_sound severityNames facilityNames Info Local0
              defaultAppName t cache S) as [F _].
  pose proof (Reflect_again severityNames facilityNames Info Local0
                defaultAppName t cache) as A.
  fold first in F, A. fold second in A.
  split; [exact F|].
  split; [rewrite A; reflexivity|].
  split; [rewrite A; reflexivity|].
  split.
  - destruct (impl t) as [r|msg] eqn:E; [|exact I].
    apply (reflectImpl_Done severityNames facilityNames Info Local0
             defaultAppName). exact E.
  - intros t' Hn Hf. apply reflectImpl_name_fields; assumption.
Qed.

Lemma Reflect_same_type_twice_witness :
  reflectImpl ∅ ∅ 6 16 "app" (sameDeclaration bogusType)
  = outcome_map (set_Type_ (sameDeclaration bogusType))
      (reflectImpl ∅ ∅ 6 16 "app" bogusType).
Proof.
  apply (proj2 (proj2 (proj2 (proj2
           (Reflect_same_type_twice ∅ ∅ 6 16 "app" [] bogusType))))).
  - reflexivity.
  - reflexivity.
Defined.

(** C2 does not hold of the code: the switch inside the loop over the
    attributes is on the second part of the tag, not on the attribute the
    loop is at, so a type whose field is tagged [name,omitempty,bogus] is
    registered without a panic, as omit-if-empty; the unknown attribute
    is reported only when it comes first. *)
Theorem reflectImpl_accepts_unknown_attribute
    (severityNames facilityNames : gmap string Z) (Info Local0 : Z)
    (defaultAppName : string) :
  reflectImpl severityNames facilityNames Info Local0 defaultAppName bogusType
  = Done
      {| Type_ := bogusType;
         SeverityFieldIndex := -1; SeverityDefault := Info;
         FacilityFieldIndex := -1; FacilityDefault := Local0;
         TimestampFieldIndex := -1; HostnameFieldIndex := -1;
         AppNameFieldIndex := -1; AppNameDefault := defaultAppName;
         ProcessIDFieldIndex := -1; MessageIDFieldIndex := -1;
         MessageIDDefault := "Rec"; MessageFieldIndex := -1;
         SDIDDefault := "";
         StructuredDataFieldReflections :=
           [ {| FieldIndex := 0; OmitEmpty := true; FieldName := "name";
                SdID := "0@local" |} ] |}
  /\ reflectImpl severityNames facilityNames Info Local0 defaultAppName
       {| reflect.Ident := 1; reflect.TypeName := "Rec";
          reflect.Fields :=
            [ {| reflect.Name := "Foo"; reflect.PkgPath := "";
                 reflect.Tag := "name,bogus,omitempty" |} ] |}
     = Panic "unknown tag bogus on field Foo of Rec".
Proof. split; reflexivity. Qed.

(** * Further properties of marshal.go *)

(** ** The two character checks *)

Lemma forallb_Forall_bytes (p : ascii -> bool) (P : ascii -> Prop)
    (s : string) :
  (forall c, p c = true <-> P c) ->
  forallb p (list_ascii_of_string s) = true
  <-> Forall P (list_ascii_of_string s).
Proof.
  intros H. induction (list_ascii_of_string s) as [|c l IH]; cbn [forallb].
  - split; [constructor | reflexivity].
  - rewrite andb_true_iff, Forall_cons, H, IH. reflexivity.
Qed.

Lemma printableByte_iff (c : ascii) :
  printableByte c = true <-> 33 <= byteZ c <= 126.
Proof. unfold printableByte. rewrite andb_true_iff, !Z.leb_le. tauto. Qed.

Lemma sdNameByte_iff (c : ascii) :
  sdNameByte c = true
  <-> 33 <= byteZ c <= 126 /\ c <> equals /\ c <> rbracket /\ c <> dquote.
Proof.
  unfold sdNameByte.
  rewrite andb_true_iff, printableByte_iff, negb_true_iff, !orb_false_iff.
  rewrite !Ascii.eqb_neq. tauto.
Qed.

(** X1: [isPrintableUsASCII], which loops over the runes of the string,
    accepts exactly the strings all of whose bytes are between 33 and
    126; the empty string is accepted, and any string holding a byte of
    a multi-byte or ill-formed sequence is refused. *)
Theorem isPrintableUsASCII_iff_bytes (s : string) :
  isPrintableUsASCII s = true
  <-> Forall (fun c => 33 <= byteZ c <= 126) (list_ascii_of_string s).
Proof.
  rewrite isPrintableUsASCII_bytes.
  apply forallb_Forall_bytes. apply printableByte_iff.
Qed.

(** X2: [isValidSdName] accepts exactly the strings whose bytes are all
    between 33 and 126 and none of the equals sign, the closing bracket
    and the double quote, and that have at most 32 bytes when long names
    are not allowed; every name it accepts is accepted by
    [isPrintableUsASCII]. *)
Theorem isValidSdName_iff_bytes (allowLong : bool) (s : string) :
  (isValidSdName allowLong s = true
   <-> Forall (fun c => 33 <= byteZ c <= 126
                        /\ c <> equals /\ c <> rbracket /\ c <> dquote)
         (list_ascii_of_string s)
       /\ (allowLong = false -> (String.length s <= 32)%nat))
  /\ (isValidSdName allowLong s = true -> isPrintableUsASCII s = true).
Proof.
  assert (E : isValidSdName allowLong s = true
              <-> Forall (fun c => 33 <= byteZ c <= 126
                                   /\ c <> equals /\ c <> rbracket
                                   /\ c <> dquote)
                    (list_ascii_of_string s)
                  /\ (allowLong = false -> (String.length s <= 32)%nat)).
  { rewrite isValidSdName_rule. unfold sdNameRule.
    rewrite andb_true_iff, orb_true_iff, Nat.leb_le.
    rewrite (forallb_Forall_bytes sdNameByte _ s sdNameByte_iff).
    destruct allowLong; intuition congruence. }
  split; [exact E|].
  intros H. apply E in H. destruct H as [H _].
  rewrite isPrintableUsASCII_bytes.
  apply (forallb_Forall_bytes printableByte _ s printableByte_iff).
  eapply Forall_impl; [exact H|]. cbv beta. tauto.
Qed.

Lemma isValidSdName_iff_bytes_witness :
  isValidSdName false "exampleSDID@32473" = true
  /\ isPrintableUsASCII "exampleSDID@32473" = true.
Proof.
  split; [reflexivity|].
  apply (proj2 (isValidSdName_iff_bytes false "exampleSDID@32473")).
  reflexivity.
Defined.

(** ** The two settings of the toggle *)

Lemma sdNameRule_relax (s : string) :
  sdNameRule false s = true -> sdNameRule true s = true.
Proof.
  unfold sdNameRule. rewrite !andb_true_iff. cbn [orb]. tauto.
Qed.

Lemma elementRule_relax (el : StructuredDataElement) :
  elementRule false el = true -> elementRule true el = true.
Proof.
  unfold elementRule. rewrite !andb_true_iff, !forallb_forall.
  intros [A B]. split; [apply sdNameRule_relax; exact A|].
  intros p Hp. specialize (B p Hp). unfold paramRule in *.
  rewrite andb_true_iff in *. destruct B as [B1 B2].
  split; [apply sdNameRule_relax; exact B1 | exact B2].
Qed.

Lemma satisfiesRules_relax (m : Message) :
  satisfiesRules false m = true -> satisfiesRules true m = true.
Proof.
  unfold satisfiesRules. rewrite !andb_true_iff, !forallb_forall.
  intros [H E]. split; [exact H|].
  intros el Hel. apply elementRule_relax, E, Hel.
Qed.

(** X3: a message that passes validation with long names refused also
    passes with long names allowed, and is encoded to the same bytes
    under both settings. *)
Theorem strict_valid_is_permissive_valid (m : Message) :
  assertValid false m = None ->
  assertValid true m = None
  /\ MarshalBinary true m = MarshalBinary false m
  /\ exists b, MarshalBinary false m = Done (b, None).
Proof.
  intros V.
  assert (V' : assertValid true m = None).
  { apply assertValid_None, satisfiesRules_relax, assertValid_None, V. }
  split; [exact V'|].
  rewrite (MarshalBinary_valid _ _ V), (MarshalBinary_valid _ _ V').
  split; [reflexivity | eauto].
Qed.

Lemma strict_valid_is_permissive_valid_witness :
  assertValid true exampleMessage = None
  /\ MarshalBinary true exampleMessage = MarshalBinary false exampleMessage
  /\ exists b, MarshalBinary false exampleMessage = Done (b, None).
Proof. apply (strict_valid_is_permissive_valid exampleMessage). reflexivity. Defined.

(** ** The order of the checks *)

Lemma assertValidElements_app (allowLong : bool)
    (a b : list StructuredDataElement) :
  assertValidElements allowLong (a ++ b)
  = match assertValidElements allowLong a with
    | Some e => Some e
    | None => assertValidElements allowLong b
    end.
Proof.
  induction a as [|el a IH]; [reflexivity|].
  cbn [app assertValidElements].
  destruct (negb (isValidSdName allowLong (ID el))); [reflexivity|].
  destruct (assertValidParams allowLong (Parameters el)); [reflexivity|].
  exact IH.
Qed.

Lemma assertValidElements_first_bad (allowLong : bool)
    (el : StructuredDataElement) (rest : list StructuredDataElement) :
  elementRule allowLong el = false ->
  assertValidElements allowLong (el :: rest)
  = assertValidElements allowLong [el]
  /\ exists e, assertValidElements allowLong [el] = Some e.
Proof.
  intros H. cbn [assertValidElements].
  unfold elementRule in H. rewrite isValidSdName_rule.
  destruct (sdNameRule allowLong (ID el)); cbn [negb andb] in *.
  - pose proof (assertValidParams_None allowLong (Parameters el)) as P.
    destruct (assertValidParams allowLong (Parameters el)) as [e|].
    + split; [reflexivity | eauto].
    + destruct P as [P _]. rewrite (P eq_refl) in H. discriminate.
  - split; [reflexivity | eauto].
Qed.

(** X4: validation stops at the first element that breaks a rule: when
    the header fields and the elements before it are valid, the error is
    the one that element gives on its own, whatever follows it. *)
Theorem assertValid_first_invalid_element (allowLong : bool) (m : Message)
    (pre post : list StructuredDataElement) (el : StructuredDataElement) :
  assertValid allowLong (withStructuredData pre m) = None ->
  elementRule allowLong el = false ->
  exists e,
    assertValidElements allowLong [el] = Some e
    /\ assertValid allowLong (withStructuredData (pre ++ el :: post) m)
       = Some e
    /\ MarshalBinary allowLong (withStructuredData (pre ++ el :: post) m)
       = Done ([], Some e).
Proof.
  intros V Hel.
  destruct (assertValidElements_first_bad allowLong el post Hel)
    as [E1 (e & E2)].
  exists e. split; [exact E2|].
  assert (A : assertValid allowLong
                (withStructuredData (pre ++ el :: post) m) = Some e).
  { rewrite assertValid_unfold in V |- *.
    cbn [withStructuredData Severity Facility Hostname AppName ProcessID
         MessageID StructuredData] in V |- *.
    repeat match goal with
    | |- context [if negb ?b then _ else _] =>
        destruct b; cbn [negb] in V |- *; [|discriminate]
    end.
    rewrite assertValidElements_app, V, E1. exact E2. }
  split; [exact A | apply MarshalBinary_invalid; exact A].
Qed.

Lemma assertValid_first_invalid_element_witness :
  exists e,
    assertValidElements false [ {| ID := longName; Parameters := [] |} ]
    = Some e
    /\ assertValid false
         (withStructuredData
            ([emptyIDElement] ++ {| ID := longName; Parameters := [] |}
                              :: [emptyNameElement "x]"]) exampleMessage)
       = Some e
    /\ MarshalBinary false
         (withStructuredData
            ([emptyIDElement] ++ {| ID := longName; Parameters := [] |}
                              :: [emptyNameElement "x]"]) exampleMessage)
       = Done ([], Some e).
Proof.
  apply (assertValid_first_invalid_element false exampleMessage
           [emptyIDElement] [emptyNameElement "x]"]
           {| ID := longName; Parameters := [] |}); reflexivity.
Defined.

(** ** The hyphen *)

Lemma headerRule_nilify (ceiling : nat) (s : string) :
  (1 <= ceiling)%nat ->
  headerRule ceiling s = true -> headerRule ceiling (nilify s) = true.
Proof.
  intros Hc H. destruct s as [|c s]; [|exact H].
  unfold headerRule. cbn. destruct ceiling; [lia | reflexivity].
Qed.

Lemma nilify_nilify (s : string) : nilify (nilify s) = nilify s.
Proof. destruct s; reflexivity. Qed.

(** X5: an empty header field and one that holds a single hyphen are
    encoded alike: putting a hyphen in place of every empty Hostname,
    AppName, ProcessID and MessageID of a valid message leaves it valid
    and does not change a byte of its encoding. *)
Theorem hyphen_encodes_as_empty (allowLong : bool) (m : Message) :
  assertValid allowLong m = None ->
  let m' :=
    withHeaders (nilify (Hostname m)) (nilify (AppName m))
      (nilify (ProcessID m)) (nilify (MessageID m)) m in
  assertValid allowLong m' = None
  /\ MarshalBinary allowLong m' = MarshalBinary allowLong m.
Proof.
  intros V m'.
  assert (V' : assertValid allowLong m' = None).
  { apply assertValid_None. apply assertValid_None in V.
    unfold satisfiesRules in *. subst m'.
    cbn [withHeaders Severity Facility Hostname AppName ProcessID MessageID
         StructuredData].
    rewrite !andb_true_iff in *.
    destruct V as [[[[[[[[A B] C] D] H1] H2] H3] H4] E].
    repeat split; try assumption; apply headerRule_nilify; (lia || assumption). }
  split; [exact V'|].
  rewrite (MarshalBinary_valid _ _ V), (MarshalBinary_valid _ _ V').
  unfold wireFormat, wirePrefix, wireBody. subst m'.
  cbn [withHeaders Severity Facility Timestamp Hostname AppName ProcessID
       MessageID StructuredData Body].
  rewrite <- !nilify_orNil, !nilify_nilify. reflexivity.
Qed.

Lemma hyphen_encodes_as_empty_witness :
  MarshalBinary allowLongSdNames
    (withHeaders "mymachine.example.com" "su" "-" "ID47" exampleMessage)
  = MarshalBinary allowLongSdNames exampleMessage.
Proof.
  exact (proj2 (hyphen_encodes_as_empty allowLongSdNames exampleMessage
                  eq_refl)).
Defined.

(** ** The body *)

(** X6: the body is not validated, and it is written as it is: the
    encoding of a valid message with a body is its encoding without one,
    followed by a space and the bytes of the body. *)
Theorem Body_written_verbatim (allowLong : bool) (m : Message)
    (body : list Byte.byte) :
  assertValid allowLong m = None ->
  body <> [] ->
  assertValid allowLong (withBody body m) = None
  /\ exists head,
       MarshalBinary allowLong (withBody [] m) = Done (head, None)
       /\ MarshalBinary allowLong (withBody body m)
          = Done (head ++ list_byte_of_string " " ++ body, None).
Proof.
  intros V N.
  assert (E : forall b, assertValid allowLong (withBody b m) = None)
    by (intros b; exact V).
  split; [apply E|].
  exists (list_byte_of_string
            (wirePrefix m +:+ renderStructuredData (StructuredData m))).
  rewrite !(MarshalBinary_valid _ _ (E _)).
  unfold wireFormat, wireBody. cbn [withBody Body StructuredData].
  change (wirePrefix (withBody [] m)) with (wirePrefix m).
  change (wirePrefix (withBody body m)) with (wirePrefix m).
  rewrite app_nil_r. split; [reflexivity|].
  destruct body; [congruence | reflexivity].
Qed.

Lemma Body_written_verbatim_witness :
  exists head,
    MarshalBinary allowLongSdNames (withBody [] exampleMessage)
    = Done (head, None)
    /\ MarshalBinary allowLongSdNames
         (withBody (list_byte_of_string "a]=b") exampleMessage)
       = Done (head ++ list_byte_of_string " " ++ list_byte_of_string "a]=b",
               None).
Proof.
  refine (proj2 (Body_written_verbatim allowLongSdNames exampleMessage
                   (list_byte_of_string "a]=b") eq_refl _)).
  discriminate.
Defined.

(** ** The escaper *)

Lemma countEscapes_le (s : string) :
  (countEscapes s 0 <= String.length s)%nat.
Proof.
  induction s as [|c s IH]; cbn [countEscapes String.length]; [lia|].
  destruct (isReserved c); [rewrite countEscapes_acc|]; lia.
Qed.

Lemma escaped_app (a b : string) :
  escaped (a +:+ b) = escaped a +:+ escaped b.
Proof.
  induction a as [|c a IH]; [reflexivity|].
  change (String c a +:+ b) with (String c (a +:+ b)).
  cbn [escaped]. rewrite IH. destruct (isReserved c); reflexivity.
Qed.

Lemma isReserved_backslash : isReserved backslash = true.
Proof. reflexivity. Qed.

Lemma wellEscaped_escaped (s : string) : wellEscaped (escaped s) = true.
Proof.
  induction s as [|c s IH]; [reflexivity|].
  cbn [escaped]. destruct (isReserved c) eqn:R.
  - cbn [wellEscaped]. change (Ascii.eqb backslash backslash) with true.
    cbv iota. rewrite R, IH. reflexivity.
  - cbn [wellEscaped].
    assert (B : Ascii.eqb c backslash = false).
    { destruct (Ascii.eqb_spec c backslash) as [->|]; [|reflexivity].
      rewrite isReserved_backslash in R. discriminate. }
    rewrite B, R, IH. reflexivity.
Qed.

Lemma escaped_unescape_bounded (n : nat) :
  forall t : string,
    (String.length t <= n)%nat -> wellEscaped t = true ->
    escaped (unescape t) = t.
Proof.
  induction n as [|n IH]; intros t Hlen W.
  - destruct t; [reflexivity | cbn in Hlen; lia].
  - destruct t as [|c t]; [reflexivity|].
    cbn [wellEscaped unescape] in *.
    destruct (Ascii.eqb c backslash) eqn:B.
    + destruct t as [|d t]; [discriminate|].
      apply andb_true_iff in W. destruct W as [R W].
      rewrite R. cbn [escaped]. rewrite R.
      apply Ascii.eqb_eq in B. subst c.
      rewrite IH; [reflexivity | cbn [String.length] in Hlen; lia | exact W].
    + apply andb_true_iff in W. destruct W as [R W].
      apply negb_true_iff in R. cbn [escaped]. rewrite R.
      rewrite IH; [reflexivity | cbn [String.length] in Hlen; lia | exact W].
Qed.

(** X7: the escaped value has one byte more for each backslash, double
    quote and closing bracket of the input, so it is never shorter than
    the input and never more than twice as long; the slice the code
    allocates is filled exactly. *)
Theorem escapeSDParam_length (s : string) :
  exists t,
    escapeSDParam s = Done t
    /\ String.length t = (String.length s + countEscapes s 0)%nat
    /\ (String.length s <= String.length t <= 2 * String.length s)%nat.
Proof.
  exists (escaped s). split; [apply escapeSDParam_escaped|].
  rewrite length_escaped. pose proof (countEscapes_le s). lia.
Qed.

(** X8: escaping a concatenation is concatenating the escaped parts. *)
Theorem escapeSDParam_app (a b : string) :
  exists ta tb,
    escapeSDParam a = Done ta /\ escapeSDParam b = Done tb
    /\ escapeSDParam (a +:+ b) = Done (ta +:+ tb).
Proof.
  exists (escaped a), (escaped b).
  rewrite !escapeSDParam_escaped, escaped_app. tauto.
Qed.

(** X9: the escaper never leaves a reserved byte bare: in its output a
    backslash is always followed by a backslash, a double quote or a
    closing bracket, and those three bytes only occur after such a
    backslash; and every string of that form is the output of the
    escaper for some input. *)
Theorem escapeSDParam_image (t : string) :
  wellEscaped t = true <-> exists s, escapeSDParam s = Done t.
Proof.
  split.
  - intros W. exists (unescape t). rewrite escapeSDParam_escaped.
    rewrite (escaped_unescape_bounded (String.length t) t (le_n _) W).
    reflexivity.
  - intros (s & H). rewrite escapeSDParam_escaped in H.
    injection H as <-. apply wellEscaped_escaped.
Qed.

(** ** Escaping and UTF-8 *)

Lemma isReserved_ascii (c : ascii) : isReserved c = true -> byteZ c < 128.
Proof.
  unfold isReserved. rewrite !orb_true_iff, !Ascii.eqb_eq.
  intros [[-> | ->] | ->]; vm_compute; reflexivity.
Qed.

Lemma validFrom_ascii (c : ascii) (t : string) :
  byteZ c < 128 -> utf8.validFrom 0 (String c t) = utf8.validFrom 0 t.
Proof.
  intros H. cbn [utf8.validFrom].
  replace (byteZ c <? utf8.RuneSelf) with true
    by (symmetry; apply Z.ltb_lt; exact H).
  reflexivity.
Qed.

Lemma validFrom_nonascii (n : nat) (c : ascii) (s' : string) :
  (forall t : string,
      (String.length t <= n)%nat ->
      utf8.validFrom 0 (escaped t) = utf8.validFrom 0 t) ->
  (String.length s' <= n)%nat ->
  128 <= byteZ c ->
  utf8.validFrom 0 (String c (escaped s')) = utf8.validFrom 0 (String c s').
Proof.
  intros IH Hlen Hc. pose proof (byteZ_range c) as R.
  remember (escaped s') as E eqn:HE.
  cbn [utf8.validFrom].
  replace (byteZ c <? utf8.RuneSelf) with false
    by (symmetry; apply Z.ltb_ge; exact Hc).
  generalize dependent (byteZ c). intros b0 Hc R.
  unfold utf8.first.
  repeat match goal with
  | |- context [Z.ltb b0 ?y] => destruct (Z.ltb_spec b0 y); try lia
  | |- context [Z.eqb b0 ?y] => destruct (Z.eqb_spec b0 y); try lia
  end.
  all: repeat match goal with
       | |- context [utf8.acceptRanges ?a] =>
           let v := eval vm_compute in (utf8.acceptRanges a) in
           change (utf8.acceptRanges a) with v
       | |- context [Z.eqb ?x utf8.xx] =>
           let v := eval vm_compute in (Z.eqb x utf8.xx) in
           change (Z.eqb x utf8.xx) with v
       | |- context [Z.land ?x 7] =>
           let v := eval vm_compute in (Z.land x 7) in
           change (Z.land x 7) with v
       end.
  all: cbv beta iota zeta; cbn [fst snd].
  all: try reflexivity.
  all: repeat match goal with
       | |- context [Z.eqb ?a ?b] =>
           let v := eval vm_compute in (Z.eqb a b) in
           change (Z.eqb a b) with v
       | |- context [(Z.to_nat ?a - 1)%nat] =>
           let v := eval vm_compute in ((Z.to_nat a - 1)%nat) in
           change ((Z.to_nat a - 1)%nat) with v
       end.
  all: cbv beta iota; unfold utf8.locb, utf8.hicb.
  all: subst E.
  all: match goal with
       | |- context [utf8.validFrom 3 _] => destruct s' as [|a [|b [|d s3]]]
       | |- context [utf8.validFrom 2 _] => destruct s' as [|a [|b s3]]
       | |- context [utf8.validFrom 1 _] => destruct s' as [|a s3]
       end.
  all: cbn [escaped].
  all: repeat match goal with
       | |- context [if isReserved ?x then _ else _] =>
           let Rx := fresh "Rx" in
           destruct (isReserved x) eqn:Rx;
           [apply isReserved_ascii in Rx | clear Rx]
       end.
  all: cbn [utf8.byteAt String.get String.length].
  all: change (byteZ backslash) with 92.
  all: repeat match goal with
       | |- context [Z.ltb ?x ?y] => destruct (Z.ltb_spec x y); cbn [orb]
       end.
  all: try reflexivity.
  all: try lia.
  all: change (utf8.validFrom 0 (escaped s3) = utf8.validFrom 0 s3).
  all: apply IH; cbn [String.length] in Hlen; lia.
Qed.

Lemma ValidString_escaped_bounded (n : nat) :
  forall t : string,
    (String.length t <= n)%nat ->
    utf8.validFrom 0 (escaped t) = utf8.validFrom 0 t.
Proof.
  induction n as [|n IH]; intros t Hlen.
  - destruct t; [reflexivity | cbn in Hlen; lia].
  - destruct t as [|c t]; [reflexivity|].
    cbn [String.length] in Hlen. cbn [escaped].
    destruct (isReserved c) eqn:Rc.
    + apply isReserved_ascii in Rc.
      rewrite (validFrom_ascii backslash) by (vm_compute; reflexivity).
      rewrite !(validFrom_ascii c) by exact Rc.
      apply IH. lia.
    + destruct (Z.lt_ge_cases (byteZ c) 128) as [A|A].
      * rewrite !(validFrom_ascii c) by exact A. apply IH. lia.
      * apply (validFrom_nonascii n); [exact IH | lia | exact A].
Qed.

(** X10: escaping neither breaks nor repairs UTF-8: the escaped value is
    valid UTF-8 exactly when the value is, so every parameter value a
    valid message carries is still valid UTF-8 once escaped. *)
Theorem escapeSDParam_keeps_utf8 (s : string) :
  exists t,
    escapeSDParam s = Done t
    /\ utf8.ValidString t = utf8.ValidString s.
Proof.
  exists (escaped s). split; [apply escapeSDParam_escaped|].
  unfold utf8.ValidString.
  apply (ValidString_escaped_bounded (String.length s)). lia.
Qed.

(** * Further properties of reflect.go *)

(** ** Tags *)

Lemma Split_nonempty (s : string) (sep : ascii) :
  exists part rest, strings.Split s sep = part :: rest.
Proof.
  induction s as [|c s IH]; cbn [strings.Split]; [eauto|].
  destruct (Ascii.eqb c sep); [eauto|].
  destruct IH as (p & rest & ->). eauto.
Qed.

Lemma sdRegexp_shape (s : string) (m : list string) :
  sdRegexp s = Some m ->
  exists g1 g2 g3, m = [s; g1; g2; g3] /\ g1 <> EmptyString.
Proof.
  unfold sdRegexp.
  destruct (regexp.span regexp.isDigit s) as [digits r1].
  destruct (String.eqb digits ""); [discriminate|].
  destruct r1 as [|c r2]; [discriminate|].
  destruct (negb (Ascii.eqb c "@")); [discriminate|].
  destruct (regexp.span regexp.isNonSpace r2) as [token r3].
  destruct (String.eqb token ""); [discriminate|].
  assert (N : digits +:+ "@" +:+ token <> EmptyString).
  { destruct digits; discriminate. }
  destruct r3 as [|sp rest].
  - intros [= <-]. eauto 6.
  - destruct (_ && _); [|discriminate]. intros [= <-]. eauto 6.
Qed.

Lemma isMessageTag_code (field : reflect.StructField) :
  (1 <? length (tagParts field))%nat
  && String.eqb (default EmptyString (tagParts field !! 0%nat)) ""
  && String.eqb (default EmptyString (tagParts field !! 1%nat)) "message"
  = isMessageTag (reflect.Tag field).
Proof.
  unfold isMessageTag, tagParts.
  destruct (strings.Split (reflect.Tag field) ",") as [|p0 [|p1 rest]];
    reflexivity.
Qed.

Lemma tagAttrs_accepted (t : reflect.Type_) (field : reflect.StructField)
    (parts attrs : list string) (fr : structuredDataFieldReflection) :
  String.eqb (default EmptyString (parts !! 1%nat)) "omitempty" = true ->
  tagAttrs t field parts attrs fr
  = Done
      {| FieldIndex := FieldIndex fr;
         OmitEmpty := match attrs with [] => OmitEmpty fr | _ => true end;
         FieldName := FieldName fr; SdID := SdID fr |}.
Proof.
  intros H. revert fr.
  induction attrs as [|a attrs IH]; intros fr; cbn [tagAttrs].
  - destruct fr; reflexivity.
  - destruct (parts !! 1%nat) as [sel|]; cbn in H; [|discriminate].
    rewrite H, IH. cbn. destruct attrs; reflexivity.
Qed.

Lemma tagAttrs_refused (t : reflect.Type_) (field : reflect.StructField)
    (parts : list string) (a sel : string) (attrs : list string)
    (fr : structuredDataFieldReflection) :
  parts !! 1%nat = Some sel ->
  String.eqb sel "omitempty" = false ->
  tagAttrs t field parts (a :: attrs) fr
  = Panic ("unknown tag " +:+ a +:+ " on field "
           +:+ reflect.Name field +:+ " of " +:+ reflect.TypeName t).
Proof. intros H1 H2. cbn [tagAttrs]. rewrite H1, H2. reflexivity. Qed.

Lemma lowerFirst_eq (name : string) :
  lowerFirst name
  = if String.eqb name "" then
      Panic "runtime error: slice bounds out of range"
    else Done (derivedName name).
Proof. destruct name; reflexivity. Qed.

(** What the [default] case of the switch does with a field. *)
Lemma reflectOther_eq (t : reflect.Type_) (i : Z)
    (field : reflect.StructField) (r : reflection) :
  reflectOther t i field r =
  if isSkipped field then Done r
  else if isMessageTag (reflect.Tag field) then
    Done (set_MessageFieldIndex i r)
  else if negb (nameAvailable field) then
    Panic "runtime error: slice bounds out of range"
  else if attributesAccepted field then
    Done (set_StructuredDataFieldReflections
            (StructuredDataFieldReflections r
             ++ [descriptorOf (SDIDDefault r) i field]) r)
  else
    Panic ("unknown tag " +:+ default EmptyString (tagParts field !! 1%nat)
           +:+ " on field " +:+ reflect.Name field
           +:+ " of " +:+ reflect.TypeName t).
Proof.
  unfold reflectOther. fold (tagParts field). fold (isSkipped field).
  destruct (isSkipped field); [reflexivity|].
  rewrite isMessageTag_code.
  destruct (isMessageTag (reflect.Tag field)); [reflexivity|].
  unfold nameAvailable, attributesAccepted, descriptorOf, tagFieldName,
    tagSdID, tagNamePart.
  destruct (Split_nonempty (reflect.Tag field) ",") as (p0 & rest & HS).
  unfold tagParts, sdIDInForce. rewrite HS. cbn.
  assert (Tail :
    forall (sdID name : string),
      (let! fieldName0
       := (if String.eqb name "" then lowerFirst (reflect.Name field)
           else Done name)
       in let! fieldReflection
          := (if match length rest with 0%nat => false | S _ => true end
              then
                tagAttrs t field (p0 :: rest) (drop 0 rest)
                  {| FieldIndex := i; OmitEmpty := false;
                     FieldName := fieldName0; SdID := sdID |}
              else
                Done {| FieldIndex := i; OmitEmpty := false;
                        FieldName := fieldName0; SdID := sdID |})
          in Done
               (set_StructuredDataFieldReflections
                  (StructuredDataFieldReflections r ++ [fieldReflection]) r))
      = (if negb (negb (String.eqb name "")
                  || negb (String.eqb (reflect.Name field) ""))
         then Panic "runtime error: slice bounds out of range"
         else if negb match length rest with 0%nat => false | S _ => true end
                 || String.eqb (default EmptyString (rest !! 0%nat)) "omitempty"
         then
           Done
             (set_StructuredDataFieldReflections
                (StructuredDataFieldReflections r
                 ++ [ {| FieldIndex := i;
                         OmitEmpty :=
                           match length rest with 0%nat => false | S _ => true end;
                         FieldName :=
                           if String.eqb name "" then
                             derivedName (reflect.Name field)
                           else name;
                         SdID := sdID |} ]) r)
         else
           Panic ("unknown tag " +:+ default EmptyString (rest !! 0%nat)
                  +:+ " on field " +:+ reflect.Name field
                  +:+ " of " +:+ reflect.TypeName t))).
  { intros sdID name.
    rewrite lowerFirst_eq.
    destruct (String.eqb name ""); cbn [negb orb];
      [destruct (String.eqb (reflect.Name field) "");
       cbn [negb obind]; [reflexivity|] |];
      (destruct rest as [|a attrs]; cbn [length negb orb obind drop];
       [reflexivity|];
       change ((a :: attrs) !! 0%nat) with (Some a); cbn [default from_option id];
       destruct (String.eqb a "omitempty") eqn:HA;
       [rewrite tagAttrs_accepted by exact HA; reflexivity
       |rewrite (tagAttrs_refused t field (p0 :: a :: attrs) a a attrs)
           by (reflexivity || exact HA); reflexivity]). }
  destruct (sdRegexp p0) as [m|] eqn:HR.
  - destruct (sdRegexp_shape _ _ HR) as (g1 & g2 & g3 & -> & _).
    cbn. apply Tail.
  - cbn. apply Tail.
Qed.

(** ** One step of the loop over the fields *)

Ltac name_cases name :=
  repeat match goal with
  | |- context [if String.eqb name ?s then _ else _] =>
      let E := fresh "E" in
      destruct (String.eqb name s) eqn:E;
      [apply String.eqb_eq in E; subst name|]
  end.

Lemma reflectField_step (severityNames facilityNames : gmap string Z)
    (t : reflect.Type_) (i : Z) (field : reflect.StructField)
    (r r1 : reflection) :
  reflectField severityNames facilityNames t i field r = Done r1 ->
  let tagged (name : string) :=
    hasName name field && negb (String.eqb (reflect.Tag field) "") in
  Type_ r1 = Type_ r
  /\ SeverityFieldIndex r1
     = (if hasName "Severity" field then i else SeverityFieldIndex r)
  /\ FacilityFieldIndex r1
     = (if hasName "Facility" field then i else FacilityFieldIndex r)
  /\ TimestampFieldIndex r1
     = (if hasName "Timestamp" field then i else TimestampFieldIndex r)
  /\ HostnameFieldIndex r1
     = (if hasName "Hostname" field then i else HostnameFieldIndex r)
  /\ AppNameFieldIndex r1
     = (if hasName "AppName" field then i else AppNameFieldIndex r)
  /\ ProcessIDFieldIndex r1
     = (if hasName "ProcessID" field then i else ProcessIDFieldIndex r)
  /\ MessageIDFieldIndex r1
     = (if hasName "MessageID" field then i else MessageIDFieldIndex r)
  /\ MessageFieldIndex r1
     = (if isMessageField field then i else MessageFieldIndex r)
  /\ SDIDDefault r1
     = (if tagged "SDID" then reflect.Tag field else SDIDDefault r)
  /\ AppNameDefault r1
     = (if tagged "AppName" then reflect.Tag field else AppNameDefault r)
  /\ MessageIDDefault r1
     = (if tagged "MessageID" then reflect.Tag field else MessageIDDefault r)
  /\ SeverityDefault r1
     = (if tagged "Severity"
        then default (SeverityDefault r) (severityNames !! reflect.Tag field)
        else SeverityDefault r)
  /\ FacilityDefault r1
     = (if tagged "Facility"
        then default (FacilityDefault r) (facilityNames !! reflect.Tag field)
        else FacilityDefault r)
  /\ StructuredDataFieldReflections r1
     = StructuredDataFieldReflections r
       ++ (if isStructuredDataField field
           then [descriptorOf (SDIDDefault r) i field] else []).
Proof.
  unfold reflectField, isStructuredDataField, isMessageField, hasName,
    isRoleName.
  rewrite reflectOther_eq. unfold isSkipped.
  destruct field as [name pkg tag].
  cbn [reflect.Name reflect.Tag reflect.PkgPath].
  name_cases name.
  all: cbn [String.eqb Ascii.eqb Bool.eqb andb orb negb].
  all: repeat match goal with
       | |- context [if negb ?b then _ else _] =>
           destruct b; cbn [negb andb orb]
       | |- context [match ?o with Some _ => _ | None => _ end] =>
           destruct o
       | |- context [if ?b then _ else _] =>
           destruct b; cbn [negb andb orb]
       end.
  all: try discriminate.
  all: intros [= <-]; cbn; rewrite ?app_nil_r; repeat split; reflexivity.
Qed.

Lemma reflectField_Done_iff (severityNames facilityNames : gmap string Z)
    (t : reflect.Type_) (i : Z) (field : reflect.StructField)
    (r : reflection) :
  (exists r1, reflectField severityNames facilityNames t i field r = Done r1)
  <-> registrable severityNames facilityNames field = true.
Proof.
  unfold reflectField, registrable, isRoleName, inTable.
  rewrite reflectOther_eq.
  destruct field as [name pkg tag].
  cbn [reflect.Name reflect.Tag reflect.PkgPath].
  name_cases name.
  all: cbn [String.eqb Ascii.eqb Bool.eqb andb orb negb].
  all: repeat match goal with
       | |- context [if negb ?b then _ else _] =>
           destruct b; cbn [negb andb orb]
       | |- context [match ?o with Some _ => _ | None => _ end] =>
           destruct o
       | |- context [if ?b then _ else _] =>
           destruct b; cbn [negb andb orb]
       end.
  all: split; [intros [r1 H]; (reflexivity || discriminate)
              | intros H; (discriminate || eauto)].
Qed.

(** ** The loop over the fields *)

Section FieldLoop.

Variable severityNames : gmap string Z.
Variable facilityNames : gmap string Z.
Variable t : reflect.Type_.

Lemma reflectFields_lastIndex (proj : reflection -> Z)
    (p : reflect.StructField -> bool) :
  (forall i field r r1,
      reflectField severityNames facilityNames t i field r = Done r1 ->
      proj r1 = if p field then i else proj r) ->
  forall fields i r r',
    reflectFields severityNames facilityNames t i fields r = Done r' ->
    proj r' = lastIndexWhere p i fields (proj r).
Proof.
  intros Step. induction fields as [|field fields IH]; intros i r r';
    cbn [reflectFields lastIndexWhere].
  - intros [= <-]. reflexivity.
  - destruct (reflectField severityNames facilityNames t i field r)
      as [r1|] eqn:E; cbn [obind]; [|discriminate].
    intros H. rewrite (IH _ _ _ H), (Step _ _ _ _ E). reflexivity.
Qed.

Lemma reflectFields_lastTag (proj : reflection -> string) (name : string) :
  (forall i field r r1,
      reflectField severityNames facilityNames t i field r = Done r1 ->
      proj r1
      = if hasName name field && negb (String.eqb (reflect.Tag field) "")
        then reflect.Tag field else proj r) ->
  forall fields i r r',
    reflectFields severityNames facilityNames t i fields r = Done r' ->
    proj r' = lastTagOf name fields (proj r).
Proof.
  intros Step. induction fields as [|field fields IH]; intros i r r';
    cbn [reflectFields lastTagOf].
  - intros [= <-]. reflexivity.
  - destruct (reflectField severityNames facilityNames t i field r)
      as [r1|] eqn:E; cbn [obind]; [|discriminate].
    intros H. rewrite (IH _ _ _ H), (Step _ _ _ _ E). reflexivity.
Qed.

Lemma reflectFields_descriptors :
  forall fields i r r',
    reflectFields severityNames facilityNames t i fields r = Done r' ->
    StructuredDataFieldReflections r'
    = StructuredDataFieldReflections r
      ++ descriptorsOf (SDIDDefault r) i fields.
Proof.
  induction fields as [|field fields IH]; intros i r r';
    cbn [reflectFields descriptorsOf].
  - intros [= <-]. rewrite app_nil_r. reflexivity.
  - destruct (reflectField severityNames facilityNames t i field r)
      as [r1|] eqn:E; cbn [obind]; [|discriminate].
    intros H. apply reflectField_step in E. cbv zeta in E.
    destruct E as (_ & _ & _ & _ & _ & _ & _ & _ & _ & Esd & _ & _ & _ & _ & El).
    rewrite (IH _ _ _ H), El, Esd, <- app_assoc. reflexivity.
Qed.

Lemma reflectFields_Done_iff :
  forall fields i r,
    (exists r',
        reflectFields severityNames facilityNames t i fields r = Done r')
    <-> forallb (registrable severityNames facilityNames) fields = true.
Proof.
  induction fields as [|field fields IH]; intros i r;
    cbn [reflectFields forallb].
  - split; eauto.
  - rewrite andb_true_iff, <- (reflectField_Done_iff _ _ t i field r).
    split.
    + intros [r' H].
      destruct (reflectField severityNames facilityNames t i field r)
        as [r1|] eqn:E; cbn [obind] in H; [|discriminate].
      split; [eauto|]. apply (IH (i + 1) r1). eauto.
    + intros [[r1 E] F]. rewrite E. cbn [obind].
      apply (IH (i + 1) r1). exact F.
Qed.

End FieldLoop.

(** ** The folds *)

Lemma lastIndexWhere_spec (p : reflect.StructField -> bool) :
  forall fields (i found : Z),
    (lastIndexWhere p i fields found = found
     /\ Forall (fun field => p field = false) fields)
    \/ (exists pre field post,
           fields = pre ++ field :: post
           /\ lastIndexWhere p i fields found = i + Z.of_nat (length pre)
           /\ p field = true
           /\ Forall (fun other => p other = false) post).
Proof.
  induction fields as [|field fields IH]; intros i found;
    cbn [lastIndexWhere].
  - left. split; [reflexivity | constructor].
  - destruct (IH (i + 1) (if p field then i else found))
      as [[E F] | (pre & g & post & -> & E & Pg & F)].
    + destruct (p field) eqn:P.
      * right. exists [], field, fields. cbn [app length].
        repeat split; [lia | exact P | exact F].
      * left. split; [exact E | constructor; assumption].
    + right. exists (field :: pre), g, post. cbn [app length].
      repeat split; [lia | exact Pg | exact F].
Qed.

Lemma lastIndexWhere_isLastIndexOf (p : reflect.StructField -> bool)
    (fields : list reflect.StructField) :
  isLastIndexOf p fields (lastIndexWhere p 0 fields (-1)).
Proof.
  destruct (lastIndexWhere_spec p fields 0 (-1))
    as [[E F] | (pre & g & post & Hf & E & Pg & F)].
  - left. split; assumption.
  - right. exists pre, g, post. repeat split; try assumption; lia.
Qed.

Lemma descriptorsOf_indices :
  forall fields sdid i,
    map FieldIndex (descriptorsOf sdid i fields)
    = indicesWhere isStructuredDataField i fields.
Proof.
  induction fields as [|field fields IH]; intros sdid i;
    cbn [descriptorsOf indicesWhere]; [reflexivity|].
  rewrite map_app, IH.
  destruct (isStructuredDataField field); reflexivity.
Qed.

Lemma descriptorsOf_In :
  forall fields sdid i fr,
    In fr (descriptorsOf sdid i fields)
    <-> exists k field,
          fields !! k = Some field
          /\ isStructuredDataField field = true
          /\ fr = descriptorOf (lastTagOf "SDID" (take k fields) sdid)
                    (i + Z.of_nat k) field.
Proof.
  induction fields as [|field fields IH]; intros sdid i fr;
    cbn [descriptorsOf].
  - split; [intros [] | intros (k & f & H & _)].
    rewrite lookup_nil in H. discriminate.
  - rewrite in_app_iff, IH. split.
    + intros [H | (k & f & Hk & Hf & ->)].
      * destruct (isStructuredDataField field) eqn:S; [|destruct H].
        destruct H as [<- | []]. exists 0%nat, field.
        cbn [take lastTagOf]. rewrite Z.add_0_r. tauto.
      * exists (S k), f. cbn [take lastTagOf].
        split; [exact Hk|]. split; [exact Hf|]. f_equal. lia.
    + intros (k & f & Hk & Hf & ->). destruct k as [|k].
      * left. injection Hk as ->. rewrite Hf. left.
        cbn [take lastTagOf]. rewrite Z.add_0_r. reflexivity.
      * right. exists k, f. cbn [take lastTagOf].
        split; [exact Hk|]. split; [exact Hf|]. f_equal. lia.
Qed.

(** ** Names of the descriptors *)

Lemma ToLower1_nonempty (c : ascii) : strings.ToLower1 c <> EmptyString.
Proof.
  unfold strings.ToLower1. cbv zeta.
  destruct (byteZ c <? utf8.RuneSelf); [|discriminate].
  destruct ((65 <=? byteZ c) && (byteZ c <=? 90)); discriminate.
Qed.

Lemma derivedName_nonempty (name : string) :
  name <> EmptyString -> derivedName name <> EmptyString.
Proof.
  destruct name as [|c rest]; [congruence|]. intros _. cbn [derivedName].
  pose proof (ToLower1_nonempty c) as N.
  destruct (strings.ToLower1 c); [congruence | discriminate].
Qed.

Lemma tagSdID_nonempty (field : reflect.StructField) (id : string) :
  tagSdID field = Some id -> id <> EmptyString.
Proof.
  unfold tagSdID.
  destruct (sdRegexp (tagNamePart field)) as [m|] eqn:E; [|discriminate].
  apply sdRegexp_shape in E. destruct E as (g1 & g2 & g3 & -> & N).
  cbn. intros [= <-]. exact N.
Qed.

Lemma sdIDInForce_nonempty (sdidDefault : string) :
  sdIDInForce sdidDefault <> EmptyString.
Proof.
  unfold sdIDInForce.
  destruct (String.eqb sdidDefault "") eqn:E; cbn [negb].
  - discriminate.
  - apply String.eqb_neq. exact E.
Qed.

Lemma sdIDInForce_cases (sdidDefault : string) :
  sdIDInForce sdidDefault
  = if String.eqb sdidDefault "" then "0@local" else sdidDefault.
Proof.
  unfold sdIDInForce. destruct (String.eqb sdidDefault ""); reflexivity.
Qed.

(** ** The pattern of the tags *)

Lemma span_spec (p : ascii -> bool) :
  forall s a b,
    regexp.span p s = (a, b) ->
    s = a +:+ b
    /\ allBytes p a = true
    /\ match b with
       | EmptyString => True
       | String c _ => p c = false
       end.
Proof.
  induction s as [|c s IH]; intros a b; cbn [regexp.span].
  - intros [= <- <-]. repeat split.
  - destruct (p c) eqn:P.
    + destruct (regexp.span p s) as [a' b'].
      intros [= <- <-]. destruct (IH a' b' eq_refl) as (E & A & B).
      split; [|split].
      * change (String c a' +:+ b') with (String c (a' +:+ b')).
        rewrite <- E. reflexivity.
      * unfold allBytes in *. cbn [list_ascii_of_string forallb].
        rewrite P, A. reflexivity.
      * exact B.
    + intros [= <- <-]. repeat split. exact P.
Qed.

Lemma span_app (p : ascii -> bool) :
  forall a b,
    allBytes p a = true ->
    match b with
    | EmptyString => True
    | String c _ => p c = false
    end ->
    regexp.span p (a +:+ b) = (a, b).
Proof.
  induction a as [|c a IH]; intros b A B.
  - change (EmptyString +:+ b) with b.
    destruct b as [|d b]; cbn [regexp.span]; [reflexivity|].
    rewrite B. reflexivity.
  - change (String c a +:+ b) with (String c (a +:+ b)).
    unfold allBytes in A. cbn [list_ascii_of_string forallb] in A.
    apply andb_true_iff in A. destruct A as [P A].
    cbn [regexp.span]. rewrite P, (IH b A B). reflexivity.
Qed.

Lemma eqb_empty_false (s : string) :
  s <> EmptyString -> String.eqb s "" = false.
Proof. intros N. apply String.eqb_neq. exact N. Qed.

(** ** What registration gives *)

Section Registered.

Variable severityNames : gmap string Z.
Variable facilityNames : gmap string Z.
Variable Info : Z.
Variable Local0 : Z.
Variable defaultAppName : string.

Abbreviation reflectImplR :=
  (reflectImpl severityNames facilityNames Info Local0 defaultAppName).

Lemma reflectImpl_fields_registrable (t : reflect.Type_) (r : reflection) :
  reflectImplR t = Done r ->
  forallb (registrable severityNames facilityNames) (reflect.Fields t) = true.
Proof.
  intros H. unfold reflectImpl in H.
  eapply (proj1 (reflectFields_Done_iff _ _ _ _ _ _)).
  eexists. exact H.
Qed.

Lemma reflectImpl_descriptors (t : reflect.Type_) (r : reflection) :
  reflectImplR t = Done r ->
  StructuredDataFieldReflections r = descriptorsOf "" 0 (reflect.Fields t).
Proof.
  intros H. unfold reflectImpl in H.
  apply reflectFields_descriptors in H. exact H.
Qed.

(** Every descriptor is the one of a structured-data field that the
    loop let through. *)
Lemma reflectImpl_descriptor_field (t : reflect.Type_) (r : reflection)
    (fr : structuredDataFieldReflection) :
  reflectImplR t = Done r ->
  In fr (StructuredDataFieldReflections r) ->
  exists k field,
    reflect.Fields t !! k = Some field
    /\ FieldIndex fr = Z.of_nat k
    /\ isStructuredDataField field = true
    /\ nameAvailable field = true
    /\ attributesAccepted field = true
    /\ fr = descriptorOf
              (lastTagOf "SDID" (take k (reflect.Fields t)) "")
              (Z.of_nat k) field.
Proof.
  intros H Hin.
  pose proof (reflectImpl_fields_registrable t r H) as Reg.
  rewrite (reflectImpl_descriptors t r H) in Hin.
  apply descriptorsOf_In in Hin.
  destruct Hin as (k & field & Hk & Hsd & ->).
  exists k, field. split; [exact Hk|]. split; [reflexivity|].
  split; [exact Hsd|].
  rewrite forallb_forall in Reg.
  assert (Hin : In field (reflect.Fields t)).
  { apply list_elem_of_In, list_elem_of_lookup. eauto. }
  specialize (Reg field Hin).
  unfold registrable in Reg. unfold isStructuredDataField in Hsd.
  rewrite !andb_true_iff, !negb_true_iff in Hsd.
  destruct Hsd as [[Hrole Hskip] Hmsg].
  assert (S1 : String.eqb (reflect.Name field) "Severity" = false).
  { unfold isRoleName in Hrole. rewrite !orb_false_iff in Hrole. tauto. }
  assert (S2 : String.eqb (reflect.Name field) "Facility" = false).
  { unfold isRoleName in Hrole. rewrite !orb_false_iff in Hrole. tauto. }
  rewrite S1, S2, Hrole, Hskip, Hmsg in Reg.
  apply andb_true_iff in Reg. tauto.
Qed.

(** X11: registration of a type succeeds exactly when each of its fields
    is acceptable on its own: a Severity or Facility field has no tag or
    one found in its table, and a structured-data field has a parameter
    name to take from its tag or its own name and either no attribute or
    [omitempty] as the first one; otherwise it panics. Attributes after
    the first are never looked at. *)
Theorem reflectImpl_succeeds_iff (t : reflect.Type_) :
  (exists r, reflectImplR t = Done r)
  <-> forallb (registrable severityNames facilityNames) (reflect.Fields t)
      = true.
Proof.
  unfold reflectImpl.
  apply reflectFields_Done_iff.
Qed.

(** X12: each role index of the reflection is -1 when the type has no
    field for the role, and else the index of the last field for it: a
    field of that name, and for the message also a field tagged as the
    message. *)
Theorem reflectImpl_role_indices (t : reflect.Type_) (r : reflection) :
  reflectImplR t = Done r ->
  let fields := reflect.Fields t in
  isLastIndexOf (hasName "Severity") fields (SeverityFieldIndex r)
  /\ isLastIndexOf (hasName "Facility") fields (FacilityFieldIndex r)
  /\ isLastIndexOf (hasName "Timestamp") fields (TimestampFieldIndex r)
  /\ isLastIndexOf (hasName "Hostname") fields (HostnameFieldIndex r)
  /\ isLastIndexOf (hasName "AppName") fields (AppNameFieldIndex r)
  /\ isLastIndexOf (hasName "ProcessID") fields (ProcessIDFieldIndex r)
  /\ isLastIndexOf (hasName "MessageID") fields (MessageIDFieldIndex r)
  /\ isLastIndexOf isMessageField fields (MessageFieldIndex r).
Proof.
  intros H. cbv zeta. unfold reflectImpl in H.
  repeat split.
  all: match goal with
       | |- isLastIndexOf ?p _ (?proj _) =>
           assert (Step :
             forall i field r0 r1,
               reflectField severityNames facilityNames t i field r0 = Done r1 ->
               proj r1 = if p field then i else proj r0)
             by (intros i field r0 r1 E; apply reflectField_step in E;
                 cbv zeta in E; tauto);
           rewrite (reflectFields_lastIndex severityNames facilityNames t
                      proj p Step _ _ _ _ H);
           apply lastIndexWhere_isLastIndexOf
       end.
Qed.

Lemma reflectFields_tableDefault (t : reflect.Type_)
    (proj : reflection -> Z) (table : gmap string Z) (name : string)
    (v0 : Z) :
  (forall i field r r1,
      reflectField severityNames facilityNames t i field r = Done r1 ->
      proj r1
      = if hasName name field && negb (String.eqb (reflect.Tag field) "")
        then default (proj r) (table !! reflect.Tag field)
        else proj r) ->
  (forall i field r r1,
      reflectField severityNames facilityNames t i field r = Done r1 ->
      hasName name field && negb (String.eqb (reflect.Tag field) "") = true ->
      inTable table (reflect.Tag field) = true) ->
  forall fields i r r' current,
    reflectFields severityNames facilityNames t i fields r = Done r' ->
    (current = EmptyString /\ proj r = v0
     \/ current <> EmptyString /\ table !! current = Some (proj r)) ->
    lastTagOf name fields current = EmptyString /\ proj r' = v0
    \/ lastTagOf name fields current <> EmptyString
       /\ table !! lastTagOf name fields current = Some (proj r').
Proof.
  intros Step Found.
  induction fields as [|field fields IH]; intros i r r' current;
    cbn [reflectFields lastTagOf].
  - intros [= <-] Inv. exact Inv.
  - destruct (reflectField severityNames facilityNames t i field r)
      as [r1|] eqn:E; cbn [obind]; [|discriminate].
    intros H Inv. apply (IH _ _ _ _ H).
    rewrite (Step _ _ _ _ E). specialize (Found _ _ _ _ E).
    destruct (hasName name field && negb (String.eqb (reflect.Tag field) ""))
      eqn:T; [|exact Inv].
    specialize (Found eq_refl). unfold inTable in Found.
    destruct (table !! reflect.Tag field) as [v|] eqn:L; [|discriminate].
    right. split; [|reflexivity].
    apply andb_true_iff in T. destruct T as [_ T].
    apply negb_true_iff, String.eqb_neq in T. exact T.
Qed.

Lemma tagged_Severity_inTable (t : reflect.Type_) (i : Z)
    (field : reflect.StructField) (r r1 : reflection) :
  reflectField severityNames facilityNames t i field r = Done r1 ->
  hasName "Severity" field && negb (String.eqb (reflect.Tag field) "") = true ->
  inTable severityNames (reflect.Tag field) = true.
Proof.
  intros E T.
  assert (Reg : registrable severityNames facilityNames field = true)
    by (apply (reflectField_Done_iff _ _ t i field r); eauto).
  apply andb_true_iff in T. destruct T as [N T]. unfold hasName in N.
  unfold registrable in Reg. rewrite N in Reg.
  apply negb_true_iff in T. rewrite T in Reg. exact Reg.
Qed.

Lemma tagged_Facility_inTable (t : reflect.Type_) (i : Z)
    (field : reflect.StructField) (r r1 : reflection) :
  reflectField severityNames facilityNames t i field r = Done r1 ->
  hasName "Facility" field && negb (String.eqb (reflect.Tag field) "") = true ->
  inTable facilityNames (reflect.Tag field) = true.
Proof.
  intros E T.
  assert (Reg : registrable severityNames facilityNames field = true)
    by (apply (reflectField_Done_iff _ _ t i field r); eauto).
  apply andb_true_iff in T. destruct T as [N T]. unfold hasName in N.
  unfold registrable in Reg.
  apply String.eqb_eq in N. rewrite N in Reg. cbn in Reg.
  apply negb_true_iff in T. rewrite T in Reg. exact Reg.
Qed.

Ltac step_of_field :=
  let E := fresh "E" in
  intros ? ? ? ? E; apply reflectField_step in E; cbv zeta in E; tauto.

(** X13: the defaults of the reflection come from the tags of the role
    fields: the AppName and MessageID defaults and the default element
    ID are the tag of the last field of that name that has one, else the
    executable name, the name of the type and the empty string; the
    Severity and Facility defaults are what the table gives for the tag
    of the last such field, else [Info] and [Local0]. *)
Theorem reflectImpl_defaults (t : reflect.Type_) (r : reflection) :
  reflectImplR t = Done r ->
  let fields := reflect.Fields t in
  AppNameDefault r = lastTagOf "AppName" fields defaultAppName
  /\ MessageIDDefault r = lastTagOf "MessageID" fields (reflect.TypeName t)
  /\ SDIDDefault r = lastTagOf "SDID" fields ""
  /\ (lastTagOf "Severity" fields "" = EmptyString
      /\ SeverityDefault r = Info
      \/ lastTagOf "Severity" fields "" <> EmptyString
         /\ severityNames !! lastTagOf "Severity" fields ""
            = Some (SeverityDefault r))
  /\ (lastTagOf "Facility" fields "" = EmptyString
      /\ FacilityDefault r = Local0
      \/ lastTagOf "Facility" fields "" <> EmptyString
         /\ facilityNames !! lastTagOf "Facility" fields ""
            = Some (FacilityDefault r)).
Proof.
  intros H. cbv zeta. unfold reflectImpl in H.
  split; [|split; [|split; [|split]]].
  - rewrite (reflectFields_lastTag severityNames facilityNames t
               AppNameDefault "AppName" ltac:(step_of_field) _ _ _ _ H).
    reflexivity.
  - rewrite (reflectFields_lastTag severityNames facilityNames t
               MessageIDDefault "MessageID" ltac:(step_of_field) _ _ _ _ H).
    reflexivity.
  - rewrite (reflectFields_lastTag severityNames facilityNames t
               SDIDDefault "SDID" ltac:(step_of_field) _ _ _ _ H).
    reflexivity.
  - apply (reflectFields_tableDefault t SeverityDefault severityNames
             "Severity" Info ltac:(step_of_field)
             (tagged_Severity_inTable t) _ _ _ _ _ H).
    left. split; reflexivity.
  - apply (reflectFields_tableDefault t FacilityDefault facilityNames
             "Facility" Local0 ltac:(step_of_field)
             (tagged_Facility_inTable t) _ _ _ _ _ H).
    left. split; reflexivity.
Qed.

(** X14: the descriptors of a registered type are those of its
    structured-data fields, one each, in the order of declaration: the
    fields that are no role, not untagged and unexported, and not tagged
    as the message. *)
Theorem reflectImpl_descriptor_order (t : reflect.Type_) (r : reflection) :
  reflectImplR t = Done r ->
  map FieldIndex (StructuredDataFieldReflections r)
  = indicesWhere isStructuredDataField 0 (reflect.Fields t).
Proof.
  intros H. rewrite (reflectImpl_descriptors t r H).
  apply descriptorsOf_indices.
Qed.

(** X15: the element ID of a descriptor is the one its tag names and,
    when the tag names none, the tag of the closest tagged [SDID] field
    declared before the field, or [0@local] when there is no such field:
    an [SDID] field applies to the fields after it only. *)
Theorem reflectImpl_descriptor_sdid (t : reflect.Type_) (r : reflection)
    (fr : structuredDataFieldReflection) :
  reflectImplR t = Done r ->
  In fr (StructuredDataFieldReflections r) ->
  exists k field,
    reflect.Fields t !! k = Some field
    /\ FieldIndex fr = Z.of_nat k
    /\ SdID fr
       = match tagSdID field with
         | Some id => id
         | None =>
             let before := lastTagOf "SDID" (take k (reflect.Fields t)) "" in
             if String.eqb before "" then "0@local" else before
         end.
Proof.
  intros H Hin.
  destruct (reflectImpl_descriptor_field t r fr H Hin)
    as (k & field & Hk & Hi & _ & _ & _ & ->).
  exists k, field. split; [exact Hk|]. split; [exact Hi|].
  cbn [SdID descriptorOf]. cbv zeta.
  destruct (tagSdID field); [reflexivity | apply sdIDInForce_cases].
Qed.

(** X16: the parameter name of a descriptor is the name its tag gives
    and, when the tag gives none, the name of the field with its first
    byte lowered; neither the parameter name nor the element ID of a
    descriptor is ever empty. *)
Theorem reflectImpl_descriptor_name (t : reflect.Type_) (r : reflection)
    (fr : structuredDataFieldReflection) :
  reflectImplR t = Done r ->
  In fr (StructuredDataFieldReflections r) ->
  exists k field,
    reflect.Fields t !! k = Some field
    /\ FieldIndex fr = Z.of_nat k
    /\ FieldName fr
       = (if String.eqb (tagFieldName field) ""
          then derivedName (reflect.Name field) else tagFieldName field)
    /\ FieldName fr <> EmptyString
    /\ SdID fr <> EmptyString.
Proof.
  intros H Hin.
  destruct (reflectImpl_descriptor_field t r fr H Hin)
    as (k & field & Hk & Hi & _ & Hn & _ & ->).
  exists k, field. split; [exact Hk|]. split; [exact Hi|].
  cbn [FieldName SdID descriptorOf]. split; [reflexivity|]. split.
  - unfold nameAvailable in Hn.
    destruct (String.eqb (tagFieldName field) "") eqn:E.
    + cbn [negb orb] in Hn. apply negb_true_iff, String.eqb_neq in Hn.
      apply derivedName_nonempty. exact Hn.
    + apply String.eqb_neq. exact E.
  - destruct (tagSdID field) as [id|] eqn:E.
    + apply (tagSdID_nonempty field id E).
    + apply sdIDInForce_nonempty.
Qed.

(** X17: a descriptor is omit-if-empty exactly when the first attribute
    of the tag of its field is [omitempty], and it is not exactly when
    the tag has no attribute at all. *)
Theorem reflectImpl_descriptor_omitempty (t : reflect.Type_) (r : reflection)
    (fr : structuredDataFieldReflection) :
  reflectImplR t = Done r ->
  In fr (StructuredDataFieldReflections r) ->
  exists k field,
    reflect.Fields t !! k = Some field
    /\ FieldIndex fr = Z.of_nat k
    /\ (OmitEmpty fr = true
        <-> strings.Split (reflect.Tag field) "," !! 1%nat = Some "omitempty")
    /\ (OmitEmpty fr = false
        <-> strings.Split (reflect.Tag field) "," !! 1%nat = None).
Proof.
  intros H Hin.
  destruct (reflectImpl_descriptor_field t r fr H Hin)
    as (k & field & Hk & Hi & _ & _ & Ha & ->).
  exists k, field. split; [exact Hk|]. split; [exact Hi|].
  cbn [OmitEmpty descriptorOf]. unfold attributesAccepted in Ha.
  unfold tagParts in *.
  destruct (strings.Split (reflect.Tag field) ",") as [|p0 [|p1 rest]];
    cbn in Ha |- *.
  - split; split; intros; congruence.
  - split; split; intros; congruence.
  - apply String.eqb_eq in Ha. subst p1.
    split; split; intros; congruence.
Qed.

End Registered.

(** ** The example type *)

Lemma eventType_registered :
  reflectImpl eventSeverityNames ∅ 6 16 "app" eventType
  = Done eventReflection.
Proof. reflexivity. Defined.

Lemma eventPath_registered :
  In eventPath (StructuredDataFieldReflections eventReflection).
Proof. right. left. reflexivity. Defined.

Lemma reflectImpl_role_indices_witness :
  isLastIndexOf isMessageField eventFields 5.
Proof.
  exact (proj2 (proj2 (proj2 (proj2 (proj2 (proj2 (proj2
    (reflectImpl_role_indices eventSeverityNames ∅ 6 16 "app" eventType
       eventReflection eventType_registered)))))))).
Defined.

Lemma reflectImpl_defaults_witness :
  SDIDDefault eventReflection = lastTagOf "SDID" eventFields "".
Proof.
  exact (proj1 (proj2 (proj2
    (reflectImpl_defaults eventSeverityNames ∅ 6 16 "app" eventType
       eventReflection eventType_registered)))).
Defined.

Lemma reflectImpl_descriptor_order_witness :
  map FieldIndex (StructuredDataFieldReflections eventReflection)
  = indicesWhere isStructuredDataField 0 eventFields.
Proof.
  exact (reflectImpl_descriptor_order eventSeverityNames ∅ 6 16 "app"
           eventType eventReflection eventType_registered).
Defined.

Lemma reflectImpl_descriptor_sdid_witness :
  exists k field,
    eventFields !! k = Some field
    /\ 3 = Z.of_nat k
    /\ "7@example"
       = match tagSdID field with
         | Some id => id
         | None =>
             let before := lastTagOf "SDID" (take k eventFields) "" in
             if String.eqb before "" then "0@local" else before
         end.
Proof.
  exact (reflectImpl_descriptor_sdid eventSeverityNames ∅ 6 16 "app"
           eventType eventReflection eventPath eventType_registered
           eventPath_registered).
Defined.

Lemma reflectImpl_descriptor_name_witness :
  exists k field,
    eventFields !! k = Some field
    /\ 3 = Z.of_nat k
    /\ "path"
       = (if String.eqb (tagFieldName field) ""
          then derivedName (reflect.Name field) else tagFieldName field)
    /\ "path" <> EmptyString
    /\ "7@example" <> EmptyString.
Proof.
  exact (reflectImpl_descriptor_name eventSeverityNames ∅ 6 16 "app"
           eventType eventReflection eventPath eventType_registered
           eventPath_registered).
Defined.

Lemma reflectImpl_descriptor_omitempty_witness :
  exists k field,
    eventFields !! k = Some field
    /\ 3 = Z.of_nat k
    /\ (true = true
        <-> strings.Split (reflect.Tag field) "," !! 1%nat = Some "omitempty")
    /\ (true = false
        <-> strings.Split (reflect.Tag field) "," !! 1%nat = None).
Proof.
  exact (reflectImpl_descriptor_omitempty eventSeverityNames ∅ 6 16 "app"
           eventType eventReflection eventPath eventType_registered
           eventPath_registered).
Defined.

(** ** The language of the tag pattern *)

(** X18: [sdRegexp] matches exactly the strings made of one or more
    digits, an at-sign and one or more bytes that are no white space,
    alone or followed by a space and a rest without a newline; group 1
    is the part before that space and group 3 the rest after it. *)
Theorem sdRegexp_language (s : string) (m : list string) :
  sdRegexp s = Some m
  <-> exists digits token,
        digits <> EmptyString
        /\ allBytes regexp.isDigit digits = true
        /\ token <> EmptyString
        /\ allBytes regexp.isNonSpace token = true
        /\ (s = digits +:+ "@" +:+ token
            /\ m = [s; digits +:+ "@" +:+ token; EmptyString; EmptyString]
            \/ exists rest,
                 s = digits +:+ "@" +:+ token +:+ " " +:+ rest
                 /\ allBytes regexp.isDot rest = true
                 /\ m = [s; digits +:+ "@" +:+ token;
                         " " +:+ rest; rest]).
Proof.
  split.
  - unfold sdRegexp.
    destruct (regexp.span regexp.isDigit s) as [digits r1] eqn:S1.
    apply span_spec in S1. destruct S1 as (E1 & A1 & B1).
    destruct (String.eqb digits "") eqn:N1; [discriminate|].
    apply String.eqb_neq in N1.
    destruct r1 as [|c r2]; [discriminate|].
    destruct (Ascii.eqb c "@") eqn:C; cbn [negb]; [|discriminate].
    apply Ascii.eqb_eq in C. subst c.
    destruct (regexp.span regexp.isNonSpace r2) as [token r3] eqn:S2.
    apply span_spec in S2. destruct S2 as (E2 & A2 & B2).
    destruct (String.eqb token "") eqn:N2; [discriminate|].
    apply String.eqb_neq in N2.
    destruct r3 as [|sp rest].
    + intros [= <-]. exists digits, token. repeat (split; [assumption|]).
      left. rewrite string_append_empty_r in E2. subst r2.
      split; [exact E1 | reflexivity].
    + destruct (Ascii.eqb sp " ") eqn:Sp; cbn [andb]; [|discriminate].
      apply Ascii.eqb_eq in Sp. subst sp.
      destruct (forallb regexp.isDot (list_ascii_of_string rest)) eqn:D;
        [|discriminate].
      intros [= <-]. exists digits, token. repeat (split; [assumption|]).
      right. exists rest. subst r2. split; [|split; [exact D | reflexivity]].
      rewrite E1. reflexivity.
  - intros (digits & token & N1 & A1 & N2 & A2 & Hs).
    assert (S1 : forall tail,
               regexp.span regexp.isDigit (digits +:+ "@" +:+ tail)
               = (digits, String "@" tail)).
    { intros tail. change ("@" +:+ tail) with (String "@" tail).
      apply span_app; [exact A1 | reflexivity]. }
    unfold sdRegexp.
    destruct Hs as [[Es Em] | (rest & Es & D & Em)].
    + rewrite Es at 1. rewrite S1.
      rewrite (eqb_empty_false _ N1). cbn [Ascii.eqb negb].
      change (Ascii.eqb "@" "@") with true. cbn [negb].
      rewrite <- (string_append_empty_r token) at 1.
      rewrite (span_app regexp.isNonSpace token EmptyString A2 I).
      rewrite (eqb_empty_false _ N2). rewrite Em. reflexivity.
    + rewrite Es at 1. rewrite S1.
      rewrite (eqb_empty_false _ N1).
      change (Ascii.eqb "@" "@") with true. cbn [negb].
      change (" " +:+ rest) with (String " " rest).
      rewrite (span_app regexp.isNonSpace token (String " " rest) A2 eq_refl).
      rewrite (eqb_empty_false _ N2).
      change (Ascii.eqb " " " ") with true. cbn [andb].
      unfold allBytes in D. rewrite D. rewrite Em. reflexivity.
Qed.

(** ** Looking a descriptor up *)

Lemma findFieldReflection_first (sdID fieldName : string) :
  forall l,
    match findFieldReflection l sdID fieldName with
    | Some fr =>
        exists pre post,
          l = pre ++ fr :: post
          /\ hasKey sdID fieldName fr
          /\ Forall (fun other => ~ hasKey sdID fieldName other) pre
    | None => Forall (fun other => ~ hasKey sdID fieldName other) l
    end.
Proof.
  induction l as [|x l IH]; cbn [findFieldReflection]; [constructor|].
  destruct (String.eqb (SdID x) sdID && String.eqb (FieldName x) fieldName)
    eqn:K.
  - apply andb_true_iff in K. destruct K as [K1 K2].
    apply String.eqb_eq in K1, K2.
    exists [], l. repeat split; [exact K1 | exact K2 | constructor].
  - assert (N : ~ hasKey sdID fieldName x).
    { intros [K1 K2]. apply String.eqb_eq in K1, K2.
      rewrite K1, K2 in K. discriminate. }
    destruct (findFieldReflection l sdID fieldName) as [fr|].
    + destruct IH as (pre & post & -> & Hk & F).
      exists (x :: pre), post. repeat split; [apply Hk.. |].
      constructor; assumption.
    + constructor; assumption.
Qed.

Lemma inOrder_lower (lo hi : Z) (l : list Z) :
  inOrder lo hi l = true -> forall i, In i l -> lo <= i.
Proof.
  revert lo. induction l as [|x l IH]; intros lo; cbn [inOrder];
    [intros _ i []|].
  rewrite !andb_true_iff, Z.leb_le, Z.ltb_lt.
  intros [[A B] C] i [<- | Hi]; [exact A|].
  specialize (IH _ C i Hi). lia.
Qed.

Lemma inOrder_after (lo hi : Z) (pre post : list Z) (x : Z) :
  inOrder lo hi (pre ++ x :: post) = true ->
  forall i, In i post -> x < i.
Proof.
  revert lo. induction pre as [|p pre IH]; intros lo; cbn [app inOrder];
    rewrite !andb_true_iff.
  - intros [_ C] i Hi. pose proof (inOrder_lower _ _ _ C i Hi). lia.
  - intros [_ C]. apply (IH _ C).
Qed.

(** X19: [GetStructuredDataFieldReflection] returns the first
    descriptor of the reflection with the element ID and the parameter
    name asked for, and nil exactly when there is none. *)
Theorem GetStructuredDataFieldReflection_first (r : reflection)
    (sdID fieldName : string) :
  match GetStructuredDataFieldReflection r sdID fieldName with
  | Some fr =>
      exists pre post,
        StructuredDataFieldReflections r = pre ++ fr :: post
        /\ SdID fr = sdID /\ FieldName fr = fieldName
        /\ Forall (fun other =>
                     ~ (SdID other = sdID /\ FieldName other = fieldName))
             pre
  | None =>
      Forall (fun other =>
                ~ (SdID other = sdID /\ FieldName other = fieldName))
        (StructuredDataFieldReflections r)
  end.
Proof.
  unfold GetStructuredDataFieldReflection.
  pose proof (findFieldReflection_first sdID fieldName
                (StructuredDataFieldReflections r)) as H.
  destruct (findFieldReflection _ sdID fieldName) as [fr|]; [|exact H].
  destruct H as (pre & post & E & [K1 K2] & F).
  exists pre, post. auto.
Qed.

(** X20: on the reflection of a registered type, the lookup of the
    element ID and parameter name of any of its descriptors finds a
    descriptor with that ID and name, and when several fields share
    them, the one of the field declared first. *)
Theorem GetStructuredDataFieldReflection_registered
    (severityNames facilityNames : gmap string Z) (Info Local0 : Z)
    (defaultAppName : string) (t : reflect.Type_) (r : reflection)
    (fr : structuredDataFieldReflection) :
  reflectImpl severityNames facilityNames Info Local0 defaultAppName t
  = Done r ->
  In fr (StructuredDataFieldReflections r) ->
  exists found,
    GetStructuredDataFieldReflection r (SdID fr) (FieldName fr) = Some found
    /\ In found (StructuredDataFieldReflections r)
    /\ SdID found = SdID fr
    /\ FieldName found = FieldName fr
    /\ forall other,
         In other (StructuredDataFieldReflections r) ->
         SdID other = SdID fr -> FieldName other = FieldName fr ->
         FieldIndex found <= FieldIndex other.
Proof.
  intros H Hin.
  destruct (reflectImpl_Done _ _ _ _ _ t r H) as [_ Ord].
  unfold declarationOrder in Ord.
  unfold GetStructuredDataFieldReflection.
  pose proof (findFieldReflection_first (SdID fr) (FieldName fr)
                (StructuredDataFieldReflections r)) as F.
  destruct (findFieldReflection _ (SdID fr) (FieldName fr)) as [found|].
  - destruct F as (pre & post & E & [K1 K2] & F).
    exists found. split; [reflexivity|].
    split; [rewrite E; apply in_or_app; right; left; reflexivity|].
    split; [exact K1|]. split; [exact K2|].
    intros other Ho S N. rewrite E in Ho, Ord.
    apply in_app_or in Ho. destruct Ho as [Ho | [<- | Ho]].
    + rewrite Forall_forall in F. exfalso.
      apply (F other); [apply list_elem_of_In; exact Ho | split; assumption].
    + lia.
    + rewrite map_app in Ord. cbn [map] in Ord.
      pose proof (inOrder_after _ _ _ _ _ Ord (FieldIndex other)
                    (in_map FieldIndex _ _ Ho)).
      lia.
  - rewrite Forall_forall in F. exfalso.
    apply (F fr); [apply list_elem_of_In; exact Hin | split; reflexivity].
Qed.

Lemma GetStructuredDataFieldReflection_registered_witness :
  exists found,
    GetStructuredDataFieldReflection eventReflection "7@example" "path"
    = Some found
    /\ In found (StructuredDataFieldReflections eventReflection)
    /\ SdID found = "7@example"
    /\ FieldName found = "path"
    /\ forall other,
         In other (StructuredDataFieldReflections eventReflection) ->
         SdID other = "7@example" -> FieldName other = "path" ->
         FieldIndex found <= FieldIndex other.
Proof.
  exact (GetStructuredDataFieldReflection_registered eventSeverityNames ∅
           6 16 "app" eventType eventReflection eventPath
           eventType_registered eventPath_registered).
Defined.

(** ** The cache *)

Lemma findReflection_None (l : list reflection) (t : reflect.Type_) :
  findReflection l t = None -> ~ In t (map Type_ l).
Proof.
  induction l as [|x l IH]; cbn [findReflection map]; [intros _ []|].
  destruct (decide (Type_ x = t)) as [E|E]; [discriminate|].
  intros H [Hx | Hin]; [contradiction | exact (IH H Hin)].
Qed.

Section Cache.

Variable severityNames : gmap string Z.
Variable facilityNames : gmap string Z.
Variable Info : Z.
Variable Local0 : Z.
Variable defaultAppName : string.

Abbreviation reflectImplC :=
  (reflectImpl severityNames facilityNames Info Local0 defaultAppName).
Abbreviation ReflectC :=
  (Reflect severityNames facilityNames Info Local0 defaultAppName).
Abbreviation cacheAfterC :=
  (cacheAfter severityNames facilityNames Info Local0 defaultAppName).

Lemma Reflect_keyed (t : reflect.Type_) (c : gmap string (list reflection)) :
  cacheKeyed c -> cacheKeyed (snd (ReflectC t c)).
Proof.
  intros K. unfold Reflect.
  destruct (c !! reflect.TypeName t) as [l|] eqn:L.
  - destruct (findReflection l t) as [r|] eqn:F; [exact K|].
    destruct (reflectImplC t) as [r|msg] eqn:R; cbn [snd]; [|exact K].
    destruct (reflectImpl_Done _ _ _ _ _ t r R) as [Hty _].
    intros name l' Hl.
    destruct (decide (reflect.TypeName t = name)) as [<-|Hne].
    + rewrite lookup_insert_eq in Hl. injection Hl as <-.
      destruct (K _ _ L) as (_ & Kn & Kd).
      split; [destruct l; discriminate|]. split.
      * apply Forall_app. split; [exact Kn|].
        constructor; [rewrite Hty; reflexivity | constructor].
      * rewrite map_app. cbn [map]. apply NoDup_app.
        split; [exact Kd|]. split; [|apply NoDup_singleton].
        intros x Hx Hx'. apply list_elem_of_singleton in Hx'. subst x.
        apply (findReflection_None l t F). rewrite <- Hty.
        apply list_elem_of_In. exact Hx.
    + rewrite lookup_insert_ne in Hl by exact Hne. exact (K _ _ Hl).
  - destruct (reflectImplC t) as [r|msg] eqn:R; cbn [snd]; [|exact K].
    destruct (reflectImpl_Done _ _ _ _ _ t r R) as [Hty _].
    intros name l' Hl.
    destruct (decide (reflect.TypeName t = name)) as [<-|Hne].
    + rewrite lookup_insert_eq in Hl. injection Hl as <-.
      split; [discriminate|]. split.
      * constructor; [rewrite Hty; reflexivity | constructor].
      * cbn [map]. apply NoDup_singleton.
    + rewrite lookup_insert_ne in Hl by exact Hne. exact (K _ _ Hl).
Qed.


(** X22: in every cache that calls of [Reflect] build from the empty
    one, each list is under the name of the types of its reflections,
    is not empty, and holds no type twice. *)
Theorem cacheAfter_keyed (ts : list reflect.Type_) :
  cacheKeyed (cacheAfterC ts ∅).
Proof.
  assert (G : forall c, cacheKeyed c -> cacheKeyed (cacheAfterC ts c)).
  { induction ts as [|t ts IH]; intros c K; cbn [cacheAfter];
      [exact K|].
    apply IH, Reflect_keyed, K. }
  apply G. intros name l H. rewrite lookup_empty in H. discriminate.
Qed.

End Cache.
